(** * StockGPT: the ticker-resolution and data-assembly pipeline

    A shallow embedding of [utils.py], [config.py] and the turn handler of
    [app.py], and the properties of the specification proved (or refuted)
    against it.

    Conventions of the embedding:
    - a Python [str] is a list of Unicode code points ([str := list N]),
      so [len] is [length] and slicing is [firstn];
    - a Python [int] is a [Z], a Python [float] is a binary64 value of
      [SpecFloat] (the executable IEEE 754 specification of the standard
      library);
    - a [dict] is a [gmap] keyed by [str];
    - [try]/[except Exception] is an explicit [result] type;
    - the market-data provider, the language model and the tables of the
      Python runtime that are not part of the repository are fields of a
      [World] record, so every theorem holds for all their behaviours. *)

From Stdlib Require Import ZArith NArith List String Ascii Bool Lia.
From Stdlib Require Import Floats.SpecFloat.
From stdpp Require Import base option list gmap.
Import ListNotations.

Local Open Scope Z_scope.

(* ===================================================================== *)
(** * Python strings                                                      *)
(* ===================================================================== *)

Module PyStr.

Local Open Scope N_scope.

(** A code point, and a string of them. *)
Abbreviation char := N.
Abbreviation str := (list N).

(** Code points of a UTF-8 byte sequence. *)
Fixpoint utf8_decode (bs : list N) : str :=
  match bs with
  | [] => []
  | b :: r =>
      if b <? 128 then b :: utf8_decode r
      else if b <? 224 then
        match r with
        | c1 :: r' => ((b - 192) * 64 + (c1 - 128)) :: utf8_decode r'
        | _ => []
        end
      else if b <? 240 then
        match r with
        | c1 :: c2 :: r' =>
            ((b - 224) * 4096 + (c1 - 128) * 64 + (c2 - 128)) :: utf8_decode r'
        | _ => []
        end
      else
        match r with
        | c1 :: c2 :: c3 :: r' =>
            ((b - 240) * 262144 + (c1 - 128) * 4096 + (c2 - 128) * 64 + (c3 - 128))
              :: utf8_decode r'
        | _ => []
        end
  end.

(** A string literal of the source, as code points. *)
Definition lit (s : string) : str :=
  utf8_decode (map N_of_ascii (list_ascii_of_string s)).
Arguments lit _%_string : simpl never.

Definition in_range (lo hi c : char) : bool :=
  (lo <=? c) && (c <=? hi).

(** The class [[A-Z]] of a pattern compiled without flags. *)
Definition is_upper (c : char) : bool := in_range 65 90 c.
Definition is_lower (c : char) : bool := in_range 97 122 c.
Definition is_digit (c : char) : bool := in_range 48 57 c.
Definition is_ascii (c : char) : bool := c <? 128.

(** [sep.join(parts)] *)
Fixpoint join (sep : str) (parts : list str) : str :=
  match parts with
  | [] => []
  | [p] => p
  | p :: ps => p ++ sep ++ join sep ps
  end.

(** [s.startswith(p)] *)
Fixpoint startswith (p s : str) : bool :=
  match p, s with
  | [], _ => true
  | _ :: _, [] => false
  | a :: p', b :: s' => (a =? b) && startswith p' s'
  end.

(** Decimal digits of a natural number, most significant first.  The
    fuel is the bit length of the number, which bounds its number of
    decimal digits. *)
Fixpoint digits_fuel (fuel : nat) (n : N) (acc : str) : str :=
  match fuel with
  | O => acc
  | S f =>
      let acc' := (48 + n mod 10) :: acc in
      if n <? 10 then acc' else digits_fuel f (n / 10) acc'
  end.

Definition str_of_N (n : N) : str :=
  digits_fuel (S (N.to_nat (N.log2 n))) n [].

(** [str(z)] for a Python [int]. *)
Definition str_of_Z (z : Z) : str :=
  match z with
  | Zneg p => 45 :: str_of_N (Npos p)
  | _ => str_of_N (Z.to_N z)
  end.

End PyStr.
Import PyStr.

(* ===================================================================== *)
(** * Tables of the Python runtime                                        *)
(* ===================================================================== *)

(** The Unicode database and the shortest-representation printer of
    floats belong to CPython, not to the repository.  The code only
    depends on them outside the ASCII range (resp. for values it prints
    with [str()]), so they are taken as parameters. *)
Record Runtime := {
  (** [ch.isalnum()] for a code point above 127: the non-ASCII part of the
      class [\w] of [re] on [str] patterns. *)
  uni_word : char -> bool;
  (** [ch.upper()] and [ch.lower()] for a code point above 127 (they may
      expand). *)
  uni_upper : char -> str;
  uni_lower : char -> str;
  (** [repr(x)] of a float. *)
  float_repr : spec_float -> str;
  (** [format(x, ",")] of a float. *)
  float_comma : spec_float -> str
}.

(** Tables under which every character above 127 is a symbol; enough to
    run the definitions on ASCII text. *)
Definition ascii_tables : Runtime :=
  {| uni_word := fun _ => false;
     uni_upper := fun c => [c];
     uni_lower := fun c => [c];
     float_repr := fun _ => lit "<float>";
     float_comma := fun _ => lit "<float>" |}.

(* ===================================================================== *)
(** * utils.py: the symbol extractor                                      *)
(* ===================================================================== *)

Section Extractor.

Variable R : Runtime.

Local Open Scope N_scope.

(** The class [\w]: [[a-zA-Z0-9_]] and the Unicode alphanumerics. *)
Definition is_word (c : char) : bool :=
  if is_ascii c
  then is_upper c || is_lower c || is_digit c || (c =? 95)
  else uni_word R c.

Definition word_of (o : option char) : bool :=
  match o with Some c => is_word c | None => false end.

(** [\b] between the character before and the character after the
    current position (absent at either end of the text). *)
Definition boundary (prev next : option char) : bool :=
  xorb (word_of prev) (word_of next).

(** [[A-Z]{1,5}], greedy: every way to read between one and [n]
    capitals at the head of [s], the longest first, which is the order
    in which the backtracking matcher tries them. *)
Fixpoint upper_runs (n : nat) (s : str) : list (str * str) :=
  match n, s with
  | S k, c :: s' =>
      if is_upper c
      then map (fun gr => (c :: fst gr, snd gr)) (upper_runs k s') ++ [([c], s')]
      else []
  | _, _ => []
  end.

(** [([A-Z]{1,5})\b] at the head of [s]: the group of the first
    alternative after which the boundary assertion holds. *)
Definition group_boundary (s : str) : option str :=
  fst <$> find (fun gr => boundary (last (fst gr)) (head (snd gr))) (upper_runs 5 s).

(** [([A-Z]{1,5})\)] at the head of [s]. *)
Definition group_paren (s : str) : option str :=
  fst <$> find (fun gr => match snd gr with c :: _ => c =? 41 | [] => false end)
               (upper_runs 5 s).

(** [re.search(r"\$([A-Z]{1,5})\b", text)]: group 1 of the leftmost
    match. *)
Fixpoint search_dollar (s : str) : option str :=
  match s with
  | [] => None
  | c :: s' =>
      match (if c =? 36 then group_boundary s' else None) with
      | Some g => Some g
      | None => search_dollar s'
      end
  end.

(** [re.search(r"\(([A-Z]{1,5})\)", text)] *)
Fixpoint search_paren (s : str) : option str :=
  match s with
  | [] => None
  | c :: s' =>
      match (if c =? 40 then group_paren s' else None) with
      | Some g => Some g
      | None => search_paren s'
      end
  end.

(** [\b[A-Z]{1,5}\b] at a position whose previous character is
    [prev]. *)
Definition token_at (prev : option char) (s : str) : option str :=
  if boundary prev (head s) then group_boundary s else None.

(** [re.findall(r"\b[A-Z]{1,5}\b", text)]: the matches from left to
    right, without overlap.  [skip] counts the characters of the last
    match that are still to be passed. *)
Fixpoint findall_from (skip : nat) (prev : option char) (s : str) : list str :=
  match s with
  | [] => []
  | c :: s' =>
      match skip with
      | S k => findall_from k (Some c) s'
      | O =>
          match token_at prev s with
          | Some g => g :: findall_from (length g - 1) (Some c) s'
          | None => findall_from 0 (Some c) s'
          end
      end
  end.

Definition findall_tokens (text : str) : list str := findall_from 0 None text.

(** [s.upper()] *)
Definition char_upper (c : char) : str :=
  if is_ascii c then (if is_lower c then [c - 32] else [c]) else uni_upper R c.

Definition str_upper (s : str) : str := concat (map char_upper s).

(** [s.lower()] *)
Definition char_lower (c : char) : str :=
  if is_ascii c then (if is_upper c then [c + 32] else [c]) else uni_lower R c.

Definition str_lower (s : str) : str := concat (map char_lower s).

Definition extract_ticker_from_text (text : str) : option str :=
  (* 1) $TICKER pattern *)
  match search_dollar text with
  | Some g => Some (str_upper g)
  | None =>
      (* 2) Parentheses pattern like (AAPL) *)
      match search_paren text with
      | Some g => Some (str_upper g)
      | None =>
          (* 3) Uppercase tokens, single letters left out *)
          let tokens := findall_tokens text in
          let tokens := filter (fun t => (1 <? length t)%nat) tokens in
          match tokens with
          | t :: _ => Some (str_upper t)
          | [] => None
          end
      end
  end.

End Extractor.


(* ===================================================================== *)
(** * Python values, exceptions and floats                                *)
(* ===================================================================== *)

(** An exception object: its class and [str(e)]. *)
Record exn := mk_exn { exn_class : str; exn_text : str }.

(** The outcome of a computation that may raise. *)
Inductive result (A : Type) : Type :=
| Ok (a : A)
| Raise (e : exn).
Arguments Ok {A} a.
Arguments Raise {A} e.

Definition rbind {A B} (r : result A) (f : A -> result B) : result B :=
  match r with
  | Ok a => f a
  | Raise e => Raise e
  end.

Notation "'let?' x ':=' r 'in' k" := (rbind r (fun x => k))
  (at level 10, x name, r at level 100, k at level 200).

Definition TypeError (msg : str) : exn := mk_exn (lit "TypeError") msg.
Definition ValueError (msg : str) : exn := mk_exn (lit "ValueError") msg.
Definition KeyError (msg : str) : exn := mk_exn (lit "KeyError") msg.
Definition AttributeError (msg : str) : exn := mk_exn (lit "AttributeError") msg.
Definition OverflowError (msg : str) : exn := mk_exn (lit "OverflowError") msg.

Module PyFloat.

(** binary64 *)
Definition prec : Z := 53.
Definition emax : Z := 1024.

Definition is_finite (x : spec_float) : bool :=
  match x with
  | S754_zero _ | S754_finite _ _ _ => true
  | _ => false
  end.

(** The double nearest to an integer (ties to even), infinite when the
    integer is out of range. *)
Definition of_Z (z : Z) : spec_float := binary_normalize prec emax z 0 false.

(** [float(z)] for a Python [int]: as [of_Z], but an integer out of
    range raises. *)
Definition of_int (z : Z) : result spec_float :=
  let x := of_Z z in
  if is_finite x then Ok x
  else Raise (OverflowError (lit "int too large to convert to float")).

Definition div : spec_float -> spec_float -> spec_float := SFdiv prec emax.
Definition mul : spec_float -> spec_float -> spec_float := SFmul prec emax.
Definition abs : spec_float -> spec_float := SFabs.
(** [x >= y] *)
Definition geb (x y : spec_float) : bool := SFleb y x.

(** The literals [1e12], [1e9], [1e6] and [100.0] are integers below
    2^53, hence exact. *)
Definition f1e12 : spec_float := Eval vm_compute in of_Z (10 ^ 12).
Definition f1e9 : spec_float := Eval vm_compute in of_Z (10 ^ 9).
Definition f1e6 : spec_float := Eval vm_compute in of_Z (10 ^ 6).
Definition f100 : spec_float := Eval vm_compute in of_Z 100.

(** [n / d] rounded to the nearest integer, ties to even
    ([0 <= n], [0 < d]). *)
Definition round_half_even (n d : Z) : Z :=
  let q := n / d in
  match 2 * (n mod d) ?= d with
  | Lt => q
  | Gt => q + 1
  | Eq => if Z.even q then q else q + 1
  end.

(** [|x| * 100] rounded to an integer, for [|x| = m * 2^e]: the digits
    that the correctly rounded conversion of [format(x, ".2f")]
    prints. *)
Definition hundredths (m : positive) (e : Z) : Z :=
  if 0 <=? e then Zpos m * 100 * 2 ^ e
  else round_half_even (Zpos m * 100) (2 ^ (- e)).

(** Thousands separators of the [,] option: a comma before every group
    of three digits, counted from the right. *)
Fixpoint group3_rev (ds : str) (k : nat) : str :=
  match ds with
  | [] => []
  | d :: ds' =>
      match k with
      | 3%nat => 44%N :: d :: group3_rev ds' 1
      | _ => d :: group3_rev ds' (S k)
      end
  end.

Definition group3 (ds : str) : str := rev (group3_rev (rev ds) 0).

Definition two_digits (n : Z) : str :=
  [(48 + Z.to_N (n / 10))%N; (48 + Z.to_N (n mod 10))%N].

(** sign, integer part, point, two decimals *)
Definition fixed2 (grouped neg : bool) (h : Z) : str :=
  (if neg then lit "-" else []) ++
  (let ds := str_of_N (Z.to_N (h / 100)) in if grouped then group3 ds else ds) ++
  lit "." ++ two_digits (h mod 100).

(** [format(x, ".2f")], and [format(x, ",.2f")] when [grouped]. *)
Definition format_2f (grouped : bool) (x : spec_float) : str :=
  match x with
  | S754_zero s => fixed2 grouped s 0
  | S754_finite s m e => fixed2 grouped s (hundredths m e)
  | S754_infinity s => if s then lit "-inf" else lit "inf"
  | S754_nan => lit "nan"
  end.

(** [format(z, ",")] for a Python [int]. *)
Definition format_int_grouped (z : Z) : str :=
  match z with
  | Zneg p => 45%N :: group3 (str_of_N (Npos p))
  | _ => group3 (str_of_N (Z.to_N z))
  end.

End PyFloat.

(** The values found in the provider's records. *)
Inductive pyval :=
| PNone
| PInt (z : Z)
| PFloat (x : spec_float)
| PStr (s : str).

(** [bool(v)] *)
Definition truthy (v : pyval) : bool :=
  match v with
  | PNone => false
  | PInt z => negb (z =? 0)
  | PFloat (S754_zero _) => false
  | PFloat _ => true
  | PStr [] => false
  | PStr _ => true
  end.

(** [a or b] *)
Definition py_or (a b : pyval) : pyval := if truthy a then a else b.

(** [str(v)], which is also what an f-string field without format
    specification shows. *)
Definition py_str (R : Runtime) (v : pyval) : str :=
  match v with
  | PNone => lit "None"
  | PInt z => str_of_Z z
  | PFloat x => float_repr R x
  | PStr s => s
  end.

(** [type(v).__name__] *)
Definition type_name (v : pyval) : str :=
  match v with
  | PNone => lit "NoneType"
  | PInt _ => lit "int"
  | PFloat _ => lit "float"
  | PStr _ => lit "str"
  end.

(** A [dict] with string keys. *)
Abbreviation dict := (gmap str pyval).

(** [d.get(k)] *)
Definition dict_get (d : dict) (k : str) : pyval := default PNone (d !! k).
(** [d.get(k, dflt)] *)
Definition dict_get_or (d : dict) (k : str) (dflt : pyval) : pyval := default dflt (d !! k).

(* ===================================================================== *)
(** * The outside world                                                   *)
(* ===================================================================== *)

(** One entry of the conversation log. *)
Record message := mk_message { role : str; content : str }.

(** The arguments of [client.chat.completions.create]. *)
Record chat_request := mk_chat_request {
  model : str;
  messages : list message;
  max_tokens : Z;
  temperature : spec_float
}.

(** A cell of a data frame. *)
Inductive cell :=
| CDate (day : Z)
| CNum (x : spec_float)
| CInt (z : Z).

(** A [pandas.DataFrame]: a named index and named columns, every column
    as long as the index. *)
Record DataFrame := mk_frame {
  index_name : option str;
  index : list cell;
  columns : list (str * list cell)
}.

(** One day of the provider's price series. *)
Record price_row := mk_row {
  row_date : Z;
  row_open : spec_float;
  row_high : spec_float;
  row_low : spec_float;
  row_close : spec_float;
  row_volume : Z
}.

(** The frame in which the provider hands over a price series: the dates
    are the index, named ["Date"], and the prices are the columns. *)
Definition frame_of_rows (rows : list price_row) : DataFrame :=
  {| index_name := Some (lit "Date");
     index := map (fun r => CDate (row_date r)) rows;
     columns := [ (lit "Open", map (fun r => CNum (row_open r)) rows);
                  (lit "High", map (fun r => CNum (row_high r)) rows);
                  (lit "Low", map (fun r => CNum (row_low r)) rows);
                  (lit "Close", map (fun r => CNum (row_close r)) rows);
                  (lit "Volume", map (fun r => CInt (row_volume r)) rows) ] |}.

(** One candidate of the provider's search, a record that may lack its
    ["symbol"] key. *)
Record quote := mk_quote { symbol : option str }.

(** One headline of the provider: a record of text fields. *)
Abbreviation news_item := (gmap str str).

(** The external collaborators.  Each field is the outcome of one call,
    for every argument: a value or an exception. *)
Record World := {
  runtime :> Runtime;
  (** [traceback.format_exc()] while the exception is being handled *)
  format_exc : exn -> str;
  (** [yf.search(q)]: the ["quotes"] list of the answer, [None] when the
      answer is empty or has no such key *)
  yf_search : str -> result (option (list quote));
  (** [yf.Ticker(sym).info], which may be [None] *)
  yf_info : str -> result (option dict);
  (** [yf.Ticker(sym).history(period=.., interval=..)]: the rows of the
      frame, [None] when no frame comes back *)
  yf_history : str -> str -> str -> result (option (list price_row));
  (** [stock = yf.Ticker(sym)], then the lookup of [stock.news]: [Raise e]
      when building the object raises, [Ok r] when it is built, [r]
      being what the lookup of the attribute does ([Ok None] when the
      attribute holds [None]) *)
  ticker_news : str -> result (result (option (list news_item)));
  (** [isinstance(e, AttributeError)]: the class of [e] is AttributeError
      or derives from it *)
  attribute_error : exn -> bool;
  (** [OpenAI(api_key=key)] *)
  new_client : str -> result unit;
  (** [client.chat.completions.create(..).choices[0].message.content] *)
  chat_create : chat_request -> result str
}.

(** [getattr(obj, name, None)], from what the lookup of the attribute
    does: an AttributeError of the lookup, whether the attribute is
    missing or its property raises one, gives the default; any other
    exception goes through. *)
Definition getattr_or_none {A} (W : World) (lookup : result (option A))
    : result (option A) :=
  match lookup with
  | Ok a => Ok a
  | Raise e => if attribute_error W e then Ok None else Raise e
  end.

(** [getattr(yf.Ticker(sym), "news", None)] *)
Definition yf_news (W : World) (sym : str) : result (option (list news_item)) :=
  let? lookup := ticker_news W sym in
  getattr_or_none W lookup.
Arguments yf_news : simpl never.

(** What a run does that can be observed from outside. *)
Inductive event :=
| CallSearch (q : str)
| CallInfo (sym : str)
| CallHistory (sym period interval : str)
| CallNews (sym : str)
| CallChat (req : chat_request)
| Print (line : str)
| UiTitle (text : str)
| UiChatMessage (role content : str)
| UiSpinner (text : str)
| UiWarning (text : str)
| UiInfo (text : str)
| UiError (text : str)
| UiMarkdown (text : str)
| UiSubheader (text : str)
| UiMetric (label value : str)
| UiLineChart (dates close : list cell).

(** ** Computations that log events and may raise *)

Definition M (A : Type) : Type := (list event * result A)%type.

Definition ret {A} (a : A) : M A := ([], Ok a).

Definition bind {A B} (m : M A) (f : A -> M B) : M B :=
  match m with
  | (tr, Ok a) => let (tr', r) := f a in (tr ++ tr', r)
  | (tr, Raise e) => (tr, Raise e)
  end.

Notation "'let*' x ':=' m 'in' k" := (bind m (fun x => k))
  (at level 10, x name, m at level 100, k at level 200).

(** An observable action without result. *)
Definition emit (e : event) : M unit := ([e], Ok tt).
(** A call to a collaborator, logged with its outcome. *)
Definition call {A} (e : event) (r : result A) : M A := ([e], r).
(** A pure step that may raise. *)
Definition lift {A} (r : result A) : M A := ([], r).
Definition raise {A} (e : exn) : M A := ([], Raise e).

(** [try: body  except Exception as e: handler e] *)
Definition try_except {A} (body : M A) (handler : exn -> M A) : M A :=
  match body with
  | (tr, Ok a) => (tr, Ok a)
  | (tr, Raise e) => let (tr', r) := handler e in (tr ++ tr', r)
  end.

Definition trace {A} (m : M A) : list event := fst m.
Definition outcome {A} (m : M A) : result A := snd m.

(* ===================================================================== *)
(** * utils.py: the market-data client                                    *)
(* ===================================================================== *)

Section Utils.

Variable W : World.

(** [seq[:n]] for any integer [n]: a negative bound counts from the
    end. *)
Definition slice_to {A} (l : list A) (n : Z) : list A :=
  if 0 <=? n then firstn (Z.to_nat n) l
  else firstn (length l - Z.to_nat (- n)) l.

(** [v[:n]] on a value: only text can be sliced. *)
Definition subscript_to (v : pyval) (n : Z) : result str :=
  match v with
  | PStr s => Ok (slice_to s n)
  | _ => Raise (TypeError (lit "'" ++ type_name v ++ lit "' object is not subscriptable"))
  end.

(** [len(v)] *)
Definition py_len (v : pyval) : result Z :=
  match v with
  | PStr s => Ok (Z.of_nat (length s))
  | _ => Raise (TypeError (lit "object of type '" ++ type_name v ++ lit "' has no len()"))
  end.

(** [x / 1e12] and the like, for a number [x] and a float literal. *)
Definition truediv (v : pyval) (d : spec_float) : result spec_float :=
  match v with
  | PInt z => let? x := PyFloat.of_int z in Ok (PyFloat.div x d)
  | PFloat x => Ok (PyFloat.div x d)
  | _ => Raise (TypeError (lit "unsupported operand type(s) for /: '" ++ type_name v
                           ++ lit "' and 'float'"))
  end.

(** [format(v, ".2f")], and [format(v, ",.2f")] when [grouped]. *)
Definition py_format_2f (grouped : bool) (v : pyval) : result str :=
  match v with
  | PInt z => let? x := PyFloat.of_int z in Ok (PyFloat.format_2f grouped x)
  | PFloat x => Ok (PyFloat.format_2f grouped x)
  | PStr _ => Raise (ValueError (lit "Unknown format code 'f' for object of type 'str'"))
  | PNone => Raise (TypeError (lit "unsupported format string passed to NoneType.__format__"))
  end.

(** [abs(x) >= t] for a number [x] and a float literal [t] whose value
    is the integer [tz]; Python compares an [int] with a [float]
    exactly. *)
Definition abs_geb (v : pyval) (t : spec_float) (tz : Z) : bool :=
  match v with
  | PInt z => tz <=? Z.abs z
  | PFloat x => PyFloat.geb (PyFloat.abs x) t
  | _ => false
  end.

(** The local function [fmt] of [get_stock_info]. *)
Definition fmt (x : pyval) : result str :=
  match x with
  | PNone => Ok (lit "N/A")
  | PInt _ | PFloat _ =>
      if abs_geb x PyFloat.f1e12 (10 ^ 12) then
        let? q := truediv x PyFloat.f1e12 in
        Ok (lit "$" ++ PyFloat.format_2f false q ++ lit "T")
      else if abs_geb x PyFloat.f1e9 (10 ^ 9) then
        let? q := truediv x PyFloat.f1e9 in
        Ok (lit "$" ++ PyFloat.format_2f false q ++ lit "B")
      else if abs_geb x PyFloat.f1e6 (10 ^ 6) then
        let? q := truediv x PyFloat.f1e6 in
        Ok (lit "$" ++ PyFloat.format_2f false q ++ lit "M")
      else
        let? s := py_format_2f false x in
        Ok (lit "$" ++ s)
  | PStr s => Ok s
  end.

(** [info.get(..)] on the record of the second lookup, which is used
    as it comes: [None] has no [get]. *)
Definition info_dict (info : option dict) : result dict :=
  match info with
  | Some d => Ok d
  | None => Raise (AttributeError (lit "'NoneType' object has no attribute 'get'"))
  end.

(** [search_results['quotes'][0]['symbol']] *)
Definition quote_symbol (q : quote) : result str :=
  match symbol q with
  | Some s => Ok s
  | None => Raise (KeyError (lit "'symbol'"))
  end.

(** The body of [get_stock_info], inside its [try]. *)
Definition get_stock_info_body (query : str) : M str :=
  (* Try as ticker first *)
  let* info0 := call (CallInfo (str_upper W query)) (yf_info W (str_upper W query)) in
  let info1 : option dict := Some (default ∅ info0) in
  (* If ticker not found, try searching by company name *)
  let* info :=
    (if decide (is_Some (default ∅ info0 !! lit "shortName")) then ret info1
     else
       let* search_results := call (CallSearch query) (yf_search W query) in
       match search_results with
       | Some (q :: _) =>
           let* best_match := lift (quote_symbol q) in
           call (CallInfo best_match) (yf_info W best_match)
       | _ => ret info1
       end) in
  let* info := lift (info_dict info) in
  let name := py_or (py_or (dict_get info (lit "longName"))
                           (dict_get info (lit "shortName"))) (PStr query) in
  let current_price := dict_get info (lit "currentPrice") in
  let market_cap := dict_get info (lit "marketCap") in
  let summary := dict_get_or info (lit "longBusinessSummary") (PStr []) in
  let sector := dict_get_or info (lit "sector") (PStr (lit "N/A")) in
  let industry := dict_get_or info (lit "industry") (PStr (lit "N/A")) in
  let sym := dict_get_or info (lit "symbol") (PStr (str_upper W query)) in
  let* price_s := lift (fmt current_price) in
  let* cap_s := lift (fmt market_cap) in
  let* head := lift (subscript_to summary 1500) in
  let* n := lift (py_len summary) in
  let lines := [
    lit "**" ++ py_str W name ++ lit " (" ++ py_str W sym ++ lit ")**";
    lit "Sector: " ++ py_str W sector ++ lit " • Industry: " ++ py_str W industry;
    lit "Price: " ++ price_s;
    lit "Market Cap: " ++ cap_s;
    [];
    lit "Summary:";
    head ++ (if 1500 <? n then lit "..." else [])
  ] in
  ret (join [10%N] lines).

Definition get_stock_info (query : str) : M str :=
  try_except (get_stock_info_body query)
    (fun e => ret (lit "Couldn't fetch info for '" ++ query ++ lit "'. Error: "
                   ++ exn_text e)).

(** [df.empty]: some axis has length 0. *)
Definition df_empty (df : DataFrame) : bool :=
  match index df, columns df with
  | [], _ => true
  | _, [] => true
  | _, _ => false
  end.

Definition column_names (df : DataFrame) : list str := map fst (columns df).

Definition mem_str (x : str) (l : list str) : bool := bool_decide (x ∈ l).

(** The label under which [reset_index] stores an index. *)
Definition index_label (df : DataFrame) : str :=
  match index_name df with
  | Some n => n
  | None => if mem_str (lit "index") (column_names df) then lit "level_0" else lit "index"
  end.

(** [df.reset_index()] with its default arguments.  pandas is not part
    of the repository; this follows its documentation: the index
    becomes the first column, under its own name, the frame gets a new
    index 0, 1, 2, ..., and a column of that name already there is an
    error. *)
Definition reset_index (df : DataFrame) : result DataFrame :=
  let label := index_label df in
  if mem_str label (column_names df)
  then Raise (ValueError (lit "cannot insert " ++ label ++ lit ", already exists"))
  else Ok {| index_name := None;
             index := map (fun i => CInt (Z.of_nat i)) (seq 0 (length (index df)));
             columns := (label, index df) :: columns df |}.

Definition get_stock_history (ticker period interval : str) : M (option DataFrame) :=
  try_except
    (let* df := call (CallHistory ticker period interval)
                     (yf_history W ticker period interval) in
     match df with
     | None => ret None
     | Some rows =>
         let df := frame_of_rows rows in
         if df_empty df then ret None
         else
           let* df := lift (reset_index df) in
           ret (Some df)
     end)
    (fun _ => ret None).

(** One entry of the list of headlines. *)
Definition format_news_item (i : nat) (n : news_item) : str :=
  let title := default (lit "No title") (n !! lit "title") in
  let publisher := default (lit "Unknown") (n !! lit "publisher") in
  let link := default [] (n !! lit "link") in
  let title := if (300 <? length title)%nat then firstn 297 title ++ lit "..." else title in
  str_of_N (N.of_nat i) ++ lit ". **" ++ title ++ lit "**  " ++ [10%N]
    ++ lit "Source: " ++ publisher ++ lit "  " ++ [10%N] ++ link.

(** [[f(i, n) for i, n in enumerate(items, start=i0)]] *)
Fixpoint enumerate_map {A B} (f : nat -> A -> B) (i0 : nat) (items : list A) : list B :=
  match items with
  | [] => []
  | n :: rest => f i0 n :: enumerate_map f (S i0) rest
  end.

Definition get_latest_news (ticker : str) (count : Z) : M str :=
  try_except
    (let* news := call (CallNews ticker) (yf_news W ticker) in
     let news := default [] news in
     match news with
     | [] => ret (lit "No recent news found.")
     | _ =>
         let formatted := enumerate_map format_news_item 1 (slice_to news count) in
         ret (join [10%N; 10%N] formatted)
     end)
    (fun e => ret (lit "Error fetching news: " ++ exn_text e)).

End Utils.

(* ===================================================================== *)
(** * config.py                                                           *)
(* ===================================================================== *)

Module Config.

(** The variables of the process, and of the [.env] file if there is
    one. *)
Abbreviation environ := (gmap str str).

(** [load_dotenv()].  python-dotenv is not part of the repository; this
    follows its documentation: every variable of the file that the
    process does not define yet is added to the environment, and the
    result tells whether the file held any variable. *)
Definition load_dotenv (env : environ) (dotenv : option environ) : bool * environ :=
  match dotenv with
  | Some file => (negb (bool_decide (file = ∅)), env ∪ file)
  | None => (false, env)
  end.

Definition missing_key_message : str :=
  lit "🚨 OPENAI_API_KEY not found." ++ [10%N] ++
  lit "👉 Create a .env file in your project root with the line:" ++ [10%N] ++
  lit "OPENAI_API_KEY=sk-your_real_openai_api_key_here".

(** The module body: it yields the value bound to [OPENAI_API_KEY], or
    raises. *)
Definition config (env : environ) (dotenv : option environ) : M str :=
  let (env_loaded, env) := load_dotenv env dotenv in
  let* _ := (if env_loaded then ret tt
             else emit (Print (lit "⚠️ Warning: .env file not found. Make sure it exists in the project root."))) in
  match env !! lit "OPENAI_API_KEY" with
  | Some (c :: key) =>
      let OPENAI_API_KEY := c :: key in
      let* _ := emit (Print (lit "✅ OPENAI_API_KEY successfully loaded.")) in
      let* _ := emit (Print (lit "🔑 Starts with: " ++ firstn 4 OPENAI_API_KEY ++ lit "****")) in
      ret OPENAI_API_KEY
  | _ => raise (ValueError missing_key_message)
  end.

End Config.

(* ===================================================================== *)
(** * app.py                                                              *)
(* ===================================================================== *)

Section App.

Variable W : World.

(** [bool(s)] for text, and for text that may be [None]. *)
Definition str_truthy (s : str) : bool :=
  match s with [] => false | _ => true end.
Definition opt_truthy (o : option str) : bool :=
  match o with Some s => str_truthy s | None => false end.

Definition resolution_warning : str :=
  lit "❌ Could not resolve any stock symbol from input.".

(** Lines 52 to 62: the extractor, then the provider's search on the
    whole input. *)
Definition resolve (user_input : str) : M (option str) :=
  let ticker := extract_ticker_from_text W user_input in
  let resolved_ticker := ticker in
  if opt_truthy ticker then ret resolved_ticker
  else
    try_except
      (let* search_results := call (CallSearch user_input) (yf_search W user_input) in
       match search_results with
       | Some (q :: _) =>
           let* s := lift (quote_symbol q) in
           ret (Some s)
       | _ => ret resolved_ticker
       end)
      (fun _ => ret None).

(** The three variables that the fetches fill. *)
Record fetched := mk_fetched {
  stock_data : option str;
  history_df : option DataFrame;
  news_md : option str
}.

(** Lines 64 to 79.  One [try] covers the three fetches; an exception
    leaves the variables assigned so far, which the nested handlers
    spell out. *)
Definition fetch (resolved_ticker : option str) : M fetched :=
  match resolved_ticker with
  | Some (c :: t) =>
      let sym := c :: t in
      let warn (st : fetched) (e : exn) : M fetched :=
        let* _ := emit (UiWarning (lit "Couldn't fetch full data: " ++ exn_text e)) in
        ret st in
      let* _ := emit (UiSpinner (lit "Fetching data for " ++ sym ++ lit "...")) in
      try_except
        (let* info := get_stock_info W sym in
         try_except
           (let* df := get_stock_history W sym (lit "1y") (lit "1d") in
            try_except
              (let* news := get_latest_news W sym 5 in
               ret (mk_fetched (Some info) df (Some news)))
              (warn (mk_fetched (Some info) df None)))
           (warn (mk_fetched (Some info) None None)))
        (warn (mk_fetched None None None))
  | _ =>
      let* _ := emit (UiWarning resolution_warning) in
      ret (mk_fetched None None None)
  end.

(** Lines 82 to 91. *)
Definition build_prompt (user_input : str) (resolved_ticker : option str)
    (data : fetched) : str :=
  let prompt :=
    lit "You are a helpful and careful financial assistant. Be explicit about what is an "
    ++ lit "opinion vs fact. Don't give trading advice (no 'buy' or 'sell' calls). "
    ++ lit "When uncertain, say 'I don't know' and recommend the user verify facts."
    ++ [10%N; 10%N]
    ++ lit "User question: " ++ user_input ++ [10%N; 10%N] in
  let sym := default [] resolved_ticker in
  let prompt :=
    if opt_truthy resolved_ticker && opt_truthy (stock_data data)
    then prompt ++ lit "Live company summary for " ++ sym ++ lit ":" ++ [10%N]
                ++ default [] (stock_data data) ++ [10%N; 10%N]
    else prompt in
  if opt_truthy resolved_ticker && opt_truthy (news_md data)
  then prompt ++ lit "Recent headlines for " ++ sym ++ lit ":" ++ [10%N]
              ++ default [] (news_md data) ++ [10%N; 10%N]
  else prompt.

(** The literal [0.2]: the double nearest to two tenths. *)
Definition f0_2 : spec_float :=
  Eval vm_compute in PyFloat.div (PyFloat.of_Z 2) (PyFloat.of_Z 10).

Definition primary_request (prompt : str) : chat_request :=
  {| model := lit "gpt-4o-mini";
     messages := [ mk_message (lit "system") (lit "You are an expert stock assistant.");
                   mk_message (lit "user") prompt ];
     max_tokens := 500;
     temperature := f0_2 |}.

(** Lines 94 to 106. *)
Definition ask_assistant (prompt : str) : M str :=
  try_except
    (call (CallChat (primary_request prompt)) (chat_create W (primary_request prompt)))
    (fun e => ret (lit "⚠️ Error generating response from OpenAI: " ++ exn_text e
                   ++ [10%N; 10%N] ++ format_exc W e)).

(** [x * 100] *)
Definition times100 (x : pyval) : result pyval :=
  match x with
  | PInt z => Ok (PInt (z * 100))
  | PFloat f => Ok (PFloat (PyFloat.mul f PyFloat.f100))
  | PStr s => Ok (PStr (concat (repeat s 100)))
  | PNone => Raise (TypeError (lit "unsupported operand type(s) for *: 'NoneType' and 'int'"))
  end.

(** Lines 134 to 144. *)
Definition safe_fmt (x : pyval) (fallback : str) (is_pct : bool) : str :=
  let body : result str :=
    match x with
    | PNone => Ok fallback
    | _ =>
        if is_pct then
          let? y := times100 x in
          let? s := py_format_2f false y in
          Ok (s ++ lit "%")
        else
          match x with
          | PInt _ | PFloat _ => py_format_2f true x
          | _ => Ok (py_str W x)
          end
    end in
  match body with
  | Ok s => s
  | Raise _ => fallback
  end.

(** [x >= t] for a float literal [t] whose value is the integer [tz]. *)
Definition py_geb (v : pyval) (t : spec_float) (tz : Z) : result bool :=
  match v with
  | PInt z => Ok (tz <=? z)
  | PFloat x => Ok (PyFloat.geb x t)
  | _ => Raise (TypeError (lit "'>=' not supported between instances of '"
                           ++ type_name v ++ lit "' and 'float'"))
  end.

(** [format(v, ",")] *)
Definition format_comma (v : pyval) : result str :=
  match v with
  | PInt z => Ok (PyFloat.format_int_grouped z)
  | PFloat x => Ok (float_comma W x)
  | PStr _ => Raise (ValueError (lit "Cannot specify ',' with 's'."))
  | PNone => Raise (TypeError (lit "unsupported format string passed to NoneType.__format__"))
  end.

(** Lines 148 to 159: the text of the market-cap tile. *)
Definition market_cap_str (market_cap_raw : pyval) : result str :=
  if truthy market_cap_raw then
    let? t := py_geb market_cap_raw PyFloat.f1e12 (10 ^ 12) in
    if t then
      let? q := truediv market_cap_raw PyFloat.f1e12 in
      Ok (lit "$" ++ PyFloat.format_2f false q ++ lit "T")
    else
      let? b := py_geb market_cap_raw PyFloat.f1e9 (10 ^ 9) in
      if b then
        let? q := truediv market_cap_raw PyFloat.f1e9 in
        Ok (lit "$" ++ PyFloat.format_2f false q ++ lit "B")
      else
        let? m := py_geb market_cap_raw PyFloat.f1e6 (10 ^ 6) in
        if m then
          let? q := truediv market_cap_raw PyFloat.f1e6 in
          Ok (lit "$" ++ PyFloat.format_2f false q ++ lit "M")
        else
          let? s := format_comma market_cap_raw in
          Ok (lit "$" ++ s)
  else Ok (lit "N/A").

(** The values of the four tiles, by label. *)
Definition price_tile (info : dict) : str :=
  lit "$" ++ safe_fmt (dict_get info (lit "currentPrice")) (lit "N/A") false.
Definition pe_tile (info : dict) : str :=
  safe_fmt (dict_get info (lit "trailingPE")) (lit "N/A") false.
Definition market_cap_tile (info : dict) : result str :=
  market_cap_str (dict_get info (lit "marketCap")).
Definition dividend_tile (info : dict) : str :=
  safe_fmt (dict_get info (lit "dividendYield")) (lit "0.00%") true.

(** Lines 130 to 161. *)
Definition show_metrics (info : dict) : M unit :=
  let* _ := emit (UiMarkdown (lit "### 📈 Key Financial Metrics")) in
  let* _ := emit (UiMetric (lit "Current Price") (price_tile info)) in
  let* _ := emit (UiMetric (lit "P/E (TTM)") (pe_tile info)) in
  let* cap := lift (market_cap_tile info) in
  let* _ := emit (UiMetric (lit "Market Cap") cap) in
  emit (UiMetric (lit "Dividend Yield") (dividend_tile info)).

(** [df[name]] *)
Fixpoint df_column (cols : list (str * list cell)) (name : str) : result (list cell) :=
  match cols with
  | [] => Raise (KeyError (lit "'" ++ name ++ lit "'"))
  | (n, c) :: rest => if bool_decide (n = name) then Ok c else df_column rest name
  end.

(** Lines 163 to 171. *)
Definition show_chart (history_df : option DataFrame) : M unit :=
  match history_df with
  | Some df =>
      if df_empty df
      then emit (UiInfo (lit "No historical price data available for charting."))
      else
        let* _ := emit (UiMarkdown (lit "### 🕒 Price Chart (last 1 year)")) in
        let* dates := lift (df_column (columns df) (lit "Date")) in
        let* close := lift (df_column (columns df) (lit "Close")) in
        emit (UiLineChart dates close)
  | None => emit (UiInfo (lit "No historical price data available for charting."))
  end.

(** [news_md.lower().startswith(p)] *)
Definition lower_startswith (p : str) (s : str) : bool :=
  startswith p (str_lower W s).

Definition sentiment_request (sym news : str) : chat_request :=
  {| model := lit "gpt-4o-mini";
     messages := [ mk_message (lit "system")
                     (lit "You are a concise financial sentiment analyst.");
                   mk_message (lit "user")
                     (lit "You're a financial sentiment analyst. Given the following news headlines for "
                      ++ sym ++ lit ", "
                      ++ lit "reply in one short paragraph labeling the overall sentiment as Positive, Neutral, or Negative, "
                      ++ lit "then provide 1-2 bullet points explaining why (very concise). Do NOT give trading advice."
                      ++ [10%N; 10%N] ++ news ++ [10%N; 10%N] ++ lit "Sentiment:") ];
     max_tokens := 200;
     temperature := S754_zero false |}.

(** Lines 173 to 203. *)
Definition show_news (sym : str) (news_md : option str) : M unit :=
  let* _ := emit (UiMarkdown (lit "### 🗞️ Latest News")) in
  let news := default [] news_md in
  let* _ :=
    (if opt_truthy news_md && negb (lower_startswith (lit "error") news)
     then emit (UiMarkdown news)
     else emit (UiInfo (lit "No news found or an error occurred fetching news."))) in
  if opt_truthy news_md && negb (lower_startswith (lit "no recent news") news)
     && negb (lower_startswith (lit "error") news)
  then
    let* _ := emit (UiSpinner (lit "Analyzing news sentiment with AI...")) in
    try_except
      (let* sentiment_result :=
         call (CallChat (sentiment_request sym news))
              (chat_create W (sentiment_request sym news)) in
       let* _ := emit (UiMarkdown (lit "**🧠 Sentiment analysis (AI):**")) in
       emit (UiMarkdown sentiment_result))
      (fun e => emit (UiWarning (lit "Could not run sentiment analysis: " ++ exn_text e)))
  else ret tt.

(** Lines 113 to 203: the data shown under the reply. *)
Definition show_ticker_data (resolved_ticker : option str) (data : fetched) : M unit :=
  match resolved_ticker with
  | Some (c :: t) =>
      let sym := c :: t in
      let* _ := emit (UiMarkdown (lit "---")) in
      let* _ := emit (UiSubheader (lit "Data for " ++ sym)) in
      let* _ :=
        (if opt_truthy (stock_data data)
         then emit (UiMarkdown (default [] (stock_data data)))
         else emit (UiInfo (lit "No summary available."))) in
      let* info :=
        try_except
          (let* info := call (CallInfo sym) (yf_info W sym) in
           ret (default ∅ info))
          (fun _ => ret ∅) in
      let* _ := show_metrics info in
      let* _ := show_chart (history_df data) in
      show_news sym (news_md data)
  | _ => ret tt
  end.

Definition user_message (user_input : str) : message :=
  mk_message (lit "user") user_input.
Definition assistant_message (ai_response : str) : message :=
  mk_message (lit "assistant") ai_response.

(** Lines 51 to 106: everything between the two appends to the log.  It
    yields the resolved symbol, the fetched data and the reply. *)
Definition answer (user_input : str) : M (option str * fetched * str) :=
  let* resolved_ticker := resolve user_input in
  let* data := fetch resolved_ticker in
  let prompt := build_prompt user_input resolved_ticker data in
  let* ai_response := ask_assistant prompt in
  ret (resolved_ticker, data, ai_response).

(** Lines 45 to 203: one turn on a non-empty input.  The first
    component is [st.session_state.messages] when the run ends, the
    second what the run did and whether it ended on an uncaught
    exception. *)
Definition handle_turn (log : list message) (user_input : str)
    : list message * M unit :=
  (* Append user message *)
  let log := log ++ [user_message user_input] in
  let shown := emit (UiChatMessage (lit "user") user_input) in
  match bind shown (fun _ => answer user_input) with
  | (tr, Raise e) => (log, (tr, Raise e))
  | (tr, Ok (resolved_ticker, data, ai_response)) =>
      (* Append AI response to chat *)
      let log := log ++ [assistant_message ai_response] in
      (log,
       bind (tr, Ok tt) (fun _ =>
         let* _ := emit (UiChatMessage (lit "assistant") ai_response) in
         show_ticker_data resolved_ticker data))
  end.

Definition greeting : message :=
  assistant_message
    (lit "Hi! I’m StockGPT. Ask me about any stock ticker (e.g., AAPL, TSLA, INFY) or market trend 📊").

(** [for msg in st.session_state.messages: ...] *)
Fixpoint show_messages (log : list message) : M unit :=
  match log with
  | [] => ret tt
  | msg :: rest =>
      let* _ := emit (UiChatMessage (role msg) (content msg)) in
      show_messages rest
  end.

(** Lines 28 to 203: one run of the script, on the session state that
    the previous runs left ([None] on the first run) and the text that
    the input widget returns ([None] when nothing was submitted). *)
Definition run_script (session : option (list message)) (user_input : option str)
    : list message * M unit :=
  let log := default [greeting] session in
  match user_input with
  | Some (c :: s) =>
      let (log', m) := handle_turn log (c :: s) in
      (log', bind (show_messages log) (fun _ => m))
  | _ => (log, show_messages log)
  end.

(** Lines 17 to 203, with [OPENAI_API_KEY] bound: the page is set up,
    the client is created, then the script runs.  The first component is
    the session state afterwards. *)
Definition main (OPENAI_API_KEY : str) (session : option (list message))
    (user_input : option str) : option (list message) * M unit :=
  let init : M unit :=
    emit (UiTitle (lit "📈 StockGPT – AI Stock Chat Assistant")) in
  match new_client W OPENAI_API_KEY with
  | Raise e =>
      (* st.error(..); st.stop() *)
      (session,
       bind init (fun _ =>
         emit (UiError (lit "⚠️ Error initializing OpenAI client: " ++ exn_text e))))
  | Ok _ =>
      let (log, m) := run_script session user_input in
      (Some log, bind init (fun _ => m))
  end.

(** The whole of [app.py] in a run that executes [config.py]: the first
    run of a process, and every run after an import that failed ([config]
    is imported first; when it raises, the run ends there and the module
    is not kept).  The first component is the session state afterwards. *)
Definition app (env : Config.environ) (dotenv : option Config.environ)
    (session : option (list message)) (user_input : option str)
    : option (list message) * M unit :=
  match Config.config env dotenv with
  | (tr, Raise e) => (session, (tr, Raise e))
  | (tr, Ok OPENAI_API_KEY) =>
      let (session', m) := main OPENAI_API_KEY session user_input in
      (session', bind (tr, Ok tt) (fun _ => m))
  end.

(** What a process keeps from one run of the script to the next: the key
    that [config] bound when it was imported ([sys.modules] holds the
    module from then on), and the session state. *)
Record process := mk_process {
  config_module : option str;
  session_state : option (list message)
}.

(** One run of [app.py] in a process.  [from config import OPENAI_API_KEY]
    executes [config.py] only while the process has not imported it;
    afterwards the name comes from the module that is kept, and nothing of
    [config.py] runs again. *)
Definition run (env : Config.environ) (dotenv : option Config.environ)
    (P : process) (user_input : option str) : process * M unit :=
  match config_module P with
  | Some OPENAI_API_KEY =>
      let (session, m) := main OPENAI_API_KEY (session_state P) user_input in
      (mk_process (Some OPENAI_API_KEY) session, m)
  | None =>
      let (session, m) := app env dotenv (session_state P) user_input in
      let imported :=
        match outcome (Config.config env dotenv) with
        | Ok OPENAI_API_KEY => Some OPENAI_API_KEY
        | Raise _ => None
        end in
      (mk_process imported session, m)
  end.

End App.

(* ===================================================================== *)
(** * The vocabulary of the specification                                 *)
(* ===================================================================== *)

(** [text] holds, at offset [i], a dollar sign followed by the capitals
    [xs] (between one and five of them), and the character after them,
    if any, is not a word character. *)
Definition dollar_ticker_at (R : Runtime) (text : str) (i : nat) (xs : str) : Prop :=
  exists pre rest,
    text = pre ++ 36%N :: xs ++ rest /\
    length pre = i /\
    forallb is_upper xs = true /\
    (1 <= length xs <= 5)%nat /\
    word_of R (head rest) = false.

(** A computation that ends without an uncaught exception. *)
Definition returns {A} (m : M A) : Prop := exists a, outcome m = Ok a.

(** The text that [get_stock_info] builds from a record: a headline with
    name and symbol, sector and industry, price, market cap, and the
    business summary cut to its budget. *)
Definition is_profile_summary (s : str) : Prop :=
  exists name sym sector industry price cap summary,
    s = join [10%N]
          [ lit "**" ++ name ++ lit " (" ++ sym ++ lit ")**";
            lit "Sector: " ++ sector ++ lit " • Industry: " ++ industry;
            lit "Price: " ++ price;
            lit "Market Cap: " ++ cap;
            [];
            lit "Summary:";
            summary ] /\
    (length summary <= 1503)%nat.

(** The text that [get_stock_info] returns for the exception [e]. *)
Definition fetch_error (query : str) (e : exn) : str :=
  lit "Couldn't fetch info for '" ++ query ++ lit "'. Error: " ++ exn_text e.

(** The fields of a headline as [get_latest_news] reads them. *)
Definition news_title (n : news_item) : str := default (lit "No title") (n !! lit "title").
Definition news_publisher (n : news_item) : str := default (lit "Unknown") (n !! lit "publisher").
Definition news_link (n : news_item) : str := default [] (n !! lit "link").

(** [shown] is [title] within the budget of 300 characters: the title
    itself, or its first 297 characters and an ellipsis. *)
Definition title_within_budget (title shown : str) : Prop :=
  ((length title <= 300)%nat -> shown = title) /\
  ((300 < length title)%nat -> shown = firstn 297 title ++ lit "...") /\
  (length shown <= 300)%nat.

(** The text that [get_latest_news] returns for the exception [e]. *)
Definition news_error (e : exn) : str := lit "Error fetching news: " ++ exn_text e.

(* ===================================================================== *)
(** * Scenarios                                                           *)
(* ===================================================================== *)

(** Concrete worlds on which the definitions can be run. *)
Module Scenario.

Definition connection_error : exn :=
  mk_exn (lit "ConnectionError") (lit "provider unreachable").

(** A world from the answers of its collaborators; [news] is what
    reading the news attribute of a ticker does. *)
Definition world
    (search : str -> result (option (list quote)))
    (info : str -> result (option dict))
    (history : str -> str -> str -> result (option (list price_row)))
    (news : str -> result (option (list news_item)))
    (chat : chat_request -> result str) : World :=
  {| runtime := ascii_tables;
     format_exc := fun e => lit "Traceback (most recent call last): " ++ exn_class e;
     yf_search := search;
     yf_info := info;
     yf_history := history;
     ticker_news := fun sym => Ok (news sym);
     attribute_error := fun e => bool_decide (exn_class e = lit "AttributeError");
     new_client := fun _ => Ok tt;
     chat_create := chat |}.

(** The provider knows nothing; the assistant answers. *)
Definition quiet : World :=
  world (fun _ => Ok None) (fun _ => Ok None) (fun _ _ _ => Ok None) (fun _ => Ok None)
        (fun _ => Ok (lit "I don't know.")).

(** Every call to the provider and to the assistant raises. *)
Definition offline : World :=
  world (fun _ => Raise connection_error) (fun _ => Raise connection_error)
        (fun _ _ _ => Raise connection_error) (fun _ => Raise connection_error)
        (fun _ => Raise connection_error).

Definition headline (title publisher link : str) : news_item :=
  {[ lit "title" := title; lit "publisher" := publisher; lit "link" := link ]}.

Definition two_headlines : list news_item :=
  [ headline (lit "Apple unveils new chip") (lit "Reuters") (lit "https://example.com/1");
    headline (lit "Apple shares slip") (lit "Bloomberg") (lit "https://example.com/2") ].

Definition two_days : list price_row :=
  [ mk_row 19000 PyFloat.f100 PyFloat.f100 PyFloat.f100 PyFloat.f100 1000;
    mk_row 19001 PyFloat.f100 PyFloat.f100 PyFloat.f100 PyFloat.f100 2000 ].

Definition apple_info : dict :=
  {[ lit "shortName" := PStr (lit "Apple Inc.");
     lit "symbol" := PStr (lit "AAPL");
     lit "marketCap" := PInt 2500000000000 ]}.

(** The provider knows one company, under the symbol AAPL. *)
Definition apple : World :=
  world (fun q => Ok (Some [mk_quote (Some (lit "AAPL"))]))
        (fun sym => if bool_decide (sym = lit "AAPL") then Ok (Some apple_info) else Ok None)
        (fun _ _ _ => Ok (Some two_days))
        (fun _ => Ok (Some two_headlines))
        (fun _ => Ok (lit "Apple is a technology company.")).

(** The exception of a provider whose news property runs into a missing
    record. *)
Definition no_get : exn :=
  AttributeError (lit "'NoneType' object has no attribute 'get'").

(** The provider of [apple], except that reading the news attribute
    raises inside the provider's code. *)
Definition broken_news : World :=
  world (fun q => Ok (Some [mk_quote (Some (lit "AAPL"))]))
        (fun sym => if bool_decide (sym = lit "AAPL") then Ok (Some apple_info) else Ok None)
        (fun _ _ _ => Ok (Some two_days))
        (fun _ => Raise no_get)
        (fun _ => Ok (lit "Apple is a technology company.")).

End Scenario.

(** The abbreviated form of a market cap: dollar sign, the scaled value
    with two decimals, the suffix of the magnitude. *)
Definition abbreviated (q : spec_float) (suffix : str) : str :=
  lit "$" ++ PyFloat.format_2f false q ++ suffix.

(** Calls to the market-data client and to the assistant. *)
Definition is_market_data_call (ev : event) : bool :=
  match ev with
  | CallInfo _ | CallHistory _ _ _ | CallNews _ => true
  | _ => false
  end.

Definition is_chat_call (ev : event) : bool :=
  match ev with
  | CallChat _ => true
  | _ => false
  end.

(** The search of the resolver brings no usable symbol: it raises, it
    has no candidate, or its first candidate has no symbol or an empty
    one. *)
Definition search_fails (W : World) (user_input : str) : bool :=
  match yf_search W user_input with
  | Raise _ | Ok None | Ok (Some []) => true
  | Ok (Some (q :: _)) =>
      match symbol q with
      | None | Some [] => true
      | Some (_ :: _) => false
      end
  end.

(** The reply that takes the place of the assistant's when the call
    raises [e]. *)
Definition error_reply (W : World) (e : exn) : str :=
  lit "⚠️ Error generating response from OpenAI: " ++ exn_text e
    ++ [10%N; 10%N] ++ format_exc W e.

(** [text] holds, at offset [i], the capitals [xs] (between one and five
    of them) between parentheses. *)
Definition paren_ticker_at (text : str) (i : nat) (xs : str) : Prop :=
  exists pre rest,
    text = pre ++ 40%N :: xs ++ 41%N :: rest /\
    length pre = i /\
    forallb is_upper xs = true /\
    (1 <= length xs <= 5)%nat.

(** [t] is a piece of [text]. *)
Definition substring (t text : str) : Prop :=
  exists pre rest, text = pre ++ t ++ rest.

(** The shape of a symbol: between one and five capitals. *)
Definition is_symbol (t : str) : Prop :=
  forallb is_upper t = true /\ (1 <= length t <= 5)%nat.

(** [t] stands in [text] and ends there at a word boundary: the
    character after it, if any, is not a word character. *)
Definition delimited_in (R : Runtime) (t text : str) : Prop :=
  exists pre rest, text = pre ++ t ++ rest /\ word_of R (head rest) = false.

(** The heading of the news block, and what stands for the headlines when
    there are none to show. *)
Definition news_header : event := UiMarkdown (lit "### 🗞️ Latest News").
Definition news_placeholder : event :=
  UiInfo (lit "No news found or an error occurred fetching news.").

(** The heading of the chart, and what stands for the chart when there
    is no history. *)
Definition chart_header : event := UiMarkdown (lit "### 🕒 Price Chart (last 1 year)").
Definition chart_placeholder : event :=
  UiInfo (lit "No historical price data available for charting.").

(** The text that a run handles: an empty submission counts as none. *)
Definition submitted (user_input : option str) : option str :=
  match user_input with
  | Some (c :: s) => Some (c :: s)
  | _ => None
  end.

(** The session state over successive runs of the script, which the
    framework keeps between them.  Every run meets the world as it is
    then. *)
Fixpoint run_session (session : option (list message))
    (runs : list (World * option str)) : option (list message) :=
  match runs with
  | [] => session
  | (W, user_input) :: rest =>
      run_session (Some (fst (run_script W session user_input))) rest
  end.

(** The log of a conversation: the greeting, then for every turn the
    user's text and the assistant's entry. *)
Definition log_of_turns (turns : list (str * str)) : list message :=
  greeting
    :: concat (map (fun t => [user_message (fst t); assistant_message (snd t)]) turns).

(** The lines that [config] may print for the key [key]. *)
Definition config_line (key line : str) : Prop :=
  line = lit "⚠️ Warning: .env file not found. Make sure it exists in the project root." \/
  line = lit "✅ OPENAI_API_KEY successfully loaded." \/
  line = lit "🔑 Starts with: " ++ firstn 4 key ++ lit "****".

(** The character to the left of an offset: the last one of what stands
    before it in the text, or the one before the text. *)
Definition left_of (prev : option char) (pre : str) : option char :=
  match last pre with
  | Some c => Some c
  | None => prev
  end.

(** [s], which comes after the character [prev], holds at offset [i] the
    capitals [xs] (between two and five of them) as a word of their own:
    no word character stands right before or right after them. *)
Definition standalone_after (R : Runtime) (prev : option char) (s : str) (i : nat)
    (xs : str) : Prop :=
  exists pre rest,
    s = pre ++ xs ++ rest /\
    length pre = i /\
    forallb is_upper xs = true /\
    (2 <= length xs <= 5)%nat /\
    word_of R (left_of prev pre) = false /\
    word_of R (head rest) = false.

Definition standalone_at (R : Runtime) (text : str) (i : nat) (xs : str) : Prop :=
  standalone_after R None text i xs.

(** The parts of the primary prompt: the guardrails and the question,
    the company summary, the headlines. *)
Definition prompt_base (user_input : str) : str :=
  lit "You are a helpful and careful financial assistant. Be explicit about what is an "
  ++ lit "opinion vs fact. Don't give trading advice (no 'buy' or 'sell' calls). "
  ++ lit "When uncertain, say 'I don't know' and recommend the user verify facts."
  ++ [10%N; 10%N]
  ++ lit "User question: " ++ user_input ++ [10%N; 10%N].

Definition summary_section (sym text : str) : str :=
  lit "Live company summary for " ++ sym ++ lit ":" ++ [10%N] ++ text ++ [10%N; 10%N].

Definition news_section (sym text : str) : str :=
  lit "Recent headlines for " ++ sym ++ lit ":" ++ [10%N] ++ text ++ [10%N; 10%N].

(** The runs of one process in order, each with the world, the
    environment, the [.env] file and the input of its time: the state of
    the process at the end, and everything the runs did. *)
Fixpoint runs (P : process)
    (l : list (World * Config.environ * option Config.environ * option str))
    : process * list event :=
  match l with
  | [] => (P, [])
  | (W, env, dotenv, user_input) :: rest =>
      let (P', m) := run W env dotenv P user_input in
      let (P'', tr) := runs P' rest in
      (P'', trace m ++ tr)
  end.

(** The lines written to standard output. *)
Fixpoint printed (tr : list event) : list str :=
  match tr with
  | [] => []
  | Print line :: rest => line :: printed rest
  | _ :: rest => printed rest
  end.


(** A computation that writes nothing to standard output. *)
Definition silent {A} (m : M A) : Prop := printed (trace m) = [].

(* ===================================================================== *)
(** * The symbol extractor: rule 1                                        *)
(* ===================================================================== *)

Section ExtractorFacts.

Variable R : Runtime.

Lemma is_upper_word c : is_upper c = true -> is_word R c = true.
Proof.
  unfold is_word, is_ascii, is_upper, in_range. intros H.
  apply andb_prop in H as [H1 H2].
  apply N.leb_le in H1, H2.
  assert (Ha : (c <? 128)%N = true) by (apply N.ltb_lt; lia).
  rewrite Ha. unfold in_range.
  assert (H1' : (65 <=? c)%N = true) by (apply N.leb_le; lia).
  assert (H2' : (c <=? 90)%N = true) by (apply N.leb_le; lia).
  rewrite H1', H2'. reflexivity.
Qed.

Lemma head_not_word_not_upper (rest : str) :
  word_of R (head rest) = false ->
  match rest with c :: _ => is_upper c = false | [] => True end.
Proof.
  destruct rest as [|c rest]; simpl; [trivial|].
  intros H. destruct (is_upper c) eqn:E; [|reflexivity].
  apply is_upper_word in E. congruence.
Qed.

Lemma upper_runs_stop n (rest : str) :
  word_of R (head rest) = false -> upper_runs n rest = [].
Proof.
  intros H. apply head_not_word_not_upper in H.
  destruct n, rest; simpl; try reflexivity. now rewrite H.
Qed.

(** The longest alternative is tried first: when the capitals [xs] end
    at a non-word character, they are the first candidate. *)
Lemma upper_runs_first (xs rest : str) : forall n,
  xs <> [] -> forallb is_upper xs = true -> (length xs <= n)%nat ->
  word_of R (head rest) = false ->
  exists tl, upper_runs n (xs ++ rest) = (xs, rest) :: tl.
Proof.
  induction xs as [|c xs IH]; intros n Hne Hup Hlen Hrest; [congruence|].
  simpl in Hup. apply andb_prop in Hup as [Hc Hxs].
  destruct n as [|k]; simpl in Hlen; [lia|].
  simpl. rewrite Hc.
  destruct xs as [|d xs].
  - simpl. rewrite (upper_runs_stop k rest Hrest). simpl. eauto.
  - destruct (IH k) as [tl Htl]; [congruence|assumption|simpl in *; lia|assumption|].
    rewrite Htl. simpl. eauto.
Qed.

(** Every candidate splits the text after between one and [n]
    capitals. *)
Lemma upper_runs_sound n : forall (s g r : str),
  In (g, r) (upper_runs n s) ->
  s = g ++ r /\ forallb is_upper g = true /\ (1 <= length g <= n)%nat /\
  exists c, last g = Some c /\ is_upper c = true.
Proof.
  induction n as [|k IH]; intros s g r Hin; [destruct s; contradiction|].
  destruct s as [|c s']; [contradiction|].
  simpl in Hin. destruct (is_upper c) eqn:Hc; [|contradiction].
  apply in_app_or in Hin as [Hin|Hin].
  - apply in_map_iff in Hin as [[g' r'] [Heq Hin]].
    simpl in Heq. injection Heq as <- <-.
    destruct (IH _ _ _ Hin) as (-> & Hup & Hlen & c' & Hlast & Hc').
    repeat split; simpl; try lia.
    + now rewrite Hc, Hup.
    + exists c'. split; [|assumption].
      destruct g'; [discriminate|]. exact Hlast.
  - destruct Hin as [Heq|[]]. injection Heq as <- <-.
    repeat split; simpl; try lia.
    + now rewrite Hc.
    + eauto.
Qed.

Lemma group_boundary_complete (xs rest : str) :
  forallb is_upper xs = true -> (1 <= length xs <= 5)%nat ->
  word_of R (head rest) = false ->
  group_boundary R (xs ++ rest) = Some xs.
Proof.
  intros Hup Hlen Hrest.
  assert (Hne : xs <> []) by (destruct xs; simpl in *; [lia|congruence]).
  destruct (upper_runs_first xs rest 5 Hne Hup ltac:(lia) Hrest) as [tl Htl].
  unfold group_boundary. rewrite Htl. simpl.
  assert (Hl : exists c, last xs = Some c /\ is_upper c = true).
  { assert (Hin : In (xs, rest) (upper_runs 5 (xs ++ rest)))
      by (rewrite Htl; now left).
    apply upper_runs_sound in Hin. tauto. }
  destruct Hl as (c & Hlast & Hc). rewrite Hlast.
  unfold boundary. simpl. rewrite (is_upper_word c Hc), Hrest. reflexivity.
Qed.

Lemma group_boundary_sound (s g : str) :
  group_boundary R s = Some g ->
  exists rest, s = g ++ rest /\ forallb is_upper g = true /\
               (1 <= length g <= 5)%nat /\ word_of R (head rest) = false.
Proof.
  unfold group_boundary. intros H.
  destruct (find _ _) as [[g' r]|] eqn:Hf; [|discriminate].
  simpl in H. injection H as ->.
  apply find_some in Hf as [Hin Hb]. simpl in Hb.
  apply upper_runs_sound in Hin as (-> & Hup & Hlen & c & Hlast & Hc).
  exists r. repeat split; try assumption; try lia.
  unfold boundary in Hb. rewrite Hlast in Hb. simpl in Hb.
  rewrite (is_upper_word c Hc) in Hb.
  destruct (word_of R (head r)); [discriminate|reflexivity].
Qed.

(** An occurrence at offset 0 is exactly a match anchored at the head. *)
Lemma dollar_ticker_at_head (c : char) (s xs : str) :
  dollar_ticker_at R (c :: s) 0 xs <->
  c = 36%N /\ group_boundary R s = Some xs.
Proof.
  split.
  - intros (pre & rest & Heq & Hlen & Hup & Hn & Hrest).
    destruct pre; [|discriminate]. simpl in Heq. injection Heq as -> ->.
    split; [reflexivity|]. now apply group_boundary_complete.
  - intros [-> Hg]. apply group_boundary_sound in Hg as (rest & -> & Hup & Hn & Hrest).
    exists [], rest. repeat split; try assumption; lia.
Qed.

Lemma dollar_ticker_at_tail (c : char) (s xs : str) (i : nat) :
  dollar_ticker_at R (c :: s) (S i) xs <-> dollar_ticker_at R s i xs.
Proof.
  split.
  - intros (pre & rest & Heq & Hlen & H).
    destruct pre as [|c' pre]; [discriminate|].
    simpl in Heq, Hlen. injection Heq as -> ->. injection Hlen as Hlen.
    exists pre, rest. tauto.
  - intros (pre & rest & -> & Hlen & H).
    exists (c :: pre), rest. simpl. repeat split; try tauto. lia.
Qed.

(** [re.search] returns the group of the leftmost occurrence. *)
Lemma search_dollar_leftmost (text g : str) :
  search_dollar R text = Some g ->
  exists i, dollar_ticker_at R text i g /\
            forall k zs, dollar_ticker_at R text k zs -> (i <= k)%nat.
Proof.
  induction text as [|c s IH]; [discriminate|].
  simpl. destruct (if (c =? 36)%N then group_boundary R s else None) as [g'|] eqn:Hhd.
  - intros H. injection H as ->.
    exists 0%nat. split; [|intros; lia].
    apply dollar_ticker_at_head.
    destruct (c =? 36)%N eqn:Hc; [|discriminate].
    apply N.eqb_eq in Hc. tauto.
  - intros H. destruct (IH H) as (i & Hi & Hmin).
    exists (S i). split; [now apply dollar_ticker_at_tail|].
    intros [|k] zs Hk.
    + apply dollar_ticker_at_head in Hk as [-> Hg].
      simpl in Hhd. congruence.
    + apply dollar_ticker_at_tail in Hk. apply Hmin in Hk. lia.
Qed.

Lemma search_dollar_finds (text : str) : forall i xs,
  dollar_ticker_at R text i xs -> exists g, search_dollar R text = Some g.
Proof.
  induction text as [|c s IH]; intros i xs H.
  - destruct H as (pre & rest & Heq & _). destruct pre; discriminate.
  - simpl. destruct (if (c =? 36)%N then group_boundary R s else None) eqn:Hhd; [eauto|].
    destruct i as [|i].
    + apply dollar_ticker_at_head in H as [-> Hg]. simpl in Hhd. congruence.
    + apply dollar_ticker_at_tail in H. eauto.
Qed.

Lemma dollar_ticker_at_unique (text : str) : forall i xs ys,
  dollar_ticker_at R text i xs -> dollar_ticker_at R text i ys -> xs = ys.
Proof.
  induction text as [|c s IH]; intros i xs ys Hx Hy.
  - destruct Hx as (pre & rest & Heq & _). destruct pre; discriminate.
  - destruct i as [|i].
    + apply dollar_ticker_at_head in Hx as [_ Hx].
      apply dollar_ticker_at_head in Hy as [_ Hy]. congruence.
    + apply dollar_ticker_at_tail in Hx. apply dollar_ticker_at_tail in Hy. eauto.
Qed.

(** [.upper()] leaves a group of capitals as it is. *)
Lemma str_upper_capitals (g : str) :
  forallb is_upper g = true -> str_upper R g = g.
Proof.
  induction g as [|c g IH]; [reflexivity|].
  simpl. intros H. apply andb_prop in H as [Hc Hg].
  unfold str_upper in *. simpl. rewrite (IH Hg).
  unfold char_upper, is_ascii, is_lower, is_upper, in_range in *.
  apply andb_prop in Hc as [H1 H2]. apply N.leb_le in H1, H2.
  assert (Ha : (c <? 128)%N = true) by (apply N.ltb_lt; lia).
  assert (Hl : (97 <=? c)%N = false) by (apply N.leb_gt; lia).
  rewrite Ha, Hl. reflexivity.
Qed.

Lemma dollar_ticker_at_capitals (text : str) i xs :
  dollar_ticker_at R text i xs -> forallb is_upper xs = true.
Proof. intros (pre & rest & _ & _ & H & _). exact H. Qed.

End ExtractorFacts.

(** C4. Whenever the text holds a dollar sign followed by one to five
    capitals that end at a word boundary, [extract_ticker_from_text]
    returns the capitals of the leftmost such occurrence, whatever bare
    uppercase tokens or parenthesised groups the text holds elsewhere:
    the occurrence that nothing of the kind precedes is the one returned.
    On "$AAPL vs TSLA" the result is "AAPL", and it still is when the bare
    token comes first. *)
Theorem extract_dollar_rule :
  (forall (R : Runtime) (text : str) (i : nat) (xs : str),
      dollar_ticker_at R text i xs ->
      (exists j ys, (j <= i)%nat /\ dollar_ticker_at R text j ys /\
                    (forall k zs, dollar_ticker_at R text k zs -> (j <= k)%nat) /\
                    extract_ticker_from_text R text = Some ys) /\
      ((forall k zs, (k < i)%nat -> ~ dollar_ticker_at R text k zs) ->
       extract_ticker_from_text R text = Some xs)) /\
  (forall R, extract_ticker_from_text R (lit "$AAPL vs TSLA") = Some (lit "AAPL")) /\
  (forall R, extract_ticker_from_text R (lit "TSLA vs $AAPL") = Some (lit "AAPL")).
Proof.
  assert (Hmain : forall (R : Runtime) (text : str) (i : nat) (xs : str),
      dollar_ticker_at R text i xs ->
      (exists j ys, (j <= i)%nat /\ dollar_ticker_at R text j ys /\
                    (forall k zs, dollar_ticker_at R text k zs -> (j <= k)%nat) /\
                    extract_ticker_from_text R text = Some ys) /\
      ((forall k zs, (k < i)%nat -> ~ dollar_ticker_at R text k zs) ->
       extract_ticker_from_text R text = Some xs)).
  { intros R text i xs H.
    destruct (search_dollar_finds R text i xs H) as [g Hg].
    destruct (search_dollar_leftmost R text g Hg) as (j & Hj & Hmin).
    assert (Hex : extract_ticker_from_text R text = Some g).
    { unfold extract_ticker_from_text. rewrite Hg.
      now rewrite (str_upper_capitals R g (dollar_ticker_at_capitals R text j g Hj)). }
    split.
    - exists j, g. split; [exact (Hmin i xs H)|]. repeat split; auto.
    - intros Hfirst. rewrite Hex. f_equal.
      assert (Hji : (j <= i)%nat) by eauto.
      destruct (Nat.eq_dec j i) as [->|Hne].
      + eapply dollar_ticker_at_unique; eauto.
      + exfalso. apply (Hfirst j g); [lia|assumption]. }
  split; [exact Hmain|].
  split; intros R.
  - apply (proj2 (Hmain R (lit "$AAPL vs TSLA") 0%nat (lit "AAPL")
       ltac:(exists [], (lit " vs TSLA"); repeat split; simpl; lia))).
    intros k zs Hk. lia.
  - apply (proj2 (Hmain R (lit "TSLA vs $AAPL") 8%nat (lit "AAPL")
       ltac:(exists (lit "TSLA vs "), []; repeat split; simpl; lia))).
    intros k zs Hk (pre & rest & Heq & Hlen & Hup & Hn & Hrest).
    do 8 (destruct k as [|k]; [repeat (destruct pre as [|? pre]; try discriminate)|]).
    lia.
Qed.

(** A run of the rule on a sentence with a later bare token. *)
Lemma extract_dollar_rule_witness :
  extract_ticker_from_text ascii_tables (lit "is $XYZ above IBM?") = Some (lit "XYZ").
Proof.
  apply (proj2 (proj1 extract_dollar_rule ascii_tables (lit "is $XYZ above IBM?")
                  3%nat (lit "XYZ")
                  ltac:(exists (lit "is "), (lit " above IBM?");
                        repeat split; simpl; lia))).
  intros k zs Hk (pre & rest & Heq & Hlen & Hup & Hn & Hrest).
  do 3 (destruct k as [|k]; [repeat (destruct pre as [|? pre]; try discriminate)|]).
  lia.
Defined.

(* ===================================================================== *)
(** * Computations: what returns and what a result came from             *)
(* ===================================================================== *)

Section MonadFacts.

Context {A B : Type}.

Lemma bind_ok_inv (m : M A) (f : A -> M B) tr b :
  bind m f = (tr, Ok b) ->
  exists tr1 a tr2, m = (tr1, Ok a) /\ f a = (tr2, Ok b) /\ tr = tr1 ++ tr2.
Proof.
  destruct m as [tr1 [a|e]]; simpl; [|discriminate].
  destruct (f a) as [tr2 r] eqn:Hf. intros H. injection H as <- ->.
  exists tr1, a, tr2. auto.
Qed.

Lemma bind_ok (m : M A) (f : A -> M B) tr1 a :
  m = (tr1, Ok a) -> bind m f = (tr1 ++ fst (f a), snd (f a)).
Proof. intros ->. simpl. now destruct (f a). Qed.

Lemma bind_raise (m : M A) (f : A -> M B) tr1 e :
  m = (tr1, Raise e) -> bind m f = (tr1, Raise e).
Proof. now intros ->. Qed.

Lemma returns_bind (m : M A) (f : A -> M B) :
  returns m -> (forall a, returns (f a)) -> returns (bind m f).
Proof.
  intros [a Ha] Hf. destruct m as [tr r]. simpl in Ha. subst r.
  destruct (Hf a) as [b Hb]. exists b. simpl.
  destruct (f a) as [tr' r']. exact Hb.
Qed.

Lemma returns_try_except (body : M A) (h : exn -> M A) :
  (forall e, returns (h e)) -> returns (try_except body h).
Proof.
  intros Hh. destruct body as [tr [a|e]]; simpl.
  - now exists a.
  - destruct (Hh e) as [a Ha]. exists a. destruct (h e). exact Ha.
Qed.

Lemma outcome_bind (m : M A) (f : A -> M B) :
  outcome (bind m f)
  = match outcome m with
    | Ok a => outcome (f a)
    | Raise e => Raise e
    end.
Proof. destruct m as [tr [a|e]]; simpl; [|reflexivity]. now destruct (f a). Qed.

Lemma outcome_try_except (body : M A) (h : exn -> M A) :
  outcome (try_except body h)
  = match outcome body with
    | Ok a => Ok a
    | Raise e => outcome (h e)
    end.
Proof. destruct body as [tr [a|e]]; simpl; [reflexivity|]. now destruct (h e). Qed.

Lemma outcome_call (ev : event) (r : result A) : outcome (call ev r) = r.
Proof. reflexivity. Qed.

Lemma outcome_lift (r : result A) : outcome (lift r) = r.
Proof. reflexivity. Qed.

Lemma lift_ok_inv (r : result A) tr a : lift r = (tr, Ok a) -> r = Ok a /\ tr = [].
Proof. unfold lift. intros H. injection H as <- ->. auto. Qed.

Lemma call_ok_inv (ev : event) (r : result A) tr a :
  call ev r = (tr, Ok a) -> r = Ok a /\ tr = [ev].
Proof. unfold call. intros H. injection H as <- ->. auto. Qed.

End MonadFacts.

Lemma returns_ret {A} (a : A) : returns (ret a).
Proof. now exists a. Qed.

Lemma returns_emit (ev : event) : returns (emit ev).
Proof. now exists tt. Qed.

#[local] Hint Resolve returns_ret returns_emit : core.

(* ===================================================================== *)
(** * The profile fetch                                                   *)
(* ===================================================================== *)

Lemma length_slice_to {A} (l : list A) (n : Z) :
  0 <= n -> (length (slice_to l n) <= Z.to_nat n)%nat.
Proof.
  intros Hn. unfold slice_to.
  destruct (0 <=? n) eqn:E; [|apply Z.leb_gt in E; lia].
  rewrite length_firstn. lia.
Qed.

(** When the body of [get_stock_info] gets to its end, what it returns
    is a profile summary. *)
Lemma get_stock_info_body_summary (W : World) (query : str) tr s :
  get_stock_info_body W query = (tr, Ok s) -> is_profile_summary s.
Proof.
  unfold get_stock_info_body. intros H.
  apply bind_ok_inv in H as (tr1 & info0 & tr2 & _ & H & _).
  apply bind_ok_inv in H as (tr3 & info & tr4 & _ & H & _).
  apply bind_ok_inv in H as (tr5 & d & tr6 & _ & H & _).
  apply bind_ok_inv in H as (tr7 & price_s & tr8 & _ & H & _).
  apply bind_ok_inv in H as (tr9 & cap_s & tr10 & _ & H & _).
  apply bind_ok_inv in H as (tr11 & hd & tr12 & Hhd & H & _).
  apply bind_ok_inv in H as (tr13 & n & tr14 & _ & H & _).
  injection H as _ <-.
  do 6 eexists. eexists. split; [reflexivity|].
  apply lift_ok_inv in Hhd as [Hhd _].
  unfold subscript_to in Hhd.
  destruct (dict_get_or d (lit "longBusinessSummary") (PStr [])) as [| | |text];
    try discriminate.
  injection Hhd as <-.
  rewrite length_app.
  pose proof (length_slice_to text 1500 ltac:(lia)).
  destruct (1500 <? n); simpl; lia.
Qed.

(** C7. For every query and every behaviour of the provider,
    [get_stock_info] returns a string: the formatted summary (name,
    symbol, sector, industry, price, market cap, business summary cut to
    1500 characters) or the description of the exception that the body
    met.  Nothing gets past it: when the lookup raises, when the fallback
    search raises and when the second lookup raises, the result is the
    error string of that exception. *)
Theorem get_stock_info_never_raises (W : World) (query : str) :
  (exists s, outcome (get_stock_info W query) = Ok s /\
             (is_profile_summary s \/ exists e, s = fetch_error query e)) /\
  (forall e, yf_info W (str_upper W query) = Raise e ->
             outcome (get_stock_info W query) = Ok (fetch_error query e)) /\
  (forall info e,
      yf_info W (str_upper W query) = Ok info ->
      default ∅ info !! lit "shortName" = None ->
      yf_search W query = Raise e ->
      outcome (get_stock_info W query) = Ok (fetch_error query e)) /\
  (forall info q qs sym e,
      yf_info W (str_upper W query) = Ok info ->
      default ∅ info !! lit "shortName" = None ->
      yf_search W query = Ok (Some (q :: qs)) ->
      symbol q = Some sym ->
      yf_info W sym = Raise e ->
      outcome (get_stock_info W query) = Ok (fetch_error query e)).
Proof.
  assert (Hshort : forall info : option dict,
             default ∅ info !! lit "shortName" = None ->
             forall X Y : M (option dict),
               (if decide (is_Some (default ∅ info !! lit "shortName")) then X else Y) = Y).
  { intros info Hs X Y. destruct (decide _) as [Hd|_]; [|reflexivity].
    rewrite Hs in Hd. now destruct Hd. }
  assert (Hcaught : forall e,
             outcome (get_stock_info_body W query) = Raise e ->
             outcome (get_stock_info W query) = Ok (fetch_error query e)).
  { intros e He. unfold get_stock_info. rewrite outcome_try_except, He.
    unfold fetch_error, outcome, ret. cbn [snd]. reflexivity. }
  split; [|split; [|split]].
  - unfold get_stock_info. rewrite outcome_try_except.
    destruct (get_stock_info_body W query) as [tr [s|e]] eqn:Hb.
    + exists s. split.
      * unfold outcome. cbn [snd]. reflexivity.
      * left. exact (get_stock_info_body_summary W query tr s Hb).
    + exists (fetch_error query e). split.
      * unfold fetch_error, outcome, ret. cbn [snd]. reflexivity.
      * right. exists e. reflexivity.
  - intros e He. apply Hcaught.
    unfold get_stock_info_body. rewrite outcome_bind, outcome_call, He.
    reflexivity.
  - intros info e Hinfo Hs Hsearch. apply Hcaught.
    unfold get_stock_info_body. rewrite outcome_bind, outcome_call, Hinfo.
    cbv beta iota. rewrite outcome_bind, (Hshort info Hs).
    rewrite outcome_bind, outcome_call, Hsearch. reflexivity.
  - intros info q qs sym e Hinfo Hs Hsearch Hsym Hre. apply Hcaught.
    unfold get_stock_info_body. rewrite outcome_bind, outcome_call, Hinfo.
    cbv beta iota. rewrite outcome_bind, (Hshort info Hs).
    rewrite outcome_bind, outcome_call, Hsearch. cbv beta iota.
    rewrite outcome_bind, outcome_lift. unfold quote_symbol. rewrite Hsym.
    cbv beta iota. rewrite outcome_call, Hre. reflexivity.
Qed.

(** A run of the profile fetch against a provider that is down. *)
Lemma get_stock_info_never_raises_witness :
  outcome (get_stock_info Scenario.offline (lit "aapl"))
  = Ok (fetch_error (lit "aapl") Scenario.connection_error).
Proof.
  apply (proj1 (proj2 (get_stock_info_never_raises Scenario.offline (lit "aapl")))).
  reflexivity.
Defined.

(* ===================================================================== *)
(** * The history fetch                                                   *)
(* ===================================================================== *)

(** The provider's frame never holds a column under the name of its
    index, so [reset_index] succeeds on it. *)
Lemma reset_index_provider_frame (rows : list price_row) :
  reset_index (frame_of_rows rows)
  = Ok {| index_name := None;
          index := map (fun i => CInt (Z.of_nat i)) (seq 0 (length rows));
          columns := (lit "Date", map (fun r => CDate (row_date r)) rows)
                       :: columns (frame_of_rows rows) |}.
Proof.
  unfold reset_index, index_label. simpl index_name.
  replace (mem_str (lit "Date") (column_names (frame_of_rows rows))) with false
    by (symmetry; vm_compute; reflexivity).
  simpl. now rewrite length_map.
Qed.

(** C8. [get_stock_history] returns none when the provider raises, when
    it hands over no frame and when the frame has no rows.  Otherwise it
    returns the frame with the dates as its first column, named "Date",
    in front of the price columns, under a fresh index 0, 1, 2, ...; the
    column can be selected by name. *)
Theorem get_stock_history_spec (W : World) (ticker period interval : str) :
  match yf_history W ticker period interval with
  | Raise _ | Ok None | Ok (Some []) =>
      outcome (get_stock_history W ticker period interval) = Ok None
  | Ok (Some rows) =>
      exists df,
        outcome (get_stock_history W ticker period interval) = Ok (Some df) /\
        columns df = (lit "Date", map (fun r => CDate (row_date r)) rows)
                       :: columns (frame_of_rows rows) /\
        df_column (columns df) (lit "Date") = Ok (map (fun r => CDate (row_date r)) rows) /\
        index df = map (fun i => CInt (Z.of_nat i)) (seq 0 (length rows)) /\
        index_name df = None
  end.
Proof.
  unfold get_stock_history, call.
  destruct (yf_history W ticker period interval) as [[[|r rows]|]|e]; try reflexivity.
  unfold try_except, bind.
  replace (df_empty (frame_of_rows (r :: rows))) with false by reflexivity.
  rewrite reset_index_provider_frame. simpl.
  eexists. split; [reflexivity|]. simpl. repeat split.
Qed.

(* ===================================================================== *)
(** * The news fetch                                                      *)
(* ===================================================================== *)

Section NewsFacts.

Context {A B : Type} (f : nat -> A -> B).

Lemma length_enumerate_map (items : list A) : forall i0,
  length (enumerate_map f i0 items) = length items.
Proof. induction items as [|n rest IH]; intros i0; simpl; [reflexivity|]. now rewrite IH. Qed.

Lemma lookup_enumerate_map (items : list A) : forall i0 i n,
  items !! i = Some n -> enumerate_map f i0 items !! i = Some (f (i0 + i)%nat n).
Proof.
  induction items as [|m rest IH]; intros i0 i n H; [discriminate|].
  destruct i as [|i]; simpl in *.
  - injection H as ->. now rewrite Nat.add_0_r.
  - rewrite (IH (S i0) i n H). f_equal. f_equal. lia.
Qed.

End NewsFacts.

Lemma format_news_item_title (i : nat) (n : news_item) :
  exists shown,
    format_news_item i n
    = str_of_N (N.of_nat i) ++ lit ". **" ++ shown ++ lit "**  " ++ [10%N]
        ++ lit "Source: " ++ news_publisher n ++ lit "  " ++ [10%N] ++ news_link n /\
    title_within_budget (news_title n) shown.
Proof.
  unfold format_news_item. fold (news_title n) (news_publisher n) (news_link n).
  destruct (300 <? length (news_title n))%nat eqn:E.
  - apply Nat.ltb_lt in E. eexists. split; [reflexivity|].
    repeat split; intros; try lia.
    rewrite length_app, length_firstn.
    change (length (lit "...")) with 3%nat. lia.
  - apply Nat.ltb_ge in E. eexists. split; [reflexivity|].
    repeat split; intros; try lia.
Qed.

Lemma join_head (sep x : str) (rest : list str) c :
  head x = Some c -> head (join sep (x :: rest)) = Some c.
Proof.
  destruct x as [|d x]; [discriminate|]. simpl. intros H.
  destruct rest; simpl; assumption.
Qed.

(** A list of headlines that is not empty starts with the number 1. *)
Lemma news_list_head (items : list news_item) :
  items <> [] ->
  head (join [10%N; 10%N] (enumerate_map format_news_item 1 items)) = Some 49%N.
Proof.
  destruct items as [|n rest]; [congruence|]. intros _.
  simpl enumerate_map. apply join_head. reflexivity.
Qed.

Lemma get_latest_news_nonempty (W : World) (ticker : str) (count : Z) n news :
  yf_news W ticker = Ok (Some (n :: news)) ->
  outcome (get_latest_news W ticker count)
  = Ok (join [10%N; 10%N]
          (enumerate_map format_news_item 1 (slice_to (n :: news) count))).
Proof. intros H. unfold get_latest_news, call. rewrite H. reflexivity. Qed.

(** [getattr] on the two outcomes of building the ticker. *)
Lemma yf_news_unbuilt (W : World) (sym : str) (e : exn) :
  ticker_news W sym = Raise e -> yf_news W sym = Raise e.
Proof. intros H. unfold yf_news. rewrite H. reflexivity. Qed.

Lemma yf_news_built (W : World) (sym : str) (r : result (option (list news_item))) :
  ticker_news W sym = Ok r -> yf_news W sym = getattr_or_none W r.
Proof. intros H. unfold yf_news. rewrite H. reflexivity. Qed.

(** What the news fetch returns when [getattr] lets an exception through,
    and when it yields nothing. *)
Lemma get_latest_news_raises (W : World) (sym : str) (count : Z) (e : exn) :
  yf_news W sym = Raise e ->
  outcome (get_latest_news W sym count) = Ok (news_error e).
Proof.
  intros He. unfold get_latest_news.
  rewrite outcome_try_except, outcome_bind, outcome_call, He.
  cbv beta iota. unfold news_error, outcome, ret. cbn [snd]. reflexivity.
Qed.

Lemma get_latest_news_nothing (W : World) (sym : str) (count : Z) :
  yf_news W sym = Ok None \/ yf_news W sym = Ok (Some []) ->
  outcome (get_latest_news W sym count) = Ok (lit "No recent news found.").
Proof.
  intros [H|H]; unfold get_latest_news, call; rewrite H; reflexivity.
Qed.

(** The entries of a list of headlines cut at [count]. *)
Lemma news_entries (news : list news_item) (count : Z) :
  let entries := enumerate_map format_news_item 1 (slice_to news count) in
  length entries = length (slice_to news count) /\
  (0 <= count ->
   slice_to news count = firstn (Z.to_nat count) news /\
   Z.of_nat (length entries) <= count) /\
  forall i n,
    slice_to news count !! i = Some n ->
    exists shown,
      entries !! i
      = Some (str_of_N (N.of_nat (S i)) ++ lit ". **" ++ shown ++ lit "**  "
                ++ [10%N] ++ lit "Source: " ++ news_publisher n ++ lit "  "
                ++ [10%N] ++ news_link n) /\
      title_within_budget (news_title n) shown.
Proof.
  intros entries. subst entries.
  split; [apply length_enumerate_map|].
  split.
  - intros Hc. rewrite length_enumerate_map.
    pose proof (length_slice_to news count Hc).
    split; [|lia].
    unfold slice_to. destruct (0 <=? count) eqn:E; [reflexivity|].
    apply Z.leb_gt in E. lia.
  - intros i m Hi.
    destruct (format_news_item_title (S i) m) as (shown & Heq & Hb).
    exists shown. split; [|exact Hb].
    rewrite <- Heq.
    exact (lookup_enumerate_map format_news_item _ 1 i m Hi).
Qed.

(** C5, as stated, fails: when reading the news attribute raises an
    AttributeError, [getattr(stock, "news", None)] takes its default, and
    the result is the no-news literal, not a string that begins with
    "Error fetching news:". *)
Lemma get_latest_news_attribute_error_counterexample :
  ticker_news Scenario.broken_news (lit "AAPL") = Ok (Raise Scenario.no_get) /\
  attribute_error Scenario.broken_news Scenario.no_get = true /\
  outcome (get_latest_news Scenario.broken_news (lit "AAPL") 5)
  = Ok (lit "No recent news found.") /\
  startswith (lit "Error fetching news:") (lit "No recent news found.") = false.
Proof.
  split; [reflexivity|]. split; [vm_compute; reflexivity|].
  split; [|vm_compute; reflexivity].
  apply get_latest_news_nothing. left.
  rewrite (yf_news_built Scenario.broken_news (lit "AAPL") (Raise Scenario.no_get) eq_refl).
  vm_compute. reflexivity.
Qed.

(** C5, amended. [get_latest_news] returns the literal "No recent news
    found." when the news attribute holds an empty list or [None], and
    also when reading it raises an AttributeError, which [getattr] turns
    into its default.  It returns "Error fetching news: " followed by the
    text of the exception when building the ticker raises, or when
    reading the attribute raises anything but an AttributeError.
    Otherwise it returns the numbered entries, separated by blank lines,
    of the first [count] headlines (all of them when there are fewer):
    entry [i] carries its number, the title, the publisher and the link,
    and a title of more than 300 characters is replaced by its first 297
    characters and "...". *)
Theorem get_latest_news_spec (W : World) (ticker : str) (count : Z) :
  match ticker_news W ticker with
  | Raise e =>
      outcome (get_latest_news W ticker count) = Ok (news_error e) /\
      startswith (lit "Error fetching news:") (news_error e) = true
  | Ok (Raise e) =>
      if attribute_error W e
      then outcome (get_latest_news W ticker count) = Ok (lit "No recent news found.")
      else outcome (get_latest_news W ticker count) = Ok (news_error e) /\
           startswith (lit "Error fetching news:") (news_error e) = true
  | Ok (Ok None) | Ok (Ok (Some [])) =>
      outcome (get_latest_news W ticker count) = Ok (lit "No recent news found.")
  | Ok (Ok (Some news)) =>
      exists entries,
        outcome (get_latest_news W ticker count) = Ok (join [10%N; 10%N] entries) /\
        length entries = length (slice_to news count) /\
        (0 <= count ->
         slice_to news count = firstn (Z.to_nat count) news /\
         Z.of_nat (length entries) <= count) /\
        forall i n,
          slice_to news count !! i = Some n ->
          exists shown,
            entries !! i
            = Some (str_of_N (N.of_nat (S i)) ++ lit ". **" ++ shown ++ lit "**  "
                      ++ [10%N] ++ lit "Source: " ++ news_publisher n ++ lit "  "
                      ++ [10%N] ++ news_link n) /\
            title_within_budget (news_title n) shown
  end.
Proof.
  destruct (ticker_news W ticker) as [[[[|n news]|]|e]|e] eqn:Hn.
  - apply get_latest_news_nothing. right.
    rewrite (yf_news_built W ticker _ Hn). reflexivity.
  - exists (enumerate_map format_news_item 1 (slice_to (n :: news) count)).
    split; [|exact (news_entries (n :: news) count)].
    apply get_latest_news_nonempty.
    rewrite (yf_news_built W ticker _ Hn). reflexivity.
  - apply get_latest_news_nothing. left.
    rewrite (yf_news_built W ticker _ Hn). reflexivity.
  - destruct (attribute_error W e) eqn:Ha.
    + apply get_latest_news_nothing. left.
      rewrite (yf_news_built W ticker _ Hn). unfold getattr_or_none.
      rewrite Ha. reflexivity.
    + split; [|reflexivity].
      apply get_latest_news_raises.
      rewrite (yf_news_built W ticker _ Hn). unfold getattr_or_none.
      rewrite Ha. reflexivity.
  - split; [|reflexivity].
    apply get_latest_news_raises. exact (yf_news_unbuilt W ticker e Hn).
Qed.

(** A run of the news fetch on two headlines with room for five. *)
Lemma get_latest_news_spec_witness :
  exists entries,
    outcome (get_latest_news Scenario.apple (lit "AAPL") 5) = Ok (join [10%N; 10%N] entries) /\
    Z.of_nat (length entries) <= 5.
Proof.
  pose proof (get_latest_news_spec Scenario.apple (lit "AAPL") 5) as H.
  change (ticker_news Scenario.apple (lit "AAPL"))
    with (Ok (Ok (Some Scenario.two_headlines)) : result (result (option (list news_item))))
    in H.
  simpl in H. destruct H as (entries & Hout & _ & Hlen & _).
  exists entries. split; [exact Hout|]. apply Hlen. lia.
Defined.

(** C10, as stated, fails: with two headlines and [count = -1] the slice
    [news[:-1]] keeps the first headline, and the result is its entry,
    not the empty string. *)
Lemma get_latest_news_negative_count_counterexample :
  yf_news Scenario.apple (lit "AAPL") = Ok (Some Scenario.two_headlines) /\
  Scenario.two_headlines <> [] /\
  -1 <= 0 /\
  outcome (get_latest_news Scenario.apple (lit "AAPL") (-1))
  = Ok (lit "1. **Apple unveils new chip**  " ++ [10%N] ++ lit "Source: Reuters  "
          ++ [10%N] ++ lit "https://example.com/1") /\
  outcome (get_latest_news Scenario.apple (lit "AAPL") (-1)) <> Ok [].
Proof.
  split; [reflexivity|]. split; [discriminate|]. split; [lia|].
  split; [vm_compute; reflexivity|]. vm_compute. discriminate.
Qed.

(** C10, amended. With a provider list that is not empty,
    [get_latest_news] returns the empty string when [count] is 0 or at
    most minus the length of the list; for a negative [count] above that,
    it returns the entries of all headlines but the last [-count], which
    is not the empty string.  It returns neither the no-news literal nor
    an error string for such a list: the literal comes back exactly when
    the provider's list is empty or absent. *)
Theorem get_latest_news_nonpositive_count :
  (forall (W : World) (ticker : str) (count : Z) (news : list news_item),
      yf_news W ticker = Ok (Some news) -> news <> [] ->
      (count = 0 \/ count <= - Z.of_nat (length news) ->
       outcome (get_latest_news W ticker count) = Ok []) /\
      (- Z.of_nat (length news) < count < 0 ->
       outcome (get_latest_news W ticker count)
       = Ok (join [10%N; 10%N]
               (enumerate_map format_news_item 1
                  (firstn (length news - Z.to_nat (- count)) news))) /\
       outcome (get_latest_news W ticker count) <> Ok []) /\
      outcome (get_latest_news W ticker count) <> Ok (lit "No recent news found.") /\
      (forall e, outcome (get_latest_news W ticker count) <> Ok (news_error e))) /\
  (forall (W : World) (ticker : str) (count : Z),
      outcome (get_latest_news W ticker count) = Ok (lit "No recent news found.") <->
      yf_news W ticker = Ok None \/ yf_news W ticker = Ok (Some [])).
Proof.
  assert (Hshape : forall (W : World) ticker count n news,
             yf_news W ticker = Ok (Some (n :: news)) ->
             outcome (get_latest_news W ticker count) = Ok [] \/
             exists s, outcome (get_latest_news W ticker count) = Ok (49%N :: s)).
  { intros W ticker count n news H.
    rewrite (get_latest_news_nonempty W ticker count n news H).
    destruct (slice_to (n :: news) count) as [|m items] eqn:E; [now left|].
    right.
    pose proof (news_list_head (m :: items) ltac:(discriminate)) as Hh.
    destruct (join _ _) as [|c s]; [discriminate|].
    injection Hh as ->. now exists s. }
  split.
  - intros W ticker count news Hn Hne.
    destruct news as [|n news]; [congruence|].
    split; [|split; [|split]].
    + intros Hc. rewrite (get_latest_news_nonempty W ticker count n news Hn).
      replace (slice_to (n :: news) count) with (@nil news_item); [reflexivity|].
      unfold slice_to. destruct (0 <=? count) eqn:E.
      * apply Z.leb_le in E. assert (count = 0) as -> by lia. reflexivity.
      * apply Z.leb_gt in E.
        replace (length (n :: news) - Z.to_nat (- count))%nat with 0%nat by lia.
        reflexivity.
    + intros Hc. rewrite (get_latest_news_nonempty W ticker count n news Hn).
      assert (Hs : slice_to (n :: news) count
                   = firstn (length (n :: news) - Z.to_nat (- count)) (n :: news)).
      { unfold slice_to. destruct (0 <=? count) eqn:E; [|reflexivity].
        apply Z.leb_le in E. lia. }
      rewrite Hs. split; [reflexivity|].
      assert (Hpos : (length (n :: news) - Z.to_nat (- count) =
                      S (length news - Z.to_nat (- count)))%nat) by (simpl in *; lia).
      rewrite Hpos. simpl firstn.
      pose proof (news_list_head (n :: firstn (length news - Z.to_nat (- count)) news)
                    ltac:(discriminate)) as Hh.
      destruct (join _ _); [discriminate|]. discriminate.
    + destruct (Hshape W ticker count n news Hn) as [H|[s H]]; rewrite H; discriminate.
    + intros e.
      destruct (Hshape W ticker count n news Hn) as [H|[s H]]; rewrite H; discriminate.
  - intros W ticker count. split.
    + intros Hout. destruct (yf_news W ticker) as [[[|n news]|]|e] eqn:Hn; auto.
      * destruct (Hshape W ticker count n news Hn) as [H|[s H]];
          rewrite H in Hout; discriminate.
      * unfold get_latest_news, call in Hout. rewrite Hn in Hout. discriminate.
    + intros [H|H]; unfold get_latest_news, call; rewrite H; reflexivity.
Qed.

(** A run of the amended law: two headlines, [count = 0]. *)
Lemma get_latest_news_nonpositive_count_witness :
  outcome (get_latest_news Scenario.apple (lit "AAPL") 0) = Ok [].
Proof.
  apply (proj1 (proj1 get_latest_news_nonpositive_count Scenario.apple (lit "AAPL") 0
                  Scenario.two_headlines eq_refl ltac:(discriminate))).
  left. reflexivity.
Defined.

(* ===================================================================== *)
(** * Configuration                                                       *)
(* ===================================================================== *)

Lemma load_dotenv_absent (env : Config.environ) (dotenv : option Config.environ) (k : str) :
  env !! k = None ->
  (forall file, dotenv = Some file -> file !! k = None) ->
  snd (Config.load_dotenv env dotenv) !! k = None.
Proof.
  intros He Hf. destruct dotenv as [file|]; simpl; [|exact He].
  apply lookup_union_None. split; [exact He|]. now apply Hf.
Qed.

Lemma config_without_key (env : Config.environ) (dotenv : option Config.environ) :
  snd (Config.load_dotenv env dotenv) !! lit "OPENAI_API_KEY" = None ->
  outcome (Config.config env dotenv) = Raise (ValueError Config.missing_key_message) /\
  Forall (fun ev => exists line, ev = Print line) (trace (Config.config env dotenv)).
Proof.
  unfold Config.config. destruct (Config.load_dotenv env dotenv) as [loaded env'].
  intros H. change (env' !! lit "OPENAI_API_KEY" = None) in H.
  unfold bind, ret, emit, raise, outcome, trace.
  destruct loaded; rewrite H; simpl; split; try reflexivity.
  - constructor.
  - repeat constructor. eauto.
Qed.

(** C9. When neither the process nor the [.env] file defines
    [OPENAI_API_KEY], the module [config] raises [ValueError] with the
    message that names the variable and tells to create a [.env] file
    with the line [OPENAI_API_KEY=...]; all it does before is print.  The
    application, which imports [config] first, ends on that exception
    with the session untouched: no page is set up, no client is created,
    no turn is handled. *)
Theorem missing_api_key_is_fatal (env : Config.environ) (dotenv : option Config.environ) :
  env !! lit "OPENAI_API_KEY" = None ->
  (forall file, dotenv = Some file -> file !! lit "OPENAI_API_KEY" = None) ->
  outcome (Config.config env dotenv) = Raise (ValueError Config.missing_key_message) /\
  Config.missing_key_message
  = lit "🚨 OPENAI_API_KEY not found." ++ [10%N]
    ++ lit "👉 Create a .env file in your project root with the line:" ++ [10%N]
    ++ lit "OPENAI_API_KEY=sk-your_real_openai_api_key_here" /\
  Forall (fun ev => exists line, ev = Print line) (trace (Config.config env dotenv)) /\
  forall (W : World) session user_input,
    app W env dotenv session user_input
    = (session, (trace (Config.config env dotenv),
                 Raise (ValueError Config.missing_key_message))).
Proof.
  intros He Hf.
  pose proof (load_dotenv_absent env dotenv _ He Hf) as Habs.
  destruct (config_without_key env dotenv Habs) as [Hout Htr].
  split; [exact Hout|]. split; [reflexivity|]. split; [exact Htr|].
  intros W session user_input. unfold app.
  destruct (Config.config env dotenv) as [tr r]. simpl in Hout. subst r. reflexivity.
Qed.

(** A start with an empty environment and no [.env] file. *)
Lemma missing_api_key_is_fatal_witness :
  outcome (Config.config ∅ None) = Raise (ValueError Config.missing_key_message).
Proof.
  apply (missing_api_key_is_fatal ∅ None).
  - apply lookup_empty.
  - intros file H. discriminate.
Defined.

(* ===================================================================== *)
(** * Metric tiles                                                        *)
(* ===================================================================== *)

(** C3, as stated, fails: with no dividend yield in the record, the
    dividend tile shows "0.00%", the fallback that the call passes, not
    "N/A". *)
Lemma dividend_tile_counterexample :
  dict_get ∅ (lit "dividendYield") = PNone /\
  dividend_tile Scenario.quiet ∅ = lit "0.00%" /\
  dividend_tile Scenario.quiet ∅ <> lit "N/A".
Proof. split; [reflexivity|]. split; [reflexivity|]. discriminate. Qed.

(** C3, amended. [safe_fmt] renders a missing value as the fallback it
    is given.  The P/E tile and the market-cap tile then show "N/A"; the
    price tile shows the "N/A" fallback behind its dollar sign; the
    dividend tile is given the fallback "0.00%" and shows that. *)
Theorem missing_metric_fallbacks (W : World) (info : dict) :
  (forall fallback is_pct, safe_fmt W PNone fallback is_pct = fallback) /\
  (dict_get info (lit "trailingPE") = PNone -> pe_tile W info = lit "N/A") /\
  (dict_get info (lit "marketCap") = PNone -> market_cap_tile W info = Ok (lit "N/A")) /\
  (dict_get info (lit "currentPrice") = PNone -> price_tile W info = lit "$N/A") /\
  (dict_get info (lit "dividendYield") = PNone -> dividend_tile W info = lit "0.00%").
Proof.
  split; [reflexivity|].
  unfold pe_tile, market_cap_tile, price_tile, dividend_tile.
  repeat split; intros ->; reflexivity.
Qed.

(** The tiles of a record without any of the four fields. *)
Lemma missing_metric_fallbacks_witness :
  pe_tile Scenario.quiet ∅ = lit "N/A" /\ dividend_tile Scenario.quiet ∅ = lit "0.00%".
Proof.
  split.
  - apply (proj1 (proj2 (missing_metric_fallbacks Scenario.quiet ∅))). reflexivity.
  - apply (proj2 (proj2 (proj2 (proj2 (missing_metric_fallbacks Scenario.quiet ∅))))).
    reflexivity.
Defined.

(* ===================================================================== *)
(** * Integers that a double holds exactly                                *)
(* ===================================================================== *)

Module PyFloatFacts.

Import PyFloat.

Lemma digits2_pos_lower (m : positive) :
  2 ^ (Zpos (digits2_pos m) - 1) <= Zpos m.
Proof.
  induction m as [m IH|m IH|]; simpl digits2_pos; [| |simpl; lia].
  - rewrite Pos2Z.inj_succ.
    replace (Z.succ (Zpos (digits2_pos m)) - 1) with (Z.succ (Zpos (digits2_pos m) - 1)) by lia.
    rewrite Z.pow_succ_r by lia. lia.
  - rewrite Pos2Z.inj_succ.
    replace (Z.succ (Zpos (digits2_pos m)) - 1) with (Z.succ (Zpos (digits2_pos m) - 1)) by lia.
    rewrite Z.pow_succ_r by lia. lia.
Qed.

Lemma digits2_pos_small (m : positive) :
  Zpos m < 2 ^ 53 -> Zpos (digits2_pos m) <= 53.
Proof.
  intros H. pose proof (digits2_pos_lower m) as Hl.
  destruct (Z_le_gt_dec (Zpos (digits2_pos m)) 53) as [|Hgt]; [assumption|exfalso].
  assert (2 ^ 53 <= 2 ^ (Zpos (digits2_pos m) - 1)) by (apply Z.pow_le_mono_r; lia).
  lia.
Qed.

Lemma digits2_pos_shift (m p : positive) :
  digits2_pos (Pos.iter xO m p) = (digits2_pos m + p)%positive.
Proof.
  induction p as [|p IH] using Pos.peano_ind.
  - simpl. lia.
  - rewrite Pos.iter_succ. simpl. rewrite IH. lia.
Qed.

(** A mantissa of exactly 53 bits is not rounded. *)
Lemma shr_fexp_exact (mz : positive) (ez : Z) :
  Zpos (digits2_pos mz) = 53 -> -1074 <= ez ->
  shr_fexp prec emax (Zpos mz) ez loc_Exact
  = ({| shr_m := Zpos mz; shr_r := false; shr_s := false |}, ez).
Proof.
  intros Hd He. unfold shr_fexp, fexp, emin, Zdigits2. rewrite Hd.
  replace (Z.max (53 + ez - prec) (3 - emax - prec) - ez) with 0
    by (unfold prec, emax; lia).
  reflexivity.
Qed.

Lemma binary_round_aux_exact (s : bool) (mz : positive) (ez : Z) :
  Zpos (digits2_pos mz) = 53 -> -1074 <= ez <= 971 ->
  binary_round_aux prec emax s (Zpos mz) ez loc_Exact = S754_finite s mz ez.
Proof.
  intros Hd He. unfold binary_round_aux.
  rewrite (shr_fexp_exact mz ez Hd) by lia. cbn -[shr_fexp].
  rewrite (shr_fexp_exact mz ez Hd) by lia. cbn.
  replace (ez <=? emax - prec) with true; [reflexivity|].
  symmetry. apply Z.leb_le. unfold prec, emax. lia.
Qed.

Lemma binary_round_small (s : bool) (m : positive) :
  Zpos m < 2 ^ 53 -> is_finite (binary_round prec emax s m 0) = true.
Proof.
  intros Hm. pose proof (digits2_pos_small m Hm) as Hd.
  unfold binary_round, shl_align, fexp, emin.
  replace (Z.max (Zpos (digits2_pos m) + 0 - prec) (3 - emax - prec) - 0)
    with (Zpos (digits2_pos m) - 53) by (unfold prec, emax; lia).
  replace (Z.max (Zpos (digits2_pos m) + 0 - prec) (3 - emax - prec))
    with (Zpos (digits2_pos m) - 53) by (unfold prec, emax; lia).
  destruct (Zpos (digits2_pos m) - 53) as [|p|p] eqn:E; [|lia|].
  - rewrite binary_round_aux_exact; [reflexivity|lia|lia].
  - rewrite binary_round_aux_exact; [reflexivity| |lia].
    rewrite digits2_pos_shift. lia.
Qed.

(** Every integer below 2^53 in absolute value converts to a finite
    double. *)
Lemma of_Z_finite (z : Z) : Z.abs z < 2 ^ 53 -> is_finite (of_Z z) = true.
Proof.
  intros H. unfold of_Z, binary_normalize.
  destruct z as [|m|m]; [reflexivity| |]; apply binary_round_small; lia.
Qed.

Lemma of_int_small (z : Z) : Z.abs z < 2 ^ 53 -> of_int z = Ok (of_Z z).
Proof. intros H. unfold of_int. now rewrite (of_Z_finite z H). Qed.

Lemma of_int_finite (z : Z) : is_finite (of_Z z) = true -> of_int z = Ok (of_Z z).
Proof. intros H. unfold of_int. now rewrite H. Qed.

End PyFloatFacts.

(* ===================================================================== *)
(** * Market-cap formatting                                               *)
(* ===================================================================== *)

Section MarketCap.

Import PyFloat PyFloatFacts.

Lemma truediv_int (x : Z) (d : spec_float) :
  is_finite (of_Z x) = true -> truediv (PInt x) d = Ok (div (of_Z x) d).
Proof. intros H. unfold truediv. now rewrite (of_int_finite x H). Qed.

Lemma geb_nonzero (f t : spec_float) :
  geb f t = true -> t = f1e12 \/ t = f1e9 \/ t = f1e6 -> truthy (PFloat f) = true.
Proof.
  intros H Ht. destruct f as [s|s| |s m e]; try reflexivity.
  destruct Ht as [-> | [-> | ->]]; destruct s; discriminate H.
Qed.

(** The tile of [app.py] on an integer. *)
Lemma market_cap_str_int (W : World) (x : Z) :
  (10 ^ 12 <= x -> is_finite (of_Z x) = true ->
   market_cap_str W (PInt x) = Ok (abbreviated (div (of_Z x) f1e12) (lit "T"))) /\
  (10 ^ 9 <= x < 10 ^ 12 ->
   market_cap_str W (PInt x) = Ok (abbreviated (div (of_Z x) f1e9) (lit "B"))) /\
  (10 ^ 6 <= x < 10 ^ 9 ->
   market_cap_str W (PInt x) = Ok (abbreviated (div (of_Z x) f1e6) (lit "M"))) /\
  (x < 10 ^ 6 -> x <> 0 ->
   market_cap_str W (PInt x) = Ok (lit "$" ++ format_int_grouped x)) /\
  market_cap_str W (PInt 0) = Ok (lit "N/A").
Proof.
  assert (Ht : x <> 0 -> truthy (PInt x) = true).
  { intros H. simpl. apply negb_true_iff, Z.eqb_neq, H. }
  unfold market_cap_str, py_geb, rbind. repeat split.
  - intros H Hfin. rewrite Ht by lia.
    replace (10 ^ 12 <=? x) with true by (symmetry; apply Z.leb_le; lia).
    now rewrite (truediv_int x _ Hfin).
  - intros H. rewrite Ht by lia.
    replace (10 ^ 12 <=? x) with false by (symmetry; apply Z.leb_gt; lia).
    replace (10 ^ 9 <=? x) with true by (symmetry; apply Z.leb_le; lia).
    now rewrite (truediv_int x _ (of_Z_finite x ltac:(lia))).
  - intros H. rewrite Ht by lia.
    replace (10 ^ 12 <=? x) with false by (symmetry; apply Z.leb_gt; lia).
    replace (10 ^ 9 <=? x) with false by (symmetry; apply Z.leb_gt; lia).
    replace (10 ^ 6 <=? x) with true by (symmetry; apply Z.leb_le; lia).
    now rewrite (truediv_int x _ (of_Z_finite x ltac:(lia))).
  - intros H Hx. rewrite Ht by lia.
    replace (10 ^ 12 <=? x) with false by (symmetry; apply Z.leb_gt; lia).
    replace (10 ^ 9 <=? x) with false by (symmetry; apply Z.leb_gt; lia).
    replace (10 ^ 6 <=? x) with false by (symmetry; apply Z.leb_gt; lia).
    reflexivity.
Qed.

(** [fmt] of [utils.py] on an integer. *)
Lemma fmt_int (x : Z) :
  (10 ^ 12 <= Z.abs x -> is_finite (of_Z x) = true ->
   fmt (PInt x) = Ok (abbreviated (div (of_Z x) f1e12) (lit "T"))) /\
  (10 ^ 9 <= Z.abs x < 10 ^ 12 ->
   fmt (PInt x) = Ok (abbreviated (div (of_Z x) f1e9) (lit "B"))) /\
  (10 ^ 6 <= Z.abs x < 10 ^ 9 ->
   fmt (PInt x) = Ok (abbreviated (div (of_Z x) f1e6) (lit "M"))) /\
  (Z.abs x < 10 ^ 6 ->
   fmt (PInt x) = Ok (lit "$" ++ PyFloat.format_2f false (of_Z x))).
Proof.
  unfold fmt, abs_geb, rbind. repeat split.
  - intros H Hfin.
    replace (10 ^ 12 <=? Z.abs x) with true by (symmetry; apply Z.leb_le; lia).
    now rewrite (truediv_int x _ Hfin).
  - intros H.
    replace (10 ^ 12 <=? Z.abs x) with false by (symmetry; apply Z.leb_gt; lia).
    replace (10 ^ 9 <=? Z.abs x) with true by (symmetry; apply Z.leb_le; lia).
    now rewrite (truediv_int x _ (of_Z_finite x ltac:(lia))).
  - intros H.
    replace (10 ^ 12 <=? Z.abs x) with false by (symmetry; apply Z.leb_gt; lia).
    replace (10 ^ 9 <=? Z.abs x) with false by (symmetry; apply Z.leb_gt; lia).
    replace (10 ^ 6 <=? Z.abs x) with true by (symmetry; apply Z.leb_le; lia).
    now rewrite (truediv_int x _ (of_Z_finite x ltac:(lia))).
  - intros H.
    replace (10 ^ 12 <=? Z.abs x) with false by (symmetry; apply Z.leb_gt; lia).
    replace (10 ^ 9 <=? Z.abs x) with false by (symmetry; apply Z.leb_gt; lia).
    replace (10 ^ 6 <=? Z.abs x) with false by (symmetry; apply Z.leb_gt; lia).
    unfold py_format_2f, rbind. now rewrite (of_int_small x ltac:(lia)).
Qed.

(** Both functions on a float: the same thresholds, compared as
    floats. *)
Lemma market_cap_str_float (W : World) (f : spec_float) :
  (geb f f1e12 = true ->
   market_cap_str W (PFloat f) = Ok (abbreviated (div f f1e12) (lit "T"))) /\
  (geb f f1e12 = false -> geb f f1e9 = true ->
   market_cap_str W (PFloat f) = Ok (abbreviated (div f f1e9) (lit "B"))) /\
  (geb f f1e12 = false -> geb f f1e9 = false -> geb f f1e6 = true ->
   market_cap_str W (PFloat f) = Ok (abbreviated (div f f1e6) (lit "M"))) /\
  (geb f f1e12 = false -> geb f f1e9 = false -> geb f f1e6 = false ->
   truthy (PFloat f) = true ->
   market_cap_str W (PFloat f) = Ok (lit "$" ++ float_comma W f)) /\
  (truthy (PFloat f) = false -> market_cap_str W (PFloat f) = Ok (lit "N/A")).
Proof.
  unfold market_cap_str, py_geb, rbind, truediv. repeat split.
  - intros H. rewrite (geb_nonzero f _ H) by auto. now rewrite H.
  - intros H1 H2. rewrite (geb_nonzero f _ H2) by auto. now rewrite H1, H2.
  - intros H1 H2 H3. rewrite (geb_nonzero f _ H3) by auto. now rewrite H1, H2, H3.
  - intros H1 H2 H3 H4. now rewrite H4, H1, H2, H3.
  - intros H. now rewrite H.
Qed.

Lemma fmt_float (f : spec_float) :
  (geb (abs f) f1e12 = true ->
   fmt (PFloat f) = Ok (abbreviated (div f f1e12) (lit "T"))) /\
  (geb (abs f) f1e12 = false -> geb (abs f) f1e9 = true ->
   fmt (PFloat f) = Ok (abbreviated (div f f1e9) (lit "B"))) /\
  (geb (abs f) f1e12 = false -> geb (abs f) f1e9 = false -> geb (abs f) f1e6 = true ->
   fmt (PFloat f) = Ok (abbreviated (div f f1e6) (lit "M"))) /\
  (geb (abs f) f1e12 = false -> geb (abs f) f1e9 = false -> geb (abs f) f1e6 = false ->
   fmt (PFloat f) = Ok (lit "$" ++ PyFloat.format_2f false f)).
Proof.
  unfold fmt, abs_geb, rbind, truediv. repeat split.
  - intros H. now rewrite H.
  - intros H1 H2. now rewrite H1, H2.
  - intros H1 H2 H3. now rewrite H1, H2, H3.
  - intros H1 H2 H3. now rewrite H1, H2, H3.
Qed.

End MarketCap.

(** C6, as stated, fails below the last threshold: the tile of [app.py]
    shows a market cap of 0 as "N/A", not in a raw form, and [fmt] of
    [utils.py] shows 999999 with two decimals and without grouping. *)
Lemma market_cap_raw_form_counterexample :
  (0 < 10 ^ 6 /\
   market_cap_str Scenario.quiet (PInt 0) = Ok (lit "N/A") /\
   market_cap_str Scenario.quiet (PInt 0) <> Ok (lit "$0") /\
   market_cap_str Scenario.quiet (PInt 0) <> Ok (lit "$0.00")) /\
  (999999 < 10 ^ 6 /\
   fmt (PInt 999999) = Ok (lit "$999999.00") /\
   fmt (PInt 999999) <> Ok (lit "$999,999") /\
   fmt (PInt 999999) <> Ok (lit "$999,999.00")).
Proof.
  split; (split; [lia|]); (split; [vm_compute; reflexivity|]);
    split; vm_compute; discriminate.
Qed.

(** C6, amended. On an integer market cap [x], the tile of [app.py]
    shows [x / 1e12] with two decimals and "T" from 1e12 on (as long as
    [x] converts to a double), [x / 1e9] and "B" from 1e9 on, [x / 1e6]
    and "M" from 1e6 on, the integer with thousands separators below
    that, and "N/A" for 0.  [fmt] of [utils.py] applies the same
    thresholds to the absolute value and shows a value below 1e6 with two
    decimals and no separators.  On a float both compare as floats.  So
    2_500_000_000_000 gives "$2.50T", 3_400_000_000 gives "$3.40B",
    7_000_000 gives "$7.00M", 500 gives "$500" on the tile and "$500.00"
    in the summary, and every threshold value takes the suffix of its own
    range while the value just below takes the form of the range
    below. *)
Theorem market_cap_abbreviation :
  (forall (W : World) (x : Z),
      (10 ^ 12 <= x -> PyFloat.is_finite (PyFloat.of_Z x) = true ->
       market_cap_str W (PInt x)
       = Ok (abbreviated (PyFloat.div (PyFloat.of_Z x) PyFloat.f1e12) (lit "T"))) /\
      (10 ^ 9 <= x < 10 ^ 12 ->
       market_cap_str W (PInt x)
       = Ok (abbreviated (PyFloat.div (PyFloat.of_Z x) PyFloat.f1e9) (lit "B"))) /\
      (10 ^ 6 <= x < 10 ^ 9 ->
       market_cap_str W (PInt x)
       = Ok (abbreviated (PyFloat.div (PyFloat.of_Z x) PyFloat.f1e6) (lit "M"))) /\
      (x < 10 ^ 6 -> x <> 0 ->
       market_cap_str W (PInt x) = Ok (lit "$" ++ PyFloat.format_int_grouped x)) /\
      market_cap_str W (PInt 0) = Ok (lit "N/A")) /\
  (forall x : Z,
      (10 ^ 12 <= Z.abs x -> PyFloat.is_finite (PyFloat.of_Z x) = true ->
       fmt (PInt x) = Ok (abbreviated (PyFloat.div (PyFloat.of_Z x) PyFloat.f1e12) (lit "T"))) /\
      (10 ^ 9 <= Z.abs x < 10 ^ 12 ->
       fmt (PInt x) = Ok (abbreviated (PyFloat.div (PyFloat.of_Z x) PyFloat.f1e9) (lit "B"))) /\
      (10 ^ 6 <= Z.abs x < 10 ^ 9 ->
       fmt (PInt x) = Ok (abbreviated (PyFloat.div (PyFloat.of_Z x) PyFloat.f1e6) (lit "M"))) /\
      (Z.abs x < 10 ^ 6 ->
       fmt (PInt x) = Ok (lit "$" ++ PyFloat.format_2f false (PyFloat.of_Z x)))) /\
  (forall (W : World) (f : spec_float),
      (PyFloat.geb f PyFloat.f1e12 = true ->
       market_cap_str W (PFloat f) = Ok (abbreviated (PyFloat.div f PyFloat.f1e12) (lit "T"))) /\
      (PyFloat.geb f PyFloat.f1e12 = false -> PyFloat.geb f PyFloat.f1e9 = true ->
       market_cap_str W (PFloat f) = Ok (abbreviated (PyFloat.div f PyFloat.f1e9) (lit "B"))) /\
      (PyFloat.geb f PyFloat.f1e12 = false -> PyFloat.geb f PyFloat.f1e9 = false ->
       PyFloat.geb f PyFloat.f1e6 = true ->
       market_cap_str W (PFloat f) = Ok (abbreviated (PyFloat.div f PyFloat.f1e6) (lit "M"))) /\
      (PyFloat.geb (PyFloat.abs f) PyFloat.f1e12 = true ->
       fmt (PFloat f) = Ok (abbreviated (PyFloat.div f PyFloat.f1e12) (lit "T"))) /\
      (PyFloat.geb (PyFloat.abs f) PyFloat.f1e12 = false ->
       PyFloat.geb (PyFloat.abs f) PyFloat.f1e9 = true ->
       fmt (PFloat f) = Ok (abbreviated (PyFloat.div f PyFloat.f1e9) (lit "B"))) /\
      (PyFloat.geb (PyFloat.abs f) PyFloat.f1e12 = false ->
       PyFloat.geb (PyFloat.abs f) PyFloat.f1e9 = false ->
       PyFloat.geb (PyFloat.abs f) PyFloat.f1e6 = true ->
       fmt (PFloat f) = Ok (abbreviated (PyFloat.div f PyFloat.f1e6) (lit "M"))) /\
      (PyFloat.geb (PyFloat.abs f) PyFloat.f1e12 = false ->
       PyFloat.geb (PyFloat.abs f) PyFloat.f1e9 = false ->
       PyFloat.geb (PyFloat.abs f) PyFloat.f1e6 = false ->
       fmt (PFloat f) = Ok (lit "$" ++ PyFloat.format_2f false f))) /\
  (forall W : World,
      market_cap_str W (PInt 2500000000000) = Ok (lit "$2.50T") /\
      market_cap_str W (PInt 3400000000) = Ok (lit "$3.40B") /\
      market_cap_str W (PInt 7000000) = Ok (lit "$7.00M") /\
      market_cap_str W (PInt 500) = Ok (lit "$500") /\
      market_cap_str W (PInt (10 ^ 12)) = Ok (lit "$1.00T") /\
      market_cap_str W (PInt (10 ^ 12 - 1)) = Ok (lit "$1000.00B") /\
      market_cap_str W (PInt (10 ^ 9)) = Ok (lit "$1.00B") /\
      market_cap_str W (PInt (10 ^ 9 - 1)) = Ok (lit "$1000.00M") /\
      market_cap_str W (PInt (10 ^ 6)) = Ok (lit "$1.00M") /\
      market_cap_str W (PInt (10 ^ 6 - 1)) = Ok (lit "$999,999")) /\
  (fmt (PInt 2500000000000) = Ok (lit "$2.50T") /\
   fmt (PInt 3400000000) = Ok (lit "$3.40B") /\
   fmt (PInt 7000000) = Ok (lit "$7.00M") /\
   fmt (PInt 500) = Ok (lit "$500.00") /\
   fmt (PInt (10 ^ 12)) = Ok (lit "$1.00T") /\
   fmt (PInt (10 ^ 12 - 1)) = Ok (lit "$1000.00B") /\
   fmt (PInt (10 ^ 9)) = Ok (lit "$1.00B") /\
   fmt (PInt (10 ^ 9 - 1)) = Ok (lit "$1000.00M") /\
   fmt (PInt (10 ^ 6)) = Ok (lit "$1.00M") /\
   fmt (PInt (10 ^ 6 - 1)) = Ok (lit "$999999.00")).
Proof.
  split; [exact market_cap_str_int|].
  split; [exact fmt_int|].
  split.
  { intros W f.
    destruct (market_cap_str_float W f) as (H1 & H2 & H3 & _).
    destruct (fmt_float f) as (H4 & H5 & H6 & H7).
    repeat split; assumption. }
  split.
  { intros W. repeat split; vm_compute; reflexivity. }
  repeat split; vm_compute; reflexivity.
Qed.

(** The tile of a market cap of 2.5 trillion. *)
Lemma market_cap_abbreviation_witness :
  market_cap_str Scenario.quiet (PInt 2500000000000)
  = Ok (abbreviated (PyFloat.div (PyFloat.of_Z 2500000000000) PyFloat.f1e12) (lit "T")).
Proof.
  apply (proj1 (proj1 market_cap_abbreviation Scenario.quiet 2500000000000)).
  - lia.
  - vm_compute. reflexivity.
Defined.

(* ===================================================================== *)
(** * One turn of the conversation                                        *)
(* ===================================================================== *)

Section TurnFacts.

Variable W : World.

Lemma get_stock_info_returns (query : str) : returns (get_stock_info W query).
Proof. apply returns_try_except. auto. Qed.

Lemma get_stock_history_returns (t p i : str) : returns (get_stock_history W t p i).
Proof. apply returns_try_except. auto. Qed.

Lemma get_latest_news_returns (t : str) (count : Z) : returns (get_latest_news W t count).
Proof. apply returns_try_except. auto. Qed.

Lemma resolve_returns (user_input : str) : returns (resolve W user_input).
Proof.
  unfold resolve. destruct (opt_truthy _); [auto|].
  apply returns_try_except. auto.
Qed.

Lemma fetch_returns (resolved_ticker : option str) : returns (fetch W resolved_ticker).
Proof.
  assert (Hwarn : forall (st : fetched) e,
             returns (bind (emit (UiWarning (lit "Couldn't fetch full data: " ++ exn_text e)))
                           (fun _ => ret st))).
  { intros st e. apply returns_bind; auto. }
  unfold fetch. destruct resolved_ticker as [[|c t]|].
  - apply returns_bind; auto.
  - apply returns_bind; [auto|]. intros _.
    apply returns_try_except. intros e. apply (Hwarn (mk_fetched None None None) e).
  - apply returns_bind; auto.
Qed.

Lemma ask_assistant_returns (prompt : str) : returns (ask_assistant W prompt).
Proof. apply returns_try_except. auto. Qed.

Lemma answer_returns (user_input : str) : returns (answer W user_input).
Proof.
  unfold answer.
  apply returns_bind; [apply resolve_returns|]. intros r.
  apply returns_bind; [apply fetch_returns|]. intros d.
  apply returns_bind; [apply ask_assistant_returns|]. auto.
Qed.

Lemma ask_assistant_reply (prompt : str) tr reply :
  ask_assistant W prompt = (tr, Ok reply) ->
  match chat_create W (primary_request prompt) with
  | Ok s => reply = s /\ tr = [CallChat (primary_request prompt)]
  | Raise e => reply = error_reply W e /\ tr = [CallChat (primary_request prompt)]
  end.
Proof.
  unfold ask_assistant, call, try_except.
  destruct (chat_create W (primary_request prompt)); simpl; intros H;
    injection H as <- <-; auto.
Qed.

(** What [answer] did when it returns: it resolved, fetched and
    asked, in this order. *)
Lemma answer_inv (user_input : str) tr resolved data reply :
  answer W user_input = (tr, Ok (resolved, data, reply)) ->
  exists tr_r tr_f,
    resolve W user_input = (tr_r, Ok resolved) /\
    fetch W resolved = (tr_f, Ok data) /\
    tr = tr_r ++ tr_f ++ [CallChat (primary_request (build_prompt user_input resolved data))] /\
    match chat_create W (primary_request (build_prompt user_input resolved data)) with
    | Ok s => reply = s
    | Raise e => reply = error_reply W e
    end.
Proof.
  unfold answer. intros H.
  apply bind_ok_inv in H as (tr_r & r & tr1 & Hr & H & ->).
  apply bind_ok_inv in H as (tr_f & d & tr2 & Hf & H & ->).
  apply bind_ok_inv in H as (tr_a & a & tr3 & Ha & H & ->).
  injection H as <- -> -> ->.
  exists tr_r, tr_f. split; [exact Hr|]. split; [exact Hf|].
  apply ask_assistant_reply in Ha.
  destruct (chat_create W _); destruct Ha as [-> ->]; rewrite app_nil_r; auto.
Qed.

(** The log and the events of a turn, from what [answer] returned. *)
Lemma handle_turn_spec (log : list message) (user_input : str) tr resolved data reply :
  answer W user_input = (tr, Ok (resolved, data, reply)) ->
  handle_turn W log user_input
  = (log ++ [user_message user_input; assistant_message reply],
     (UiChatMessage (lit "user") user_input :: tr
        ++ UiChatMessage (lit "assistant") reply
        :: trace (show_ticker_data W resolved data),
      outcome (show_ticker_data W resolved data))).
Proof.
  intros H. unfold handle_turn, emit. unfold bind at 1. rewrite H.
  rewrite <- app_assoc. simpl.
  destruct (show_ticker_data W resolved data) as [tr' r]. reflexivity.
Qed.

Lemma build_prompt_unresolved (user_input : str) (resolved : option str) (data : fetched) :
  opt_truthy resolved = false ->
  build_prompt user_input resolved data
  = build_prompt user_input None (mk_fetched None None None).
Proof.
  intros H. unfold build_prompt. rewrite H.
  change (opt_truthy None) with false. cbn [andb]. reflexivity.
Qed.

Lemma fetch_unresolved (resolved : option str) :
  opt_truthy resolved = false ->
  fetch W resolved = ([UiWarning resolution_warning], Ok (mk_fetched None None None)).
Proof.
  intros H. destruct resolved as [[|c t]|].
  - reflexivity.
  - cbn in H. discriminate H.
  - reflexivity.
Qed.

Lemma show_ticker_data_unresolved (resolved : option str) (data : fetched) :
  opt_truthy resolved = false -> show_ticker_data W resolved data = ([], Ok tt).
Proof.
  intros H. destruct resolved as [[|c t]|].
  - reflexivity.
  - cbn in H. discriminate H.
  - reflexivity.
Qed.

(** A failed resolution: one search, and no symbol. *)
Lemma resolve_fails (user_input : str) :
  extract_ticker_from_text W user_input = None ->
  search_fails W user_input = true ->
  exists resolved,
    resolve W user_input = ([CallSearch user_input], Ok resolved) /\
    opt_truthy resolved = false.
Proof.
  intros He Hs. unfold resolve. rewrite He. simpl opt_truthy. cbv iota.
  unfold search_fails in Hs. unfold call, try_except, bind.
  destruct (yf_search W user_input) as [[[|q qs]|]|e]; simpl.
  - exists None. auto.
  - unfold quote_symbol. destruct (symbol q) as [[|c s]|]; simpl.
    + exists (Some []). auto.
    + discriminate.
    + exists None. auto.
  - exists None. auto.
  - exists None. auto.
Qed.

End TurnFacts.

(** C1, as stated, fails: on an input that resolves to no symbol, the
    log still receives the user entry and the assistant's reply; the
    warning is shown on the page and is not an entry of the log. *)
Lemma turn_log_counterexample :
  let user_input := lit "how are markets today?" in
  let log' := fst (handle_turn Scenario.quiet [] user_input) in
  outcome (resolve Scenario.quiet user_input) = Ok None /\
  log' = [user_message user_input; assistant_message (lit "I don't know.")] /\
  log' <> [user_message user_input] /\
  (forall r, log' <> [user_message user_input; mk_message r resolution_warning]).
Proof.
  cbv zeta. split; [vm_compute; reflexivity|].
  assert (H : fst (handle_turn Scenario.quiet [] (lit "how are markets today?"))
              = [user_message (lit "how are markets today?");
                 assistant_message (lit "I don't know.")])
    by (vm_compute; reflexivity).
  rewrite H. split; [reflexivity|]. split; [discriminate|].
  intros r Heq. injection Heq as _ Hc. vm_compute in Hc. discriminate.
Qed.

(** C1, amended. Every turn appends exactly two entries to the log, the
    user's text and then an assistant entry, whether or not a symbol was
    resolved.  The assistant entry is the reply of the language model, or
    the error string when the call raises.  When no symbol is resolved
    the warning is shown and the assistant is still asked.  A run of the
    script on a submitted text is such a turn on the session's log. *)
Theorem turn_appends_user_then_assistant (W : World) (log : list message) (user_input : str) :
  exists resolved data reply,
    outcome (answer W user_input) = Ok (resolved, data, reply) /\
    fst (handle_turn W log user_input)
    = log ++ [user_message user_input; assistant_message reply] /\
    length (fst (handle_turn W log user_input)) = (length log + 2)%nat /\
    match chat_create W (primary_request (build_prompt user_input resolved data)) with
    | Ok s => reply = s
    | Raise e => reply = error_reply W e
    end /\
    (opt_truthy resolved = false ->
     In (UiWarning resolution_warning) (trace (snd (handle_turn W log user_input))) /\
     In (CallChat (primary_request (build_prompt user_input resolved data)))
        (trace (snd (handle_turn W log user_input)))) /\
    (forall session,
        user_input <> [] -> log = default [greeting] session ->
        fst (run_script W session (Some user_input))
        = log ++ [user_message user_input; assistant_message reply]).
Proof.
  destruct (answer_returns W user_input) as [[[resolved data] reply] Hret].
  destruct (answer W user_input) as [tr r] eqn:Ha. simpl in Hret. subst r.
  pose proof (handle_turn_spec W log user_input tr resolved data reply Ha) as Hturn.
  destruct (answer_inv W user_input tr resolved data reply Ha)
    as (tr_r & tr_f & Hr & Hf & Htr & Hreply).
  exists resolved, data, reply.
  split; [reflexivity|].
  split; [now rewrite Hturn|].
  split; [rewrite Hturn; simpl; rewrite length_app; simpl; lia|].
  split; [exact Hreply|].
  split.
  - intros Hun. rewrite Hturn. unfold trace. simpl fst.
    rewrite (fetch_unresolved W resolved Hun) in Hf. injection Hf as <- _.
    subst tr. split.
    + right. apply in_or_app. left. apply in_or_app. right. now left.
    + right. apply in_or_app. left. apply in_or_app. right. right. now left.
  - intros session Hne Hlog. unfold run_script.
    destruct user_input as [|c s]; [congruence|].
    rewrite <- Hlog, Hturn. reflexivity.
Qed.

(** A turn on a first question, with a provider that knows nothing. *)
Lemma turn_appends_user_then_assistant_witness :
  exists reply,
    fst (run_script Scenario.quiet None (Some (lit "hello")))
    = [greeting; user_message (lit "hello"); assistant_message reply].
Proof.
  destruct (turn_appends_user_then_assistant Scenario.quiet [greeting] (lit "hello"))
    as (resolved & data & reply & _ & _ & _ & _ & _ & Hrun).
  exists reply. apply (Hrun None); [discriminate|reflexivity].
Defined.

(** C2, as stated, fails: after a failed resolution the market-data
    client is left alone, but one call downstream is still made, the
    request to the language model. *)
Lemma resolution_failure_counterexample :
  let user_input := lit "how are markets today?" in
  let events := trace (snd (handle_turn Scenario.quiet [] user_input)) in
  extract_ticker_from_text Scenario.quiet user_input = None /\
  yf_search Scenario.quiet user_input = Ok None /\
  In (UiWarning resolution_warning) events /\
  existsb is_chat_call events = true /\
  forallb (fun ev => negb (is_market_data_call ev || is_chat_call ev)) events = false.
Proof.
  cbv zeta. split; [vm_compute; reflexivity|]. split; [reflexivity|].
  split; [|split; vm_compute; reflexivity].
  vm_compute. right. right. left. reflexivity.
Qed.

(** C2, amended. When the extractor finds nothing and the search brings
    no symbol (it raises, or it has no candidate, or the candidate has no
    symbol), the turn consists of exactly these steps: the user's text is
    shown, the search is called, the warning that no symbol could be
    resolved is shown, the language model is asked with a prompt that
    holds the question alone, and the reply is shown.  The market-data
    client is never called: profile, history and news stay absent, no
    data is displayed and no sentiment is requested. *)
Theorem resolution_failure_frame (W : World) (log : list message) (user_input : str) :
  extract_ticker_from_text W user_input = None ->
  search_fails W user_input = true ->
  exists resolved reply,
    let prompt := build_prompt user_input None (mk_fetched None None None) in
    outcome (answer W user_input) = Ok (resolved, mk_fetched None None None, reply) /\
    opt_truthy resolved = false /\
    snd (handle_turn W log user_input)
    = ([ UiChatMessage (lit "user") user_input;
         CallSearch user_input;
         UiWarning resolution_warning;
         CallChat (primary_request prompt);
         UiChatMessage (lit "assistant") reply ], Ok tt) /\
    Forall (fun ev => is_market_data_call ev = false)
           (trace (snd (handle_turn W log user_input))) /\
    length (filter (fun ev => is_chat_call ev = true)
                   (trace (snd (handle_turn W log user_input)))) = 1%nat.
Proof.
  intros He Hs.
  destruct (resolve_fails W user_input He Hs) as (resolved & Hr & Hun).
  destruct (answer_returns W user_input) as [[[resolved' data] reply] Hret].
  destruct (answer W user_input) as [tr r] eqn:Ha. simpl in Hret. subst r.
  destruct (answer_inv W user_input tr resolved' data reply Ha)
    as (tr_r & tr_f & Hr' & Hf & Htr & _).
  rewrite Hr in Hr'. injection Hr' as <- <-.
  rewrite (fetch_unresolved W resolved Hun) in Hf. injection Hf as <- <-.
  rewrite (build_prompt_unresolved user_input resolved _ Hun) in Htr.
  exists resolved, reply. cbv zeta.
  split; [reflexivity|]. split; [exact Hun|].
  assert (Hturn : snd (handle_turn W log user_input)
          = ([ UiChatMessage (lit "user") user_input;
               CallSearch user_input;
               UiWarning resolution_warning;
               CallChat (primary_request
                           (build_prompt user_input None (mk_fetched None None None)));
               UiChatMessage (lit "assistant") reply ], Ok tt)).
  { rewrite (handle_turn_spec W log user_input tr resolved _ reply Ha).
    rewrite (show_ticker_data_unresolved W resolved _ Hun). subst tr. reflexivity. }
  split; [exact Hturn|]. rewrite Hturn. split.
  - repeat constructor.
  - reflexivity.
Qed.

(** A question that names no company, with the provider down. *)
Lemma resolution_failure_frame_witness :
  Forall (fun ev => is_market_data_call ev = false)
         (trace (snd (handle_turn Scenario.offline [] (lit "how are markets today?")))).
Proof.
  destruct (resolution_failure_frame Scenario.offline [] (lit "how are markets today?"))
    as (resolved & reply & _ & _ & _ & H & _).
  - vm_compute. reflexivity.
  - reflexivity.
  - exact H.
Defined.

(* ===================================================================== *)
(** * The symbol extractor: rules 2 and 3, and the shape of a result      *)
(* ===================================================================== *)

Section ExtractorMore.

Variable R : Runtime.

Lemma close_paren_not_word : word_of R (head (41%N :: @nil N)) = false.
Proof. reflexivity. Qed.

Lemma group_paren_complete (xs rest : str) :
  forallb is_upper xs = true -> (1 <= length xs <= 5)%nat ->
  group_paren (xs ++ 41%N :: rest) = Some xs.
Proof.
  intros Hup Hlen.
  assert (Hne : xs <> []) by (destruct xs; simpl in *; [lia|congruence]).
  destruct (upper_runs_first R xs (41%N :: rest) 5 Hne Hup ltac:(lia) eq_refl) as [tl Htl].
  unfold group_paren. rewrite Htl. reflexivity.
Qed.

Lemma group_paren_sound (s g : str) :
  group_paren s = Some g ->
  exists rest, s = g ++ 41%N :: rest /\ is_symbol g.
Proof.
  unfold group_paren. intros H.
  destruct (find _ _) as [[g' r]|] eqn:Hf; [|discriminate].
  simpl in H. injection H as ->.
  apply find_some in Hf as [Hin Hb]. simpl in Hb.
  apply upper_runs_sound in Hin as (-> & Hup & Hlen & _).
  destruct r as [|c r]; [discriminate|]. apply N.eqb_eq in Hb. subst c.
  exists r. repeat split; try assumption; lia.
Qed.

Lemma paren_ticker_at_head (c : char) (s xs : str) :
  paren_ticker_at (c :: s) 0 xs <-> c = 40%N /\ group_paren s = Some xs.
Proof.
  split.
  - intros (pre & rest & Heq & Hlen & Hup & Hn).
    destruct pre; [|discriminate]. simpl in Heq. injection Heq as -> ->.
    split; [reflexivity|]. now apply group_paren_complete.
  - intros [-> Hg]. apply group_paren_sound in Hg as (rest & -> & Hup & Hn).
    exists [], rest. repeat split; try assumption; lia.
Qed.

Lemma paren_ticker_at_tail (c : char) (s xs : str) (i : nat) :
  paren_ticker_at (c :: s) (S i) xs <-> paren_ticker_at s i xs.
Proof.
  split.
  - intros (pre & rest & Heq & Hlen & H).
    destruct pre as [|c' pre]; [discriminate|].
    simpl in Heq, Hlen. injection Heq as -> ->. injection Hlen as Hlen.
    exists pre, rest. tauto.
  - intros (pre & rest & -> & Hlen & H).
    exists (c :: pre), rest. simpl. repeat split; try tauto. lia.
Qed.

Lemma search_paren_leftmost (text g : str) :
  search_paren text = Some g ->
  exists i, paren_ticker_at text i g /\
            forall k zs, paren_ticker_at text k zs -> (i <= k)%nat.
Proof.
  induction text as [|c s IH]; [discriminate|].
  simpl. destruct (if (c =? 40)%N then group_paren s else None) as [g'|] eqn:Hhd.
  - intros H. injection H as ->.
    exists 0%nat. split; [|intros; lia].
    apply paren_ticker_at_head.
    destruct (c =? 40)%N eqn:Hc; [|discriminate].
    apply N.eqb_eq in Hc. tauto.
  - intros H. destruct (IH H) as (i & Hi & Hmin).
    exists (S i). split; [now apply paren_ticker_at_tail|].
    intros [|k] zs Hk.
    + apply paren_ticker_at_head in Hk as [-> Hg].
      simpl in Hhd. congruence.
    + apply paren_ticker_at_tail in Hk. apply Hmin in Hk. lia.
Qed.

Lemma search_paren_finds (text : str) : forall i xs,
  paren_ticker_at text i xs -> exists g, search_paren text = Some g.
Proof.
  induction text as [|c s IH]; intros i xs H.
  - destruct H as (pre & rest & Heq & _). destruct pre; discriminate.
  - simpl. destruct (if (c =? 40)%N then group_paren s else None) eqn:Hhd; [eauto|].
    destruct i as [|i].
    + apply paren_ticker_at_head in H as [-> Hg]. simpl in Hhd. congruence.
    + apply paren_ticker_at_tail in H. eauto.
Qed.

Lemma paren_ticker_at_unique (text : str) : forall i xs ys,
  paren_ticker_at text i xs -> paren_ticker_at text i ys -> xs = ys.
Proof.
  induction text as [|c s IH]; intros i xs ys Hx Hy.
  - destruct Hx as (pre & rest & Heq & _). destruct pre; discriminate.
  - destruct i as [|i].
    + apply paren_ticker_at_head in Hx as [_ Hx].
      apply paren_ticker_at_head in Hy as [_ Hy]. congruence.
    + apply paren_ticker_at_tail in Hx. apply paren_ticker_at_tail in Hy. eauto.
Qed.

Lemma search_dollar_none (text : str) :
  (forall k zs, ~ dollar_ticker_at R text k zs) -> search_dollar R text = None.
Proof.
  intros Hno. destruct (search_dollar R text) as [g|] eqn:E; [|reflexivity].
  destruct (search_dollar_leftmost R text g E) as (i & Hi & _).
  now apply Hno in Hi.
Qed.

Lemma search_paren_none (text : str) :
  (forall k zs, ~ paren_ticker_at text k zs) -> search_paren text = None.
Proof.
  intros Hno. destruct (search_paren text) as [g|] eqn:E; [|reflexivity].
  destruct (search_paren_leftmost text g E) as (i & Hi & _).
  now apply Hno in Hi.
Qed.

(** Every match of [findall] is a symbol that stands in the text. *)
Lemma findall_from_sound (s : str) : forall skip prev g,
  In g (findall_from R skip prev s) -> is_symbol g /\ substring g s.
Proof.
  induction s as [|c s IH]; intros skip prev g Hin; [contradiction|].
  assert (Hrest : forall k p, In g (findall_from R k p s) ->
                              is_symbol g /\ substring g (c :: s)).
  { intros k p H. destruct (IH k p g H) as [Hs (pre & rest & ->)].
    split; [exact Hs|]. now exists (c :: pre), rest. }
  simpl in Hin. destruct skip as [|k]; [|eauto].
  destruct (token_at R prev (c :: s)) as [g'|] eqn:Ht; [|eauto].
  destruct Hin as [<-|Hin]; [|eauto].
  unfold token_at in Ht. destruct (boundary R prev (head (c :: s))); [|discriminate].
  apply group_boundary_sound in Ht as (rest & Heq & Hup & Hlen & _).
  split; [split; assumption|]. exists [], rest. exact Heq.
Qed.

(** What [extract_ticker_from_text] returns, and by which rule. *)
Lemma extract_cases (text t : str) :
  extract_ticker_from_text R text = Some t ->
  (exists i, dollar_ticker_at R text i t) \/
  (search_dollar R text = None /\ exists i, paren_ticker_at text i t) \/
  (search_dollar R text = None /\ search_paren text = None /\
   In t (findall_tokens R text) /\ (2 <= length t)%nat).
Proof.
  unfold extract_ticker_from_text.
  destruct (search_dollar R text) as [g|] eqn:Hd.
  - intros H. destruct (search_dollar_leftmost R text g Hd) as (i & Hi & _).
    rewrite (str_upper_capitals R g (dollar_ticker_at_capitals R text i g Hi)) in H.
    injection H as <-. left. eauto.
  - destruct (search_paren text) as [g|] eqn:Hp.
    + intros H. destruct (search_paren_leftmost text g Hp) as (i & Hi & _).
      assert (Hup : forallb is_upper g = true)
        by (destruct Hi as (pre & rest & _ & _ & Hup & _); exact Hup).
      rewrite (str_upper_capitals R g Hup) in H.
      injection H as <-. right. left. eauto.
    + cbv zeta.
      destruct (filter _ (findall_tokens R text)) as [|g tl] eqn:Hf; [discriminate|].
      intros H.
      assert (Hin : g ∈ g :: tl) by (apply elem_of_cons; now left).
      rewrite <- Hf in Hin. apply list_elem_of_filter in Hin as [Hlen Hin].
      apply Is_true_true, Nat.ltb_lt in Hlen. apply list_elem_of_In in Hin.
      destruct (findall_from_sound text 0 None g Hin) as [[Hup _] _].
      rewrite (str_upper_capitals R g Hup) in H. injection H as <-.
      right. right. repeat split; auto.
Qed.

End ExtractorMore.

(** X1. When the text holds no dollar-sign ticker, the capitals of the
    leftmost parenthesised group of one to five capitals are returned,
    whatever bare uppercase tokens stand before it. *)
Theorem extract_paren_rule (R : Runtime) (text : str) (i : nat) (xs : str) :
  (forall k zs, ~ dollar_ticker_at R text k zs) ->
  paren_ticker_at text i xs ->
  (forall k zs, (k < i)%nat -> ~ paren_ticker_at text k zs) ->
  extract_ticker_from_text R text = Some xs.
Proof.
  intros Hno Hp Hfirst.
  destruct (search_paren_finds R text i xs Hp) as [g Hg].
  destruct (search_paren_leftmost R text g Hg) as (j & Hj & Hmin).
  assert (Hup : forallb is_upper g = true)
    by (destruct Hj as (pre & rest & _ & _ & Hup & _); exact Hup).
  unfold extract_ticker_from_text.
  rewrite (search_dollar_none R text Hno), Hg, (str_upper_capitals R g Hup).
  f_equal. pose proof (Hmin i xs Hp) as Hji.
  destruct (Nat.eq_dec j i) as [->|Hne].
  - eapply (paren_ticker_at_unique R); eauto.
  - exfalso. apply (Hfirst j g); [lia|assumption].
Qed.

(** A sentence with a bare token before the parenthesised symbol. *)
Lemma extract_paren_rule_witness :
  extract_ticker_from_text ascii_tables (lit "IBM or Microsoft (MSFT)?") = Some (lit "MSFT").
Proof.
  apply (extract_paren_rule ascii_tables (lit "IBM or Microsoft (MSFT)?") 17 (lit "MSFT")).
  - intros k zs Hk.
    pose proof (search_dollar_finds ascii_tables _ k zs Hk) as [g Hg].
    vm_compute in Hg. discriminate.
  - exists (lit "IBM or Microsoft "), (lit "?"). repeat split; vm_compute; try lia; reflexivity.
  - intros k zs Hk Hp.
    set (text := lit "IBM or Microsoft (MSFT)?") in Hp. vm_compute in text. subst text.
    do 17 (destruct k as [|k];
           [apply (paren_ticker_at_head ascii_tables) in Hp as [Hc _]; discriminate Hc
           |apply paren_ticker_at_tail in Hp]).
    lia.
Defined.

Lemma findall_from_delimited (R : Runtime) (s : str) : forall skip prev g,
  In g (findall_from R skip prev s) -> delimited_in R g s.
Proof.
  induction s as [|c s IH]; intros skip prev g Hin; [contradiction|].
  assert (Hrest : forall k p, In g (findall_from R k p s) -> delimited_in R g (c :: s)).
  { intros k p H. destruct (IH k p g H) as (pre & rest & -> & Hb).
    exists (c :: pre), rest. split; [reflexivity|exact Hb]. }
  simpl in Hin. destruct skip as [|k]; [|eauto].
  destruct (token_at R prev (c :: s)) as [g'|] eqn:Ht; [|eauto].
  destruct Hin as [<-|Hin]; [|eauto].
  unfold token_at in Ht. destruct (boundary R prev (head (c :: s))); [|discriminate].
  apply group_boundary_sound in Ht as (rest & Heq & _ & _ & Hb).
  exists [], rest. split; [exact Heq|exact Hb].
Qed.

(** Whatever rule fires, the result is a symbol that stands in the text
    and ends at a word boundary. *)
Lemma extract_sound (R : Runtime) (text t : str) :
  extract_ticker_from_text R text = Some t ->
  is_symbol t /\ delimited_in R t text.
Proof.
  intros H. apply extract_cases in H as [[i Hd]|[[_ [i Hp]]|(_ & _ & Hin & _)]].
  - destruct Hd as (pre & rest & -> & _ & Hup & Hlen & Hb).
    split; [split; assumption|].
    exists (pre ++ [36%N]), rest. split; [|exact Hb].
    now rewrite <- app_assoc.
  - destruct Hp as (pre & rest & -> & _ & Hup & Hlen).
    split; [split; assumption|].
    exists (pre ++ [40%N]), (41%N :: rest). split; [|reflexivity].
    now rewrite <- app_assoc.
  - split.
    + exact (proj1 (findall_from_sound R text 0 None t Hin)).
    + exact (findall_from_delimited R text 0 None t Hin).
Qed.

(** X2. Whatever [extract_ticker_from_text] returns is a run of one to
    five capitals that stands in the text as it is and ends at a word
    boundary, so it is never the head of a longer word; when it comes
    from neither a dollar sign nor parentheses it has at least two
    letters. *)
Theorem extract_returns_symbol (R : Runtime) (text t : str) :
  extract_ticker_from_text R text = Some t ->
  is_symbol t /\
  delimited_in R t text /\
  ((forall k zs, ~ dollar_ticker_at R text k zs) ->
   (forall k zs, ~ paren_ticker_at text k zs) ->
   (2 <= length t)%nat).
Proof.
  intros H. destruct (extract_sound R text t H) as [Hs Hd].
  split; [exact Hs|]. split; [exact Hd|].
  intros Hnd Hnp.
  apply extract_cases in H as [[i Hi]|[[_ [i Hi]]|(_ & _ & _ & Hlen)]].
  - now apply Hnd in Hi.
  - now apply Hnp in Hi.
  - exact Hlen.
Qed.

(** The symbol of a plain question. *)
Lemma extract_returns_symbol_witness : is_symbol (lit "TSLA").
Proof.
  apply (extract_returns_symbol ascii_tables (lit "What about TSLA today?") (lit "TSLA")).
  vm_compute. reflexivity.
Defined.

(** X3. A text without any capital letter yields no symbol. *)
Theorem extract_without_capitals (R : Runtime) (text : str) :
  forallb (fun c => negb (is_upper c)) text = true ->
  extract_ticker_from_text R text = None.
Proof.
  intros Hlow. destruct (extract_ticker_from_text R text) as [t|] eqn:E; [|reflexivity].
  exfalso. destruct (extract_sound R text t E) as [[Hup Hlen] (pre & rest & -> & _)].
  destruct t as [|c t]; [simpl in Hlen; lia|].
  rewrite forallb_app in Hlow. apply andb_prop in Hlow as [_ Hlow].
  simpl in Hlow, Hup.
  apply andb_prop in Hlow as [Hc _]. apply andb_prop in Hup as [Hc' _].
  rewrite Hc' in Hc. discriminate.
Qed.

(** A question in lower case. *)
Lemma extract_without_capitals_witness :
  extract_ticker_from_text ascii_tables (lit "tell me about tesla") = None.
Proof.
  apply extract_without_capitals. vm_compute. reflexivity.
Defined.

(** X4. A symbol that the extractor returned is found again when it is
    written with a dollar sign. *)
Theorem extract_dollar_round_trip (R : Runtime) (text t : str) :
  extract_ticker_from_text R text = Some t ->
  extract_ticker_from_text R (36%N :: t) = Some t.
Proof.
  intros H. destruct (extract_sound R text t H) as [[Hup Hlen] _].
  pose proof (group_boundary_complete R t [] Hup Hlen eq_refl) as Hg.
  rewrite app_nil_r in Hg.
  unfold extract_ticker_from_text. simpl search_dollar.
  rewrite Hg. now rewrite (str_upper_capitals R t Hup).
Qed.

(** From a question to the dollar form of its symbol. *)
Lemma extract_dollar_round_trip_witness :
  extract_ticker_from_text ascii_tables (lit "$TSLA") = Some (lit "TSLA").
Proof.
  apply (extract_dollar_round_trip ascii_tables (lit "What about TSLA today?") (lit "TSLA")).
  vm_compute. reflexivity.
Defined.

(* ===================================================================== *)
(** * The events of a computation                                         *)
(* ===================================================================== *)

Section TraceFacts.

Context {A B : Type}.

Lemma trace_bind (m : M A) (f : A -> M B) :
  trace (bind m f)
  = trace m ++ match outcome m with
               | Ok a => trace (f a)
               | Raise _ => []
               end.
Proof.
  destruct m as [tr [a|e]]; simpl.
  - now destruct (f a).
  - now rewrite app_nil_r.
Qed.

Lemma trace_try_except (body : M A) (h : exn -> M A) :
  trace (try_except body h)
  = trace body ++ match outcome body with
                  | Ok _ => []
                  | Raise e => trace (h e)
                  end.
Proof.
  destruct body as [tr [a|e]]; simpl.
  - now rewrite app_nil_r.
  - now destruct (h e).
Qed.

Lemma trace_call (ev : event) (r : result A) : trace (call ev r) = [ev].
Proof. reflexivity. Qed.

Lemma trace_lift (r : result A) : trace (lift r) = [].
Proof. reflexivity. Qed.

Lemma trace_ret (a : A) : trace (ret a) = [].
Proof. reflexivity. Qed.

(** A step without events leaves the events to what follows. *)
Lemma trace_bind_lift (r : result A) (f : A -> M B) :
  trace (bind (lift r) f)
  = match r with
    | Ok a => trace (f a)
    | Raise _ => []
    end.
Proof. rewrite trace_bind, trace_lift, outcome_lift. reflexivity. Qed.

Lemma pair_trace_outcome (m : M A) : m = (trace m, outcome m).
Proof. now destruct m. Qed.

End TraceFacts.

Lemma get_stock_history_trace (W : World) (t p i : str) :
  trace (get_stock_history W t p i) = [CallHistory t p i].
Proof.
  unfold get_stock_history. rewrite trace_try_except, trace_bind, trace_call, outcome_bind,
    outcome_call.
  destruct (yf_history W t p i) as [[rows|]|e]; cbv beta iota; try reflexivity.
  destruct (df_empty (frame_of_rows rows)); [reflexivity|].
  rewrite trace_bind_lift, outcome_bind, outcome_lift.
  destruct (reset_index (frame_of_rows rows)); reflexivity.
Qed.

Lemma get_latest_news_trace (W : World) (t : str) (count : Z) :
  trace (get_latest_news W t count) = [CallNews t].
Proof.
  unfold get_latest_news. rewrite trace_try_except, trace_bind, trace_call, outcome_bind,
    outcome_call.
  destruct (yf_news W t) as [[[|n news]|]|e]; reflexivity.
Qed.

(** Once the record is there, the rest of the profile fetch calls no
    one. *)
Lemma get_stock_info_tail_trace (W : World) (query : str) (info : option dict) :
  trace (let* info := lift (info_dict info) in
         let name := py_or (py_or (dict_get info (lit "longName"))
                                  (dict_get info (lit "shortName"))) (PStr query) in
         let current_price := dict_get info (lit "currentPrice") in
         let market_cap := dict_get info (lit "marketCap") in
         let summary := dict_get_or info (lit "longBusinessSummary") (PStr []) in
         let sector := dict_get_or info (lit "sector") (PStr (lit "N/A")) in
         let industry := dict_get_or info (lit "industry") (PStr (lit "N/A")) in
         let sym := dict_get_or info (lit "symbol") (PStr (str_upper W query)) in
         let* price_s := lift (fmt current_price) in
         let* cap_s := lift (fmt market_cap) in
         let* head := lift (subscript_to summary 1500) in
         let* n := lift (py_len summary) in
         let lines := [
           lit "**" ++ py_str W name ++ lit " (" ++ py_str W sym ++ lit ")**";
           lit "Sector: " ++ py_str W sector ++ lit " • Industry: " ++ py_str W industry;
           lit "Price: " ++ price_s;
           lit "Market Cap: " ++ cap_s;
           [];
           lit "Summary:";
           head ++ (if 1500 <? n then lit "..." else [])
         ] in
         ret (join [10%N] lines)) = [].
Proof.
  rewrite trace_bind_lift.
  destruct (info_dict info) as [d|e]; [|reflexivity]. cbv zeta.
  rewrite trace_bind_lift. destruct (fmt _); [|reflexivity].
  rewrite trace_bind_lift. destruct (fmt _); [|reflexivity].
  rewrite trace_bind_lift. destruct (subscript_to _ _); [|reflexivity].
  rewrite trace_bind_lift. destruct (py_len _); [|reflexivity].
  apply trace_ret.
Qed.

(** The events of the profile fetch: one lookup, then at most one search
    and one more lookup. *)
Lemma get_stock_info_trace (W : World) (query : str) :
  trace (get_stock_info W query)
  = CallInfo (str_upper W query)
    :: match yf_info W (str_upper W query) with
       | Raise _ => []
       | Ok info =>
           if decide (is_Some (default ∅ info !! lit "shortName")) then []
           else CallSearch query
                :: match yf_search W query with
                   | Ok (Some (q :: _)) =>
                       match symbol q with
                       | Some best => [CallInfo best]
                       | None => []
                       end
                   | _ => []
                   end
       end.
Proof.
  unfold get_stock_info. rewrite trace_try_except.
  replace (match outcome (get_stock_info_body W query) with
           | Ok _ => []
           | Raise e => trace (ret (lit "Couldn't fetch info for '" ++ query
                                      ++ lit "'. Error: " ++ exn_text e))
           end) with (@nil event)
    by (destruct (outcome (get_stock_info_body W query)); reflexivity).
  rewrite app_nil_r.
  unfold get_stock_info_body. rewrite trace_bind, trace_call, outcome_call.
  cbn [app]. f_equal.
  destruct (yf_info W (str_upper W query)) as [info|e]; [|reflexivity].
  cbv beta iota zeta. rewrite trace_bind.
  destruct (decide (is_Some (default ∅ info !! lit "shortName"))) as [Hs|Hs].
  - rewrite trace_ret. cbn [app].
    change (outcome (ret (Some (default ∅ info)))) with (Ok (Some (default (∅ : dict) info))).
    cbv beta iota. apply get_stock_info_tail_trace.
  - rewrite trace_bind, trace_call, outcome_bind, outcome_call.
    rewrite <- app_assoc. cbn [app]. f_equal.
    destruct (yf_search W query) as [[[|q qs]|]|e]; cbv beta iota.
    + rewrite trace_ret. cbn [app].
      change (outcome (ret (Some (default ∅ info)))) with (Ok (Some (default (∅ : dict) info))).
      cbv beta iota. apply get_stock_info_tail_trace.
    + rewrite trace_bind_lift, outcome_bind, outcome_lift. unfold quote_symbol.
      destruct (symbol q) as [best|]; cbv beta iota; [|reflexivity].
      rewrite trace_call, outcome_call. cbn [app]. f_equal.
      destruct (yf_info W best); cbv beta iota; [apply get_stock_info_tail_trace|reflexivity].
    + rewrite trace_ret. cbn [app].
      change (outcome (ret (Some (default ∅ info)))) with (Ok (Some (default (∅ : dict) info))).
      cbv beta iota. apply get_stock_info_tail_trace.
    + reflexivity.
Qed.

(* ===================================================================== *)
(** * Resolution and the three fetches                                    *)
(* ===================================================================== *)

(** X5. The provider is searched only when the extractor finds nothing:
    a symbol that the extractor returns is the resolved symbol, without
    any call; otherwise the whole input is searched once and the symbol
    of the first candidate is taken. *)
Theorem resolve_spec (W : World) (user_input : str) :
  (forall t, extract_ticker_from_text W user_input = Some t ->
             resolve W user_input = ([], Ok (Some t))) /\
  (extract_ticker_from_text W user_input = None ->
   trace (resolve W user_input) = [CallSearch user_input] /\
   forall q qs s,
     yf_search W user_input = Ok (Some (q :: qs)) -> symbol q = Some s ->
     outcome (resolve W user_input) = Ok (Some s)).
Proof.
  split.
  - intros t Ht. destruct (extract_sound W user_input t Ht) as [[_ Hlen] _].
    unfold resolve. rewrite Ht.
    destruct t as [|c t]; [simpl in Hlen; lia|]. reflexivity.
  - intros He. unfold resolve. rewrite He. cbn [opt_truthy]. cbv iota. split.
    + rewrite trace_try_except, trace_bind, trace_call, outcome_bind, outcome_call.
      destruct (yf_search W user_input) as [[[|q qs]|]|e]; try reflexivity.
      cbv beta iota. unfold quote_symbol. destruct (symbol q); reflexivity.
    + intros q qs s Hs Hq.
      rewrite outcome_try_except, outcome_bind, outcome_call, Hs. cbv beta iota.
      unfold quote_symbol. rewrite Hq. reflexivity.
Qed.

(** A question that names its ticker. *)
Lemma resolve_spec_witness :
  resolve Scenario.offline (lit "What about TSLA today?") = ([], Ok (Some (lit "TSLA"))).
Proof.
  apply (proj1 (resolve_spec Scenario.offline (lit "What about TSLA today?"))).
  vm_compute. reflexivity.
Defined.

(** The fetches on a resolved symbol, from what each one returns. *)
Lemma fetch_resolved (W : World) (sym info news : str) (hist : option DataFrame) :
  sym <> [] ->
  outcome (get_stock_info W sym) = Ok info ->
  outcome (get_stock_history W sym (lit "1y") (lit "1d")) = Ok hist ->
  outcome (get_latest_news W sym 5) = Ok news ->
  fetch W (Some sym)
  = (UiSpinner (lit "Fetching data for " ++ sym ++ lit "...")
       :: trace (get_stock_info W sym)
       ++ [CallHistory sym (lit "1y") (lit "1d"); CallNews sym],
     Ok (mk_fetched (Some info) hist (Some news))).
Proof.
  intros Hne Hi Hh Hn. destruct sym as [|c t]; [congruence|].
  pose proof (get_stock_history_trace W (c :: t) (lit "1y") (lit "1d")) as Hht.
  pose proof (get_latest_news_trace W (c :: t) 5) as Hnt.
  unfold fetch.
  rewrite (pair_trace_outcome (get_stock_info W (c :: t))), Hi.
  rewrite (pair_trace_outcome (get_stock_history W (c :: t) (lit "1y") (lit "1d"))), Hh, Hht.
  rewrite (pair_trace_outcome (get_latest_news W (c :: t) 5)), Hn, Hnt.
  cbn [bind try_except emit ret app].
  rewrite app_nil_r. reflexivity.
Qed.

(** X6. For a resolved symbol all three fetches are attempted, in the
    order profile, history, news, each on that symbol, whatever the
    provider does: the profile and the news always come back as text and
    the history as a frame or none.  What is logged is the progress
    message, the calls of the profile fetch, one history call and one
    news call; the warning of the surrounding handler is never shown. *)
Theorem fetch_attempts_all (W : World) (sym : str) :
  sym <> [] ->
  exists info hist news,
    outcome (get_stock_info W sym) = Ok info /\
    outcome (get_stock_history W sym (lit "1y") (lit "1d")) = Ok hist /\
    outcome (get_latest_news W sym 5) = Ok news /\
    fetch W (Some sym)
    = (UiSpinner (lit "Fetching data for " ++ sym ++ lit "...")
         :: trace (get_stock_info W sym)
         ++ [CallHistory sym (lit "1y") (lit "1d"); CallNews sym],
       Ok (mk_fetched (Some info) hist (Some news))).
Proof.
  intros Hne.
  destruct (get_stock_info_returns W sym) as [info Hi].
  destruct (get_stock_history_returns W sym (lit "1y") (lit "1d")) as [hist Hh].
  destruct (get_latest_news_returns W sym 5) as [news Hn].
  exists info, hist, news. repeat split; try assumption.
  now apply fetch_resolved.
Qed.

(** The fetches for AAPL against a provider that is down. *)
Lemma fetch_attempts_all_witness :
  exists info hist news,
    outcome (fetch Scenario.offline (Some (lit "AAPL")))
    = Ok (mk_fetched (Some info) hist (Some news)).
Proof.
  destruct (fetch_attempts_all Scenario.offline (lit "AAPL") ltac:(discriminate))
    as (info & hist & news & _ & _ & _ & H).
  exists info, hist, news. rewrite H. reflexivity.
Defined.

(** X7. The profile fetch calls the provider at most three times: one
    lookup of the upper-cased query; only when the record has no
    [shortName], one search of the query as typed; and only when the
    search has a candidate with a symbol, one lookup of that symbol. *)
Theorem get_stock_info_calls (W : World) (query : str) :
  (forall info,
      yf_info W (str_upper W query) = Ok info ->
      is_Some (default ∅ info !! lit "shortName") ->
      trace (get_stock_info W query) = [CallInfo (str_upper W query)]) /\
  (trace (get_stock_info W query) = [CallInfo (str_upper W query)] \/
   trace (get_stock_info W query) = [CallInfo (str_upper W query); CallSearch query] \/
   exists best,
     trace (get_stock_info W query)
     = [CallInfo (str_upper W query); CallSearch query; CallInfo best]).
Proof.
  rewrite get_stock_info_trace. split.
  - intros info Hi Hs. rewrite Hi.
    destruct (decide (is_Some (default ∅ info !! lit "shortName"))); [reflexivity|contradiction].
  - destruct (yf_info W (str_upper W query)) as [info|e]; [|now left].
    destruct (decide _); [now left|].
    destruct (yf_search W query) as [[[|q qs]|]|e]; try (right; left; reflexivity).
    destruct (symbol q) as [best|]; [|right; left; reflexivity].
    right. right. now exists best.
Qed.

(** The profile of a symbol that the provider knows: a single call. *)
Lemma get_stock_info_calls_witness :
  trace (get_stock_info Scenario.apple (lit "aapl")) = [CallInfo (lit "AAPL")].
Proof.
  apply (proj1 (get_stock_info_calls Scenario.apple (lit "aapl")) (Some Scenario.apple_info)).
  - vm_compute. reflexivity.
  - vm_compute. eauto.
Defined.

(* ===================================================================== *)
(** * What is shown under the reply                                       *)
(* ===================================================================== *)

Lemma startswith_app (p x : str) : startswith p (p ++ x) = true.
Proof.
  induction p as [|c p IH]; [reflexivity|].
  simpl. now rewrite N.eqb_refl, IH.
Qed.

Lemma str_lower_app (W : World) (a b : str) :
  str_lower W (a ++ b) = str_lower W a ++ str_lower W b.
Proof. unfold str_lower. now rewrite map_app, concat_app. Qed.

(** The error string of the news fetch is recognised as such. *)
Lemma news_error_recognised (W : World) (e : exn) :
  lower_startswith W (lit "error") (news_error e) = true /\
  opt_truthy (Some (news_error e)) = true.
Proof.
  unfold lower_startswith, news_error. rewrite str_lower_app.
  assert (Hp : str_lower W (lit "Error fetching news: ")
               = lit "error" ++ lit " fetching news: ") by (vm_compute; reflexivity).
  rewrite Hp, <- app_assoc. split; [apply startswith_app|].
  assert (Hq : lit "Error fetching news: " = 69%N :: lit "rror fetching news: ")
    by (vm_compute; reflexivity).
  rewrite Hq. reflexivity.
Qed.

(** A text that starts with a digit is neither an error string nor the
    no-news message. *)
Lemma digit_head_not_recognised (W : World) (p s : str) :
  p = lit "error" \/ p = lit "no recent news" ->
  lower_startswith W p (49%N :: s) = false.
Proof.
  intros Hp. unfold lower_startswith, str_lower. cbn [map concat].
  change (char_lower W 49%N) with [49%N]. cbn [app].
  destruct Hp as [-> | ->].
  - replace (lit "error") with (101%N :: lit "rror") by (vm_compute; reflexivity).
    reflexivity.
  - replace (lit "no recent news") with (110%N :: lit "o recent news")
      by (vm_compute; reflexivity).
    reflexivity.
Qed.

(** The news block when no sentiment is requested. *)
Lemma show_news_quiet (W : World) (sym : str) (news_md : option str) :
  opt_truthy news_md
  && negb (lower_startswith W (lit "no recent news") (default [] news_md))
  && negb (lower_startswith W (lit "error") (default [] news_md)) = false ->
  show_news W sym news_md
  = ([ news_header;
       if opt_truthy news_md && negb (lower_startswith W (lit "error") (default [] news_md))
       then UiMarkdown (default [] news_md) else news_placeholder ], Ok tt).
Proof.
  intros H. unfold show_news. cbv zeta. rewrite H.
  destruct (opt_truthy news_md && negb (lower_startswith W (lit "error") (default [] news_md)));
    reflexivity.
Qed.

(** The news block when the sentiment is requested. *)
Lemma show_news_sentiment (W : World) (sym : str) (news_md : option str) :
  opt_truthy news_md = true ->
  lower_startswith W (lit "no recent news") (default [] news_md) = false ->
  lower_startswith W (lit "error") (default [] news_md) = false ->
  show_news W sym news_md
  = ([ news_header;
       UiMarkdown (default [] news_md);
       UiSpinner (lit "Analyzing news sentiment with AI...");
       CallChat (sentiment_request sym (default [] news_md)) ]
     ++ match chat_create W (sentiment_request sym (default [] news_md)) with
        | Ok verdict => [ UiMarkdown (lit "**🧠 Sentiment analysis (AI):**");
                          UiMarkdown verdict ]
        | Raise e => [ UiWarning (lit "Could not run sentiment analysis: " ++ exn_text e) ]
        end,
     Ok tt).
Proof.
  intros H1 H2 H3. unfold show_news. cbv zeta. rewrite H1, H2, H3.
  cbn [andb negb]. unfold call.
  destruct (chat_create W (sentiment_request sym (default [] news_md))); reflexivity.
Qed.

(** X8. When the provider has no headline for the symbol, or raises, no
    sentiment is requested from the language model: the no-news message
    is shown as it is, and in place of the error string the placeholder
    is shown.  The same holds for an empty list of entries. *)
Theorem no_sentiment_without_news (W : World) (sym : str) (count : Z) :
  (forall e,
      yf_news W sym = Raise e ->
      outcome (get_latest_news W sym count) = Ok (news_error e) /\
      show_news W sym (Some (news_error e)) = ([news_header; news_placeholder], Ok tt)) /\
  (yf_news W sym = Ok None \/ yf_news W sym = Ok (Some []) ->
   outcome (get_latest_news W sym count) = Ok (lit "No recent news found.") /\
   show_news W sym (Some (lit "No recent news found."))
   = ([news_header; UiMarkdown (lit "No recent news found.")], Ok tt)) /\
  show_news W sym (Some []) = ([news_header; news_placeholder], Ok tt).
Proof.
  split; [|split].
  - intros e He. split.
    + unfold get_latest_news. rewrite outcome_try_except, outcome_bind, outcome_call, He.
      reflexivity.
    + destruct (news_error_recognised W e) as [Herr Htruthy].
      rewrite show_news_quiet;
        change (default [] (Some (news_error e))) with (news_error e).
      * now rewrite Htruthy, Herr.
      * rewrite Herr. cbn [negb]. apply andb_false_r.
  - intros Hn. split.
    + unfold get_latest_news. rewrite outcome_try_except, outcome_bind, outcome_call.
      destruct Hn as [-> | ->]; reflexivity.
    + assert (H1 : lower_startswith W (lit "no recent news") (lit "No recent news found.")
                   = true) by (vm_compute; reflexivity).
      assert (H2 : lower_startswith W (lit "error") (lit "No recent news found.") = false)
        by (vm_compute; reflexivity).
      assert (H3 : opt_truthy (Some (lit "No recent news found.")) = true)
        by (vm_compute; reflexivity).
      rewrite show_news_quiet;
        change (default [] (Some (lit "No recent news found.")))
          with (lit "No recent news found.").
      * now rewrite H3, H2.
      * now rewrite H3, H1, H2.
  - now rewrite show_news_quiet.
Qed.

(** The news block when the provider is down. *)
Lemma no_sentiment_without_news_witness :
  show_news Scenario.offline (lit "AAPL") (Some (news_error Scenario.connection_error))
  = ([news_header; news_placeholder], Ok tt).
Proof.
  apply (proj1 (no_sentiment_without_news Scenario.offline (lit "AAPL") 5)
           Scenario.connection_error).
  reflexivity.
Defined.

(** X9. When the provider has headlines, the text that [get_latest_news]
    returns for the five first of them is shown, and the sentiment is
    requested for exactly that text.  The verdict is shown under its
    heading; when the request raises, a warning is shown instead and the
    run goes on. *)
Theorem sentiment_follows_news (W : World) (sym : str) (n : news_item)
    (news : list news_item) :
  yf_news W sym = Ok (Some (n :: news)) ->
  exists news_md,
    outcome (get_latest_news W sym 5) = Ok news_md /\
    show_news W sym (Some news_md)
    = ([ news_header;
         UiMarkdown news_md;
         UiSpinner (lit "Analyzing news sentiment with AI...");
         CallChat (sentiment_request sym news_md) ]
       ++ match chat_create W (sentiment_request sym news_md) with
          | Ok verdict => [ UiMarkdown (lit "**🧠 Sentiment analysis (AI):**");
                            UiMarkdown verdict ]
          | Raise e => [ UiWarning (lit "Could not run sentiment analysis: " ++ exn_text e) ]
          end,
       Ok tt).
Proof.
  intros Hn. eexists. split; [exact (get_latest_news_nonempty W sym 5 n news Hn)|].
  assert (Hs : slice_to (n :: news) 5 = n :: firstn 4 news) by reflexivity.
  pose proof (news_list_head (slice_to (n :: news) 5) ltac:(rewrite Hs; discriminate)) as Hh.
  destruct (join [10%N; 10%N] (enumerate_map format_news_item 1 (slice_to (n :: news) 5)))
    as [|c s]; [discriminate|].
  injection Hh as ->.
  apply show_news_sentiment.
  - reflexivity.
  - apply digit_head_not_recognised. now right.
  - apply digit_head_not_recognised. now left.
Qed.

(** The news block for two headlines. *)
Lemma sentiment_follows_news_witness :
  exists news_md,
    In (CallChat (sentiment_request (lit "AAPL") news_md))
       (trace (show_news Scenario.apple (lit "AAPL") (Some news_md))).
Proof.
  destruct (sentiment_follows_news Scenario.apple (lit "AAPL")
              (Scenario.headline (lit "Apple unveils new chip") (lit "Reuters")
                 (lit "https://example.com/1"))
              [Scenario.headline (lit "Apple shares slip") (lit "Bloomberg")
                 (lit "https://example.com/2")] eq_refl) as (news_md & _ & H).
  exists news_md. rewrite H. unfold trace. cbn [fst].
  right. right. right. left. reflexivity.
Defined.

(** X10. The chart always finds its columns in what the history fetch
    returns: for a series with rows, the dates and the closing prices of
    the provider are plotted; for no frame, no rows or an exception, the
    placeholder is shown.  The chart never raises. *)
Theorem chart_follows_history (W : World) (ticker period interval : str) :
  match yf_history W ticker period interval with
  | Ok (Some (r :: rows)) =>
      exists df,
        outcome (get_stock_history W ticker period interval) = Ok (Some df) /\
        show_chart (Some df)
        = ([ chart_header;
             UiLineChart (map (fun r => CDate (row_date r)) (r :: rows))
                         (map (fun r => CNum (row_close r)) (r :: rows)) ], Ok tt)
  | _ =>
      outcome (get_stock_history W ticker period interval) = Ok None /\
      show_chart None = ([chart_placeholder], Ok tt)
  end.
Proof.
  unfold get_stock_history. rewrite outcome_try_except, outcome_bind, outcome_call.
  destruct (yf_history W ticker period interval) as [[[|r rows]|]|e];
    try (split; reflexivity).
  cbv beta iota.
  replace (df_empty (frame_of_rows (r :: rows))) with false by reflexivity.
  rewrite outcome_bind, outcome_lift, reset_index_provider_frame.
  eexists. split; [reflexivity|]. reflexivity.
Qed.

(* ===================================================================== *)
(** * The session over several runs                                       *)
(* ===================================================================== *)

Lemma show_messages_spec (log : list message) :
  show_messages log = (map (fun m => UiChatMessage (role m) (content m)) log, Ok tt).
Proof.
  induction log as [|m log IH]; [reflexivity|].
  simpl show_messages. rewrite IH. reflexivity.
Qed.

(** X11. A run without submitted text (none, or the empty text) shows
    every entry of the log, in order, and leaves the log as it is; on the
    first run the log is the greeting. *)
Theorem rerun_without_input (W : World) (session : option (list message))
    (user_input : option str) :
  submitted user_input = None ->
  run_script W session user_input
  = (default [greeting] session,
     (map (fun m => UiChatMessage (role m) (content m)) (default [greeting] session),
      Ok tt)).
Proof.
  intros H. unfold run_script.
  destruct user_input as [[|c s]|]; try discriminate H;
    now rewrite show_messages_spec.
Qed.

(** The first run of a session. *)
Lemma rerun_without_input_witness :
  fst (run_script Scenario.quiet None None) = [greeting].
Proof.
  rewrite (rerun_without_input Scenario.quiet None None eq_refl). reflexivity.
Defined.

(** One run: the log grows by the turn of the submitted text, if any. *)
Lemma run_script_log (W : World) (log : list message) (user_input : option str) :
  exists added : list (str * str),
    fst (run_script W (Some log) user_input)
    = log ++ concat (map (fun t => [user_message (fst t); assistant_message (snd t)]) added) /\
    map fst added = match submitted user_input with Some u => [u] | None => [] end.
Proof.
  unfold run_script. change (default [greeting] (Some log)) with log.
  destruct user_input as [[|c s]|].
  - exists []. split; [now rewrite app_nil_r|reflexivity].
  - destruct (answer_returns W (c :: s)) as [[[resolved data] reply] Hret].
    destruct (answer W (c :: s)) as [tr r] eqn:Ha. simpl in Hret. subst r.
    rewrite (handle_turn_spec W log (c :: s) tr resolved data reply Ha).
    exists [(c :: s, reply)]. split; reflexivity.
  - exists []. split; [now rewrite app_nil_r|reflexivity].
Qed.

Lemma log_of_turns_app (turns added : list (str * str)) :
  log_of_turns turns
    ++ concat (map (fun t => [user_message (fst t); assistant_message (snd t)]) added)
  = log_of_turns (turns ++ added).
Proof. unfold log_of_turns. now rewrite map_app, concat_app. Qed.

Lemma run_session_from_log (runs : list (World * option str)) :
  forall turns0,
  exists turns,
    run_session (Some (log_of_turns turns0)) runs = Some (log_of_turns (turns0 ++ turns)) /\
    map fst turns = omap (fun r => submitted (snd r)) runs.
Proof.
  induction runs as [|[W user_input] runs IH]; intros turns0.
  - exists []. split; [now rewrite app_nil_r|reflexivity].
  - destruct (run_script_log W (log_of_turns turns0) user_input) as (added & Hlog & Hadded).
    simpl run_session. rewrite Hlog, log_of_turns_app.
    destruct (IH (turns0 ++ added)) as (turns & Hrun & Hturns).
    exists (added ++ turns). split.
    + now rewrite app_assoc.
    + rewrite map_app, Hadded, Hturns. simpl omap.
      destruct (submitted user_input); reflexivity.
Qed.

(** X12. Over any number of runs, whatever the provider and the model do
    in each, the log is the greeting followed by one pair of entries per
    submitted text: the texts as submitted, in the order of submission,
    each followed by one assistant entry.  Nothing is ever removed or
    rewritten. *)
Theorem session_log_shape (runs : list (World * option str)) :
  runs <> [] ->
  exists turns,
    run_session None runs = Some (log_of_turns turns) /\
    map fst turns = omap (fun r => submitted (snd r)) runs /\
    length (log_of_turns turns)
    = (1 + 2 * length (omap (fun r => submitted (snd r)) runs))%nat.
Proof.
  intros Hne. destruct runs as [|[W user_input] runs]; [congruence|].
  destruct (run_session_from_log ((W, user_input) :: runs) []) as (turns & Hrun & Hturns).
  exists turns. split; [exact Hrun|]. split; [exact Hturns|].
  rewrite <- Hturns, length_map. unfold log_of_turns. simpl length. f_equal.
  clear. induction turns as [|t turns IH]; [reflexivity|].
  simpl. rewrite IH. lia.
Qed.

(** Three runs: a look, a question, an empty submission. *)
Lemma session_log_shape_witness :
  exists turns,
    run_session None [(Scenario.quiet, None); (Scenario.apple, Some (lit "What about AAPL?"));
                      (Scenario.offline, Some [])]
    = Some (log_of_turns turns) /\
    map fst turns = [lit "What about AAPL?"].
Proof.
  destruct (session_log_shape
              [(Scenario.quiet, None); (Scenario.apple, Some (lit "What about AAPL?"));
               (Scenario.offline, Some [])] ltac:(discriminate))
    as (turns & Hrun & Hturns & _).
  exists turns. split; [exact Hrun|]. rewrite Hturns.
  vm_compute. reflexivity.
Defined.

(* ===================================================================== *)
(** * Configuration: the key that is found                                *)
(* ===================================================================== *)

(** What [config] does, from the value of the variable once the [.env]
    file is loaded. *)
Lemma config_cases (env : Config.environ) (dotenv : option Config.environ) :
  match snd (Config.load_dotenv env dotenv) !! lit "OPENAI_API_KEY" with
  | Some (c :: key) =>
      outcome (Config.config env dotenv) = Ok (c :: key) /\
      Forall (fun ev => exists line, ev = Print line /\ config_line (c :: key) line)
             (trace (Config.config env dotenv))
  | _ => outcome (Config.config env dotenv) = Raise (ValueError Config.missing_key_message)
  end.
Proof.
  unfold Config.config. destruct (Config.load_dotenv env dotenv) as [loaded env'].
  change (snd (loaded, env')) with env'.
  unfold bind, ret, emit, raise, outcome, trace.
  destruct (env' !! lit "OPENAI_API_KEY") as [[|c key]|] eqn:E;
    destruct loaded; cbn [fst snd app]; try reflexivity.
  - split; [reflexivity|]. unfold config_line.
    apply Forall_cons. split; [eexists; split; [reflexivity|right; left; reflexivity]|].
    apply Forall_cons. split; [eexists; split; [reflexivity|right; right; reflexivity]|].
    apply Forall_nil_2.
  - split; [reflexivity|]. unfold config_line.
    apply Forall_cons. split; [eexists; split; [reflexivity|left; reflexivity]|].
    apply Forall_cons. split; [eexists; split; [reflexivity|right; left; reflexivity]|].
    apply Forall_cons. split; [eexists; split; [reflexivity|right; right; reflexivity]|].
    apply Forall_nil_2.
Qed.

(** X13. [config] yields a key exactly when, once the [.env] file is
    loaded, the variable holds a text that is not empty, and the key is
    that text; in every other case, a variable set to the empty text
    included, it raises the error of the missing key. *)
Theorem config_key_iff (env : Config.environ) (dotenv : option Config.environ) (key : str) :
  (outcome (Config.config env dotenv) = Ok key <->
   snd (Config.load_dotenv env dotenv) !! lit "OPENAI_API_KEY" = Some key /\ key <> []) /\
  ((forall k, outcome (Config.config env dotenv) <> Ok k) ->
   outcome (Config.config env dotenv) = Raise (ValueError Config.missing_key_message)) /\
  (snd (Config.load_dotenv env dotenv) !! lit "OPENAI_API_KEY" = Some [] ->
   outcome (Config.config env dotenv) = Raise (ValueError Config.missing_key_message)).
Proof.
  pose proof (config_cases env dotenv) as H.
  destruct (snd (Config.load_dotenv env dotenv) !! lit "OPENAI_API_KEY") as [[|c k]|].
  - rewrite H. split; [split|split].
    + discriminate.
    + intros [Heq Hk]. injection Heq as <-. congruence.
    + reflexivity.
    + reflexivity.
  - destruct H as [H _]. rewrite H. split; [split|split].
    + intros Hk. injection Hk as <-. split; [reflexivity|discriminate].
    + intros [Hk _]. now injection Hk as <-.
    + intros Hno. now destruct (Hno (c :: k)).
    + discriminate.
  - rewrite H. split; [split|split].
    + discriminate.
    + intros [Heq _]. discriminate.
    + reflexivity.
    + reflexivity.
Qed.

(** A key that only the [.env] file defines. *)
Lemma config_key_iff_witness :
  outcome (Config.config ∅ (Some {[ lit "OPENAI_API_KEY" := lit "sk-test-123" ]}))
  = Ok (lit "sk-test-123").
Proof.
  apply (proj1 (config_key_iff ∅ (Some {[ lit "OPENAI_API_KEY" := lit "sk-test-123" ]})
                  (lit "sk-test-123"))).
  split; [vm_compute; reflexivity|discriminate].
Defined.

(** X14. A key that the process defines wins over the [.env] file, and
    of the key only the first four characters are ever printed: every
    line that [config] prints is the warning about the file, the
    confirmation, or the masked key. *)
Theorem config_process_key (env : Config.environ) (dotenv : option Config.environ)
    (key : str) :
  env !! lit "OPENAI_API_KEY" = Some key -> key <> [] ->
  outcome (Config.config env dotenv) = Ok key /\
  Forall (fun ev => exists line, ev = Print line /\ config_line key line)
         (trace (Config.config env dotenv)).
Proof.
  intros He Hk.
  assert (Heff : snd (Config.load_dotenv env dotenv) !! lit "OPENAI_API_KEY" = Some key).
  { destruct dotenv as [file|]; [|exact He].
    change (snd (Config.load_dotenv env (Some file))) with (env ∪ file).
    now apply lookup_union_Some_l. }
  pose proof (config_cases env dotenv) as H. rewrite Heff in H.
  destruct key as [|c key]; [congruence|]. exact H.
Qed.

(** A process key and a different key in the file. *)
Lemma config_process_key_witness :
  outcome (Config.config {[ lit "OPENAI_API_KEY" := lit "sk-process" ]}
             (Some {[ lit "OPENAI_API_KEY" := lit "sk-file" ]}))
  = Ok (lit "sk-process").
Proof.
  apply (config_process_key {[ lit "OPENAI_API_KEY" := lit "sk-process" ]}
           (Some {[ lit "OPENAI_API_KEY" := lit "sk-file" ]}) (lit "sk-process")).
  - vm_compute. reflexivity.
  - discriminate.
Defined.

(* ===================================================================== *)
(** * The fallback of the metric tiles                                    *)
(* ===================================================================== *)

(** X15. [safe_fmt] turns every failure into its fallback: a text in a
    percent tile, and an integer too large for a float, show the
    fallback.  A text in a plain tile is shown as it is; an integer below
    2^53 is shown with thousands separators and two decimals; a float in
    a percent tile is shown times 100, with two decimals and the percent
    sign. *)
Theorem safe_fmt_edges (W : World) (fallback : str) :
  (forall s, safe_fmt W (PStr s) fallback true = fallback) /\
  (forall s, safe_fmt W (PStr s) fallback false = s) /\
  (forall z, PyFloat.is_finite (PyFloat.of_Z z) = false ->
             safe_fmt W (PInt z) fallback false = fallback) /\
  (forall z, PyFloat.is_finite (PyFloat.of_Z (z * 100)) = false ->
             safe_fmt W (PInt z) fallback true = fallback) /\
  (forall z, Z.abs z < 2 ^ 53 ->
             safe_fmt W (PInt z) fallback false = PyFloat.format_2f true (PyFloat.of_Z z)) /\
  (forall x, safe_fmt W (PFloat x) fallback true
             = PyFloat.format_2f false (PyFloat.mul x PyFloat.f100) ++ lit "%").
Proof.
  repeat split.
  - intros z H. unfold safe_fmt, py_format_2f, PyFloat.of_int, rbind. now rewrite H.
  - intros z H. unfold safe_fmt, times100, py_format_2f, PyFloat.of_int, rbind.
    now rewrite H.
  - intros z H. unfold safe_fmt, py_format_2f, rbind.
    now rewrite (PyFloatFacts.of_int_small z H).
Qed.

(** An integer beyond the range of a float, in a plain tile. *)
Lemma safe_fmt_edges_witness :
  safe_fmt Scenario.quiet (PInt (10 ^ 400)) (lit "N/A") false = lit "N/A".
Proof.
  apply (proj1 (proj2 (proj2 (safe_fmt_edges Scenario.quiet (lit "N/A"))))).
  vm_compute. reflexivity.
Defined.

(* ===================================================================== *)
(** * The symbol extractor: rule 3                                        *)
(* ===================================================================== *)

Section ExtractorTokens.

Variable R : Runtime.

Lemma left_of_cons (prev : option char) (c : char) (pre : str) :
  left_of prev (c :: pre) = left_of (Some c) pre.
Proof. unfold left_of. rewrite last_cons. now destruct (last pre). Qed.

Lemma capitals_head (xs rest : str) :
  forallb is_upper xs = true -> (1 <= length xs)%nat ->
  word_of R (head (xs ++ rest)) = true.
Proof.
  destruct xs as [|c xs]; simpl; [lia|]. intros H _.
  apply andb_prop in H as [Hc _]. now apply is_upper_word.
Qed.

Lemma standalone_after_tail (prev : option char) (c : char) (s xs : str) (i : nat) :
  standalone_after R prev (c :: s) (S i) xs <-> standalone_after R (Some c) s i xs.
Proof.
  split.
  - intros (pre & rest & Heq & Hlen & Hup & Hn & Hl & Hr).
    destruct pre as [|c' pre]; [discriminate|].
    simpl in Heq, Hlen. injection Heq as -> ->. injection Hlen as Hlen.
    rewrite left_of_cons in Hl.
    exists pre, rest. auto 10.
  - intros (pre & rest & -> & Hlen & Hup & Hn & Hl & Hr).
    exists (c :: pre), rest. rewrite left_of_cons. simpl. auto 10.
Qed.

Lemma standalone_after_head (prev : option char) (s xs : str) :
  standalone_after R prev s 0 xs <->
  token_at R prev s = Some xs /\ (2 <= length xs)%nat.
Proof.
  split.
  - intros (pre & rest & Heq & Hlen & Hup & Hn & Hl & Hr).
    destruct pre; [|discriminate]. simpl in Heq. subst s.
    split; [|lia]. unfold token_at, boundary.
    change (left_of prev []) with prev in Hl.
    rewrite Hl, (capitals_head xs rest Hup ltac:(lia)). cbn [xorb].
    apply group_boundary_complete; auto; lia.
  - intros [Ht Hlen]. unfold token_at in Ht.
    destruct (boundary R prev (head s)) eqn:Hb; [|discriminate].
    apply group_boundary_sound in Ht as (rest & -> & Hup & Hn & Hr).
    exists [], rest. repeat split; auto; try lia.
    change (left_of prev []) with prev.
    unfold boundary in Hb. rewrite (capitals_head xs rest Hup ltac:(lia)) in Hb.
    now destruct (word_of R prev).
Qed.

(** The first match of two letters or more is the leftmost standalone
    word. *)
Lemma findall_first_standalone (s : str) : forall prev i xs,
  standalone_after R prev s i xs ->
  (forall k zs, (k < i)%nat -> ~ standalone_after R prev s k zs) ->
  exists tl,
    filter (fun t : str => (1 <? length t)%nat) (findall_from R 0 prev s) = xs :: tl.
Proof.
  induction s as [|c s IH]; intros prev i xs Hx Hmin.
  - destruct Hx as (pre & rest & Heq & _ & _ & Hn & _).
    destruct pre; destruct xs; simpl in *; try discriminate; lia.
  - destruct i as [|i].
    + apply standalone_after_head in Hx as [Ht Hlen].
      simpl findall_from. rewrite Ht. rewrite filter_cons.
      destruct (decide _) as [_|Hno]; [eauto|].
      exfalso. apply Hno. apply Is_true_true, Nat.ltb_lt. lia.
    + assert (Hstep : exists tl,
                 filter (fun t : str => (1 <? length t)%nat) (findall_from R 0 (Some c) s)
                 = xs :: tl).
      { apply (IH (Some c) i xs); [now apply standalone_after_tail in Hx|].
        intros k zs Hk Hz. apply (Hmin (S k) zs); [lia|].
        now apply standalone_after_tail. }
      simpl findall_from.
      destruct (token_at R prev (c :: s)) as [g|] eqn:Ht; [|exact Hstep].
      destruct (Nat.le_gt_cases 2 (length g)) as [Hg|Hg].
      * exfalso. apply (Hmin 0%nat g); [lia|].
        apply standalone_after_head. auto.
      * assert (Hg1 : length g = 1%nat).
        { unfold token_at in Ht. destruct (boundary R prev (head (c :: s))); [|discriminate].
          apply group_boundary_sound in Ht as (rest & _ & _ & Hn & _). lia. }
        rewrite filter_cons. destruct (decide _) as [Hyes|_].
        -- apply Is_true_true, Nat.ltb_lt in Hyes. lia.
        -- rewrite Hg1. exact Hstep.
Qed.

(** A standalone word anywhere makes the list of matches of two
    letters or more non-empty. *)
Lemma findall_some_standalone (s : str) : forall prev i xs,
  standalone_after R prev s i xs ->
  exists g tl,
    filter (fun t : str => (1 <? length t)%nat) (findall_from R 0 prev s) = g :: tl.
Proof.
  induction s as [|c s IH]; intros prev i xs Hx.
  - destruct Hx as (pre & rest & Heq & _ & _ & Hn & _).
    destruct pre; destruct xs; simpl in *; try discriminate; lia.
  - destruct i as [|i].
    + apply standalone_after_head in Hx as [Ht Hlen].
      simpl findall_from. rewrite Ht. rewrite filter_cons.
      destruct (decide _) as [_|Hno]; [eauto|].
      exfalso. apply Hno. apply Is_true_true, Nat.ltb_lt. lia.
    + apply standalone_after_tail in Hx.
      destruct (IH (Some c) i xs Hx) as (g0 & tl0 & Hstep).
      simpl findall_from.
      destruct (token_at R prev (c :: s)) as [g|] eqn:Ht; [|eauto].
      rewrite filter_cons. destruct (decide _) as [_|Hno]; [eauto|].
      assert (Hg1 : length g = 1%nat).
      { assert (~ (1 < length g)%nat)
          by (intros H; apply Hno; now apply Is_true_true, Nat.ltb_lt).
        unfold token_at in Ht. destruct (boundary R prev (head (c :: s))); [|discriminate].
        apply group_boundary_sound in Ht as (rest & _ & _ & Hn & _). lia. }
      rewrite Hg1. eauto.
Qed.

(** Every match of two letters or more is a standalone word. *)
Lemma findall_standalone (s : str) : forall skip prev g,
  In g (findall_from R skip prev s) -> (2 <= length g)%nat ->
  exists i, standalone_after R prev s i g.
Proof.
  induction s as [|c s IH]; intros skip prev g Hin Hlen; [contradiction|].
  assert (Hrest : forall k, In g (findall_from R k (Some c) s) ->
                            exists i, standalone_after R prev (c :: s) i g).
  { intros k H. destruct (IH k (Some c) g H Hlen) as [i Hi].
    exists (S i). now apply standalone_after_tail. }
  simpl in Hin. destruct skip as [|k]; [|eauto].
  destruct (token_at R prev (c :: s)) as [g'|] eqn:Ht; [|eauto].
  destruct Hin as [<-|Hin]; [|eauto].
  exists 0%nat. apply standalone_after_head. auto.
Qed.

End ExtractorTokens.

(** X16. When the text holds neither a dollar-sign ticker nor a
    parenthesised one, the leftmost word of two to five capitals that
    stands on its own (no letter, digit or underscore right before or
    after it) is returned; single capitals before it are passed over. *)
Theorem extract_token_rule (R : Runtime) (text : str) (i : nat) (xs : str) :
  (forall k zs, ~ dollar_ticker_at R text k zs) ->
  (forall k zs, ~ paren_ticker_at text k zs) ->
  standalone_at R text i xs ->
  (forall k zs, (k < i)%nat -> ~ standalone_at R text k zs) ->
  extract_ticker_from_text R text = Some xs.
Proof.
  intros Hnd Hnp Hx Hmin.
  destruct (findall_first_standalone R text None i xs Hx Hmin) as [tl Htl].
  assert (Hup : forallb is_upper xs = true)
    by (destruct Hx as (pre & rest & _ & _ & Hup & _); exact Hup).
  unfold extract_ticker_from_text.
  rewrite (search_dollar_none R text Hnd), (search_paren_none R text Hnp).
  cbv zeta. unfold findall_tokens. rewrite Htl.
  now rewrite (str_upper_capitals R xs Hup).
Qed.

(** A question with a pronoun before the ticker. *)
Lemma extract_token_rule_witness :
  extract_ticker_from_text ascii_tables (lit "I like TSLA") = Some (lit "TSLA").
Proof.
  apply (extract_token_rule ascii_tables (lit "I like TSLA") 7 (lit "TSLA")).
  - intros k zs Hk.
    pose proof (search_dollar_finds ascii_tables _ k zs Hk) as [g Hg].
    vm_compute in Hg. discriminate.
  - intros k zs Hk.
    pose proof (search_paren_finds ascii_tables _ k zs Hk) as [g Hg].
    vm_compute in Hg. discriminate.
  - exists (lit "I like "), []. repeat split; vm_compute; try lia; reflexivity.
  - intros k zs Hk Hz. unfold standalone_at in Hz.
    set (text := lit "I like TSLA") in Hz. vm_compute in text. subst text.
    do 7 (destruct k as [|k];
          [apply standalone_after_head in Hz as [Ht Hlen]; vm_compute in Ht;
           try discriminate Ht; injection Ht as <-; simpl in Hlen; lia
          |apply standalone_after_tail in Hz]).
    lia.
Defined.

(** X17. The extractor returns none exactly when the text holds no
    dollar-sign ticker, no parenthesised ticker and no standalone word of
    two to five capitals. *)
Theorem extract_none_iff (R : Runtime) (text : str) :
  extract_ticker_from_text R text = None <->
  (forall k zs, ~ dollar_ticker_at R text k zs) /\
  (forall k zs, ~ paren_ticker_at text k zs) /\
  (forall k zs, ~ standalone_at R text k zs).
Proof.
  split.
  - intros Hnone. repeat split; intros k zs Hk.
    + destruct (search_dollar_finds R text k zs Hk) as [g Hg].
      unfold extract_ticker_from_text in Hnone. rewrite Hg in Hnone. discriminate.
    + destruct (search_paren_finds R text k zs Hk) as [g Hg].
      unfold extract_ticker_from_text in Hnone. rewrite Hg in Hnone.
      destruct (search_dollar R text); discriminate.
    + destruct (findall_some_standalone R text None k zs Hk) as (g & tl & Hg).
      unfold extract_ticker_from_text, findall_tokens in Hnone. rewrite Hg in Hnone.
      destruct (search_dollar R text); [discriminate|].
      destruct (search_paren text); discriminate.
  - intros (Hnd & Hnp & Hns).
    destruct (extract_ticker_from_text R text) as [t|] eqn:E; [|reflexivity].
    exfalso. apply extract_cases in E as [[i Hi]|[[_ [i Hi]]|(_ & _ & Hin & Hlen)]].
    + now apply Hnd in Hi.
    + now apply Hnp in Hi.
    + destruct (findall_standalone R text 0 None t Hin Hlen) as [i Hi].
      now apply Hns in Hi.
Qed.

(* ===================================================================== *)
(** * The prompt of a resolved turn                                       *)
(* ===================================================================== *)

Lemma lit_app_nonempty (c : char) (a b x : str) : a = c :: b -> a ++ x <> [].
Proof. intros ->. discriminate. Qed.

Lemma ok_inj {A} (a b : A) : Ok a = Ok b -> a = b.
Proof. now intros [= ->]. Qed.

(** The profile fetch never returns the empty text. *)
Lemma get_stock_info_nonempty (W : World) (query info : str) :
  outcome (get_stock_info W query) = Ok info -> info <> [].
Proof.
  unfold get_stock_info. rewrite outcome_try_except.
  destruct (get_stock_info_body W query) as [tr [s|e]] eqn:Hb.
  - unfold outcome. cbn [snd]. intros H. apply ok_inj in H. subst info.
    destruct (get_stock_info_body_summary W query tr s Hb)
      as (name & sym & sector & industry & price & cap & summary & -> & _).
    cbn [join]. rewrite <- !app_assoc.
    apply (lit_app_nonempty 42%N (lit "**") (lit "*")). vm_compute. reflexivity.
  - unfold outcome, ret. cbn [snd]. intros H. apply ok_inj in H. subst info.
    apply (lit_app_nonempty 67%N _ (lit "ouldn't fetch info for '")).
    vm_compute. reflexivity.
Qed.

(** Nor does the news fetch, when asked for five headlines. *)
Lemma get_latest_news_nonempty_text (W : World) (sym news : str) :
  outcome (get_latest_news W sym 5) = Ok news -> news <> [].
Proof.
  destruct (yf_news W sym) as [[[|n items]|]|e] eqn:Hn.
  - unfold get_latest_news. rewrite outcome_try_except, outcome_bind, outcome_call, Hn.
    intros H. apply ok_inj in H. subst news. vm_compute. discriminate.
  - rewrite (get_latest_news_nonempty W sym 5 n items Hn). intros H.
    apply ok_inj in H. subst news.
    pose proof (news_list_head (slice_to (n :: items) 5) ltac:(discriminate)) as Hh.
    destruct (join _ _); discriminate.
  - unfold get_latest_news. rewrite outcome_try_except, outcome_bind, outcome_call, Hn.
    intros H. apply ok_inj in H. subst news. vm_compute. discriminate.
  - unfold get_latest_news. rewrite outcome_try_except, outcome_bind, outcome_call, Hn.
    cbv beta iota. unfold outcome, ret. cbn [snd]. intros H.
    apply ok_inj in H. subst news.
    apply (lit_app_nonempty 69%N _ (lit "rror fetching news: ")).
    vm_compute. reflexivity.
Qed.

(** The prompt when both texts are there. *)
Lemma build_prompt_full (user_input : str) (c : char) (t : str) (i0 : char) (info : str)
    (n0 : char) (news : str) (hist : option DataFrame) :
  build_prompt user_input (Some (c :: t))
    (mk_fetched (Some (i0 :: info)) hist (Some (n0 :: news)))
  = (prompt_base user_input ++ summary_section (c :: t) (i0 :: info))
      ++ news_section (c :: t) (n0 :: news).
Proof.
  unfold build_prompt, prompt_base, summary_section, news_section. reflexivity.
Qed.

(** What the profile fetch returns when the first lookup raises. *)
Lemma get_stock_info_lookup_raises (W : World) (query : str) (e : exn) :
  yf_info W (str_upper W query) = Raise e ->
  outcome (get_stock_info W query) = Ok (fetch_error query e).
Proof.
  intros He. unfold get_stock_info. rewrite outcome_try_except.
  unfold get_stock_info_body. rewrite outcome_bind, outcome_call, He.
  cbv beta iota. unfold fetch_error, outcome, ret. cbn [snd]. reflexivity.
Qed.

(** What the profile fetch returns when the search by name raises, and
    when the lookup of the candidate raises. *)
Lemma get_stock_info_search_raises (W : World) (query : str) (info : option dict)
    (e : exn) :
  yf_info W (str_upper W query) = Ok info ->
  default ∅ info !! lit "shortName" = None ->
  yf_search W query = Raise e ->
  outcome (get_stock_info W query) = Ok (fetch_error query e).
Proof.
  intros Hinfo Hs Hsearch. unfold get_stock_info. rewrite outcome_try_except.
  unfold get_stock_info_body. rewrite outcome_bind, outcome_call, Hinfo.
  cbv beta iota. rewrite outcome_bind.
  destruct (decide (is_Some (default ∅ info !! lit "shortName"))) as [Hd|_].
  { rewrite Hs in Hd. now destruct Hd. }
  rewrite outcome_bind, outcome_call, Hsearch.
  cbv beta iota. unfold fetch_error, outcome, ret. cbn [snd]. reflexivity.
Qed.

Lemma get_stock_info_candidate_raises (W : World) (query : str) (info : option dict)
    (q : quote) (qs : list quote) (best : str) (e : exn) :
  yf_info W (str_upper W query) = Ok info ->
  default ∅ info !! lit "shortName" = None ->
  yf_search W query = Ok (Some (q :: qs)) ->
  symbol q = Some best ->
  yf_info W best = Raise e ->
  outcome (get_stock_info W query) = Ok (fetch_error query e).
Proof.
  intros Hinfo Hs Hsearch Hsym Hre. unfold get_stock_info. rewrite outcome_try_except.
  unfold get_stock_info_body. rewrite outcome_bind, outcome_call, Hinfo.
  cbv beta iota. rewrite outcome_bind.
  destruct (decide (is_Some (default ∅ info !! lit "shortName"))) as [Hd|_].
  { rewrite Hs in Hd. now destruct Hd. }
  rewrite outcome_bind, outcome_call, Hsearch. cbv beta iota.
  rewrite outcome_bind, outcome_lift. unfold quote_symbol. rewrite Hsym.
  cbv beta iota. rewrite outcome_call, Hre.
  cbv beta iota. unfold fetch_error, outcome, ret. cbn [snd]. reflexivity.
Qed.

(** What the news fetch returns when reading the news attribute raises. *)
Lemma get_latest_news_lookup_raises (W : World) (sym : str) (count : Z) (e : exn) :
  ticker_news W sym = Ok (Raise e) ->
  outcome (get_latest_news W sym count)
  = Ok (if attribute_error W e then lit "No recent news found." else news_error e).
Proof.
  intros Hn. pose proof (yf_news_built W sym _ Hn) as Hy.
  unfold getattr_or_none in Hy. destruct (attribute_error W e).
  - apply get_latest_news_nothing. left. exact Hy.
  - apply get_latest_news_raises. exact Hy.
Qed.

(** X18. In a turn with a resolved symbol the prompt always has its
    three parts: the guardrails with the question, the company summary
    and the headlines, built from what the profile fetch and the news
    fetch returned; neither section is ever left out.  When one of the
    provider calls of the profile fetch raises (the lookup, the search by
    name or the lookup of the candidate), the summary section holds the
    error string of the profile fetch.  When building the ticker for the
    news raises, or reading its news attribute raises anything but an
    AttributeError, the headlines section holds the error string of the
    news fetch; an AttributeError there leaves the no-news literal in the
    section. *)
Theorem resolved_prompt_sections (W : World) (user_input sym : str) :
  sym <> [] ->
  exists info hist news,
    outcome (fetch W (Some sym)) = Ok (mk_fetched (Some info) hist (Some news)) /\
    outcome (get_stock_info W sym) = Ok info /\
    outcome (get_latest_news W sym 5) = Ok news /\
    build_prompt user_input (Some sym) (mk_fetched (Some info) hist (Some news))
    = (prompt_base user_input ++ summary_section sym info) ++ news_section sym news /\
    (forall e, yf_info W (str_upper W sym) = Raise e -> info = fetch_error sym e) /\
    (forall first e,
        yf_info W (str_upper W sym) = Ok first ->
        default ∅ first !! lit "shortName" = None ->
        yf_search W sym = Raise e ->
        info = fetch_error sym e) /\
    (forall first q qs best e,
        yf_info W (str_upper W sym) = Ok first ->
        default ∅ first !! lit "shortName" = None ->
        yf_search W sym = Ok (Some (q :: qs)) ->
        symbol q = Some best ->
        yf_info W best = Raise e ->
        info = fetch_error sym e) /\
    (forall e, ticker_news W sym = Raise e -> news = news_error e) /\
    (forall e,
        ticker_news W sym = Ok (Raise e) ->
        news = if attribute_error W e then lit "No recent news found." else news_error e).
Proof.
  intros Hne. destruct sym as [|c t]; [congruence|].
  destruct (get_stock_info_returns W (c :: t)) as [info Hi].
  destruct (get_stock_history_returns W (c :: t) (lit "1y") (lit "1d")) as [hist Hh].
  destruct (get_latest_news_returns W (c :: t) 5) as [news Hn].
  exists info, hist, news.
  split.
  { rewrite (fetch_resolved W (c :: t) info news hist ltac:(discriminate) Hi Hh Hn).
    reflexivity. }
  split; [exact Hi|]. split; [exact Hn|].
  split; [|split; [|split; [|split; [|split]]]].
  - pose proof (get_stock_info_nonempty W (c :: t) info Hi) as Hin.
    pose proof (get_latest_news_nonempty_text W (c :: t) news Hn) as Hnn.
    destruct info as [|i0 info]; [congruence|].
    destruct news as [|n0 news]; [congruence|].
    apply build_prompt_full.
  - intros e He. rewrite (get_stock_info_lookup_raises W (c :: t) e He) in Hi.
    apply ok_inj in Hi. now subst info.
  - intros first e H1 H2 H3.
    rewrite (get_stock_info_search_raises W (c :: t) first e H1 H2 H3) in Hi.
    apply ok_inj in Hi. now subst info.
  - intros first q qs best e H1 H2 H3 H4 H5.
    rewrite (get_stock_info_candidate_raises W (c :: t) first q qs best e H1 H2 H3 H4 H5)
      in Hi.
    apply ok_inj in Hi. now subst info.
  - intros e He.
    rewrite (get_latest_news_raises W (c :: t) 5 e (yf_news_unbuilt W _ e He)) in Hn.
    apply ok_inj in Hn. now subst news.
  - intros e He. rewrite (get_latest_news_lookup_raises W (c :: t) 5 e He) in Hn.
    apply ok_inj in Hn. now subst news.
Qed.

(** The prompt for AAPL against a provider that is down: both sections
    hold the error strings. *)
Lemma resolved_prompt_sections_witness :
  exists info hist news,
    build_prompt (lit "What about AAPL?") (Some (lit "AAPL"))
      (mk_fetched (Some info) hist (Some news))
    = (prompt_base (lit "What about AAPL?") ++ summary_section (lit "AAPL") info)
        ++ news_section (lit "AAPL") news /\
    info = fetch_error (lit "AAPL") Scenario.connection_error /\
    news = news_error Scenario.connection_error.
Proof.
  destruct (resolved_prompt_sections Scenario.offline (lit "What about AAPL?") (lit "AAPL")
              ltac:(discriminate))
    as (info & hist & news & _ & _ & _ & H & Hi & _ & _ & _ & Hn).
  exists info, hist, news. split; [exact H|]. split.
  - apply Hi. reflexivity.
  - rewrite (Hn Scenario.connection_error eq_refl). vm_compute. reflexivity.
Defined.

(* ===================================================================== *)
(** * The start of the application                                        *)
(* ===================================================================== *)

(** A question in lower case holds no standalone word of capitals. *)
Lemma extract_none_iff_witness :
  ~ standalone_at ascii_tables (lit "tell me about tesla") 0 (lit "AB").
Proof.
  assert (H : extract_ticker_from_text ascii_tables (lit "tell me about tesla") = None)
    by (vm_compute; reflexivity).
  exact (proj2 (proj2 (proj1 (extract_none_iff ascii_tables (lit "tell me about tesla")) H))
           0%nat (lit "AB")).
Defined.
(* ===================================================================== *)
(** * Standard output over the life of a process                          *)
(* ===================================================================== *)

Lemma printed_app (tr1 tr2 : list event) :
  printed (tr1 ++ tr2) = printed tr1 ++ printed tr2.
Proof.
  induction tr1 as [|ev tr1 IH]; [reflexivity|].
  destruct ev; simpl; rewrite IH; reflexivity.
Qed.

Section SilentFacts.

Context {A B : Type}.

Lemma silent_ret (a : A) : silent (ret a).
Proof. reflexivity. Qed.

Lemma silent_lift (r : result A) : silent (lift r).
Proof. reflexivity. Qed.

Lemma silent_call (ev : event) (r : result A) : printed [ev] = [] -> silent (call ev r).
Proof. intros H. exact H. Qed.

Lemma silent_bind (m : M A) (k : A -> M B) :
  silent m -> (forall a, silent (k a)) -> silent (bind m k).
Proof.
  unfold silent, trace, bind. destruct m as [tr [a|e]]; cbn [fst]; intros Hm Hk.
  - specialize (Hk a). destruct (k a) as [tr' r]. cbn [fst] in *.
    rewrite printed_app, Hm, Hk. reflexivity.
  - exact Hm.
Qed.

Lemma silent_try_except (body : M A) (handler : exn -> M A) :
  silent body -> (forall e, silent (handler e)) -> silent (try_except body handler).
Proof.
  unfold silent, trace, try_except. destruct body as [tr [a|e]]; cbn [fst]; intros Hm Hk.
  - exact Hm.
  - specialize (Hk e). destruct (handler e) as [tr' r]. cbn [fst] in *.
    rewrite printed_app, Hm, Hk. reflexivity.
Qed.

End SilentFacts.

Lemma silent_emit (ev : event) : printed [ev] = [] -> silent (emit ev).
Proof. intros H. exact H. Qed.

(** One step through a computation of the script. *)
Ltac silent_step :=
  lazymatch goal with
  | |- silent (bind _ _) => apply silent_bind; [|intros ?]
  | |- silent (try_except _ _) => apply silent_try_except; [|intros ?]
  | |- silent (ret _) => apply silent_ret
  | |- silent (lift _) => apply silent_lift
  | |- silent (emit _) => apply silent_emit; reflexivity
  | |- silent (call _ _) => apply silent_call; reflexivity
  | |- silent (if ?b then _ else _) => destruct b
  | |- silent (match ?x with _ => _ end) => destruct x
  end.

Lemma get_stock_info_silent (W : World) (query : str) : silent (get_stock_info W query).
Proof.
  unfold get_stock_info, get_stock_info_body. cbv zeta. repeat silent_step.
Qed.

Lemma get_stock_history_silent (W : World) (ticker period interval : str) :
  silent (get_stock_history W ticker period interval).
Proof. unfold get_stock_history. cbv zeta. repeat silent_step. Qed.

Lemma get_latest_news_silent (W : World) (ticker : str) (count : Z) :
  silent (get_latest_news W ticker count).
Proof. unfold get_latest_news. cbv zeta. repeat silent_step. Qed.

Lemma resolve_silent (W : World) (user_input : str) : silent (resolve W user_input).
Proof. unfold resolve. cbv zeta. repeat silent_step. Qed.

Lemma fetch_silent (W : World) (resolved_ticker : option str) :
  silent (fetch W resolved_ticker).
Proof.
  unfold fetch. destruct resolved_ticker as [[|c t]|]; cbv zeta;
    repeat first [ silent_step | apply get_stock_info_silent
                 | apply get_stock_history_silent | apply get_latest_news_silent ].
Qed.

Lemma ask_assistant_silent (W : World) (prompt : str) : silent (ask_assistant W prompt).
Proof. unfold ask_assistant. repeat silent_step. Qed.

Lemma answer_silent (W : World) (user_input : str) : silent (answer W user_input).
Proof.
  unfold answer. cbv zeta.
  repeat first [ silent_step | apply resolve_silent | apply fetch_silent
               | apply ask_assistant_silent ].
Qed.

Lemma show_metrics_silent (W : World) (info : dict) : silent (show_metrics W info).
Proof. unfold show_metrics. repeat silent_step. Qed.

Lemma show_chart_silent (history_df : option DataFrame) : silent (show_chart history_df).
Proof. unfold show_chart. repeat silent_step. Qed.

Lemma show_news_silent (W : World) (sym : str) (news_md : option str) :
  silent (show_news W sym news_md).
Proof. unfold show_news. cbv zeta. repeat silent_step. Qed.

Lemma show_ticker_data_silent (W : World) (resolved_ticker : option str) (data : fetched) :
  silent (show_ticker_data W resolved_ticker data).
Proof.
  unfold show_ticker_data. destruct resolved_ticker as [[|c t]|];
    [apply silent_ret| |apply silent_ret].
  cbv zeta.
  apply silent_bind; [apply silent_emit; reflexivity|intros _].
  apply silent_bind; [apply silent_emit; reflexivity|intros _].
  apply silent_bind; [|intros _].
  { destruct (opt_truthy (stock_data data)); apply silent_emit; reflexivity. }
  apply silent_bind; [|intros info].
  { apply silent_try_except; [|intros _; apply silent_ret].
    apply silent_bind; [apply silent_call; reflexivity|intros ?; apply silent_ret]. }
  apply silent_bind; [apply show_metrics_silent|intros _].
  apply silent_bind; [apply show_chart_silent|intros _].
  apply show_news_silent.
Qed.

Lemma handle_turn_silent (W : World) (log : list message) (user_input : str) :
  silent (snd (handle_turn W log user_input)).
Proof.
  unfold handle_turn. cbv zeta.
  assert (H : silent (bind (emit (UiChatMessage (lit "user") user_input))
                           (fun _ => answer W user_input))).
  { apply silent_bind; [apply silent_emit; reflexivity|]. intros _. apply answer_silent. }
  destruct (bind (emit (UiChatMessage (lit "user") user_input))
                 (fun _ => answer W user_input)) as [tr [[[resolved data] reply]|e]].
  - cbn [snd]. apply silent_bind; [exact H|]. intros _.
    apply silent_bind; [apply silent_emit; reflexivity|]. intros _.
    apply show_ticker_data_silent.
  - exact H.
Qed.

Lemma show_messages_silent (log : list message) : silent (show_messages log).
Proof.
  induction log as [|msg rest IH]; [apply silent_ret|].
  cbn [show_messages]. apply silent_bind; [apply silent_emit; reflexivity|].
  intros _. exact IH.
Qed.

Lemma run_script_silent (W : World) (session : option (list message))
    (user_input : option str) :
  silent (snd (run_script W session user_input)).
Proof.
  unfold run_script. cbv zeta.
  destruct user_input as [[|c s]|]; try apply show_messages_silent.
  pose proof (handle_turn_silent W (default [greeting] session) (c :: s)) as H.
  destruct (handle_turn W (default [greeting] session) (c :: s)) as [log' m].
  cbn [snd] in *. apply silent_bind; [apply show_messages_silent|]. intros _. exact H.
Qed.

Lemma main_silent (W : World) (key : str) (session : option (list message))
    (user_input : option str) :
  silent (snd (main W key session user_input)).
Proof.
  unfold main. cbv zeta. destruct (new_client W key) as [[]|e].
  - pose proof (run_script_silent W session user_input) as H.
    destruct (run_script W session user_input) as [log m]. cbn [snd] in *.
    apply silent_bind; [apply silent_emit; reflexivity|]. intros _. exact H.
  - cbn [snd]. repeat silent_step.
Qed.

(** A run in a process that has imported [config]. *)
Lemma run_imported (W : World) (env : Config.environ) (dotenv : option Config.environ)
    (key : str) (session : option (list message)) (user_input : option str) :
  config_module (fst (run W env dotenv (mk_process (Some key) session) user_input))
  = Some key /\
  silent (snd (run W env dotenv (mk_process (Some key) session) user_input)).
Proof.
  unfold run. cbn [config_module session_state].
  pose proof (main_silent W key session user_input) as H.
  destruct (main W key session user_input) as [session' m]. cbn [fst snd] in *.
  split; [reflexivity|exact H].
Qed.

Lemma runs_imported (key : str)
    (l : list (World * Config.environ * option Config.environ * option str)) :
  forall session,
    config_module (fst (runs (mk_process (Some key) session) l)) = Some key /\
    printed (snd (runs (mk_process (Some key) session) l)) = [].
Proof.
  induction l as [|[[[W env] dotenv] user_input] rest IH]; intros session.
  - split; reflexivity.
  - cbn [runs].
    destruct (run_imported W env dotenv key session user_input) as [Hk Hs].
    destruct (run W env dotenv (mk_process (Some key) session) user_input) as [[k' s'] m].
    cbn [fst snd config_module] in Hk, Hs. subst k'.
    destruct (IH s') as [Hk' Hs'].
    destruct (runs (mk_process (Some key) s') rest) as [P'' tr]. cbn [fst snd] in *.
    split; [exact Hk'|]. rewrite printed_app, Hs'. unfold silent in Hs. rewrite Hs.
    reflexivity.
Qed.

(** X19. The lines of [config.py], among them the first four characters
    of the key, are written once in the life of a process.  The run that
    imports [config] with a key writes those lines and nothing else; from
    then on the process keeps that key, and no later run writes anything
    to standard output, whatever the environment, the [.env] file, the
    provider and the inputs are by then. *)
Theorem config_printed_once (W : World) (env : Config.environ)
    (dotenv : option Config.environ) (session : option (list message))
    (user_input : option str) (key : str)
    (later : list (World * Config.environ * option Config.environ * option str)) :
  outcome (Config.config env dotenv) = Ok key ->
  let first := run W env dotenv (mk_process None session) user_input in
  printed (trace (snd first)) = printed (trace (Config.config env dotenv)) /\
  config_module (fst first) = Some key /\
  config_module (fst (runs (fst first) later)) = Some key /\
  printed (snd (runs (fst first) later)) = [].
Proof.
  intros Hk first. subst first. unfold run. cbn [config_module session_state].
  rewrite Hk. unfold app.
  pose proof (main_silent W key session user_input) as Hm.
  destruct (Config.config env dotenv) as [tr r]. unfold outcome in Hk. cbn [snd] in Hk.
  subst r. destruct (main W key session user_input) as [session' m].
  cbn [fst snd] in *.
  split; [|split; [reflexivity|exact (runs_imported key later session')]].
  unfold silent in Hm. destruct m as [tr' r']. unfold bind, trace in *. cbn [fst] in *.
  rewrite printed_app, Hm. apply app_nil_r.
Qed.

(** A process started with a key: the first run imports [config]; then
    the key is taken out of the environment and the provider goes down,
    and two more runs follow. *)
Lemma config_printed_once_witness :
  config_module
    (fst (runs (fst (run Scenario.quiet {[ lit "OPENAI_API_KEY" := lit "sk-test-123" ]} None
                         (mk_process None None) None))
               [ (Scenario.offline, ∅, None, Some (lit "What about AAPL?"));
                 (Scenario.offline, ∅, None, None) ]))
  = Some (lit "sk-test-123") /\
  printed
    (snd (runs (fst (run Scenario.quiet {[ lit "OPENAI_API_KEY" := lit "sk-test-123" ]} None
                         (mk_process None None) None))
               [ (Scenario.offline, ∅, None, Some (lit "What about AAPL?"));
                 (Scenario.offline, ∅, None, None) ]))
  = [].
Proof.
  assert (Hk : outcome (Config.config
                          ({[ lit "OPENAI_API_KEY" := lit "sk-test-123" ]} : Config.environ)
                          None)
               = Ok (lit "sk-test-123")).
  { vm_compute. reflexivity. }
  destruct (config_printed_once Scenario.quiet _ None None None (lit "sk-test-123")
              [ (Scenario.offline, ∅, None, Some (lit "What about AAPL?"));
                (Scenario.offline, ∅, None, None) ] Hk) as (_ & _ & H1 & H2).
  split; [exact H1|exact H2].
Defined.
